(** * ai-caller: call lifecycle and webhook reconciliation

    A shallow embedding of the call service
    ([src/modules/calls/call.service.ts]), of the call routes and the Vapi
    webhook routes ([src/modules/calls/call.routes.ts],
    [src/modules/vapi/vapi.routes.ts]), of the signature verifier and its
    hook ([src/modules/vapi/webhook-verification.ts]), of the validation
    of requests ([src/modules/calls/call.schemas.ts]), of the checks of
    the configuration ([src/config/index.ts]) and of the transcript
    migration ([src/database/db.service.ts]), with the properties of the
    call lifecycle stated and proved over it.

    Conventions of the embedding:
    - JavaScript strings are [string]s; case mapping and [trim] act on the
      ASCII range and leave every other byte as it is;
    - the numbers the code handles (epoch milliseconds, message offsets,
      acreage) are integers of [Z]; a duration, which the code obtains by
      a division by 1000, is a rational of [Q];
    - [undefined]/[null] is [None];
    - the SQLite table [calls] is a finite map from the primary key [id]
      to a row; the [async] service functions are computations of a state
      monad over that table and the system clock. *)

From Stdlib Require Import ZArith QArith String Ascii List Lia Bool DecimalString.
From stdpp Require Import gmap strings list fin_maps sorting.

Local Open Scope string_scope.
Local Open Scope Z_scope.

(** ** JavaScript strings *)

Module Js.

Definition isUpper (c : ascii) : bool :=
  ((65 <=? nat_of_ascii c) && (nat_of_ascii c <=? 90))%nat.

Definition isLower (c : ascii) : bool :=
  ((97 <=? nat_of_ascii c) && (nat_of_ascii c <=? 122))%nat.

Definition lowerChar (c : ascii) : ascii :=
  if isUpper c then ascii_of_nat (nat_of_ascii c + 32) else c.

Definition upperChar (c : ascii) : ascii :=
  if isLower c then ascii_of_nat (nat_of_ascii c - 32) else c.

(** [s.toLowerCase()] *)
Fixpoint toLowerCase (s : string) : string :=
  match s with
  | EmptyString => EmptyString
  | String c s' => String (lowerChar c) (toLowerCase s')
  end.

(** [s.startsWith(p)] *)
Definition startsWith (s p : string) : bool := String.prefix p s.

(** [s.includes(sub)] *)
Fixpoint includes (s sub : string) : bool :=
  if String.prefix sub s then true
  else match s with
       | EmptyString => false
       | String _ s' => includes s' sub
       end.

(** White space removed by [trim]: space, tab, line feed, vertical tab,
    form feed, carriage return. *)
Definition isSpace (c : ascii) : bool :=
  let n := nat_of_ascii c in
  ((n =? 32) || ((9 <=? n) && (n <=? 13)))%nat.

Fixpoint trimStart (s : string) : string :=
  match s with
  | EmptyString => EmptyString
  | String c s' => if isSpace c then trimStart s' else s
  end.

(** Drops the trailing white space: a character is kept when it is not
    white space or when something is kept after it. *)
Fixpoint trimEnd (s : string) : string :=
  match s with
  | EmptyString => EmptyString
  | String c s' =>
      match trimEnd s' with
      | EmptyString => if isSpace c then EmptyString else String c EmptyString
      | r => String c r
      end
  end.

(** [s.trim()] *)
Definition trim (s : string) : string := trimEnd (trimStart s).

(** [s.replace(/[-_]/g, " ")] *)
Fixpoint dashesToSpaces (s : string) : string :=
  match s with
  | EmptyString => EmptyString
  | String c s' =>
      String (if (Ascii.eqb c "-" || Ascii.eqb c "_")%bool then " "%char else c)
             (dashesToSpaces s')
  end.

(** [s.replace(/^p/, r)] for a literal prefix [p] *)
Definition replacePrefix (p r s : string) : string :=
  if String.prefix p s
  then r ++ String.substring (String.length p) (String.length s - String.length p) s
  else s.

(** [s.charAt(0).toUpperCase() + s.slice(1)] *)
Definition capitalize (s : string) : string :=
  match s with
  | EmptyString => EmptyString
  | String c s' => String (upperChar c) s'
  end.

(** Template-literal rendering of an integer. *)
Definition ofZ (z : Z) : string := NilZero.string_of_int (Z.to_int z).
Definition ofNat (n : nat) : string := ofZ (Z.of_nat n).

(** [arr.join(" ")] *)
Fixpoint join (sep : string) (l : list string) : string :=
  match l with
  | [] => EmptyString
  | [x] => x
  | x :: l' => x ++ sep ++ join sep l'
  end.

(** Truthiness of an optional string: [undefined] and the empty string
    are falsy. *)
Definition truthy (o : option string) : bool :=
  match o with
  | Some s => negb (String.eqb s EmptyString)
  | None => false
  end.

(** [a || b] on optional strings *)
Definition orElse (a b : option string) : option string :=
  if truthy a then a else b.

(** [o || d] with a string default *)
Definition orDefault (o : option string) (d : string) : string :=
  match o with
  | Some s => if String.eqb s EmptyString then d else s
  | None => d
  end.

(** Truthiness of an optional number: [undefined] and [0] are falsy. *)
Definition truthyNum (o : option Z) : bool :=
  match o with
  | Some z => negb (z =? 0)
  | None => false
  end.

(** [a || d] on an optional number: the number unless it is falsy *)
Definition numOr (o : option Z) (d : Z) : Z :=
  match o with
  | Some z => if z =? 0 then d else z
  | None => d
  end.

(** [o || undefined] on an optional number, as the row conversions use it *)
Definition numOrUndefined (o : option Z) : option Z :=
  if truthyNum o then o else None.

Definition strOrUndefined (o : option string) : option string :=
  if truthy o then o else None.

(** Truthiness of an optional object: only [undefined] is falsy. *)
Definition isDefined {A} (o : option A) : bool :=
  match o with
  | Some _ => true
  | None => false
  end.

End Js.

(** ** Data model ([call.types.ts]) *)

Inductive CallState := GREETING | QUALIFICATION | CLOSING | END.

Inductive CallStatus :=
  PENDING | CALLING | IN_PROGRESS | COMPLETED | FAILED | NO_ANSWER | VOICEMAIL.

Inductive InterestLevel := HOT | WARM | COLD | NOT_INTERESTED.

#[global] Instance CallState_eq_dec : EqDecision CallState.
Proof. solve_decision. Defined.
#[global] Instance CallStatus_eq_dec : EqDecision CallStatus.
Proof. solve_decision. Defined.
#[global] Instance InterestLevel_eq_dec : EqDecision InterestLevel.
Proof. solve_decision. Defined.

Record LeadData := mkLeadData {
  firstName : string;
  lastName : string;
  leadPhone : string;
  county : string;
  leadState : string;
  acreage : option Z;
  propertyAddress : option string
}.

Record CallSummary := mkCallSummary {
  duration : Q;
  outcome : string;
  interestLevel : InterestLevel;
  keyPoints : list string;
  nextAction : option string;
  appointmentScheduled : option bool
}.

Record TranscriptMessage := mkTranscriptMessage {
  role : string;
  message : string;
  time : option Z;
  secondsFromStart : option Z
}.

Record CallEntity := mkCallEntity {
  id : string;
  phone : string;
  state : CallState;
  status : CallStatus;
  transcript : list TranscriptMessage;
  leadData : option LeadData;
  summary : option CallSummary;
  vapiCallId : option string;
  errorMessage : option string;
  startedAt : option Z;
  completedAt : option Z;
  createdAt : Z;
  updatedAt : Z
}.

(** The terminal statuses of the specification's data model. *)
Definition terminal (s : CallStatus) : bool :=
  match s with
  | COMPLETED | FAILED | NO_ANSWER | VOICEMAIL => true
  | PENDING | CALLING | IN_PROGRESS => false
  end.

(** ** The [calls] table and the state monad of the service *)

(** A row of the table [calls] without its primary key [id], which is the
    key of the map.  The JSON text of the columns [transcript] and
    [summary] is kept as the value it encodes. *)
Record CallRow := mkCallRow {
  vapi_call_id : option string;
  lead_first_name : string;
  lead_last_name : string;
  lead_phone : string;
  lead_county : string;
  lead_state : string;
  lead_acreage : option Z;
  lead_property_address : option string;
  row_status : CallStatus;
  current_state : CallState;
  row_transcript : list TranscriptMessage;
  row_summary : option CallSummary;
  error_message : option string;
  created_at : Z;
  updated_at : Z;
  started_at : option Z;
  ended_at : option Z
}.

(** The world a service call runs in: the table, the system clock as the
    sequence of its successive readings, and the number of readings taken
    so far. *)
Record World := mkWorld {
  calls : gmap string CallRow;
  clock : nat -> Z;
  reads : nat
}.

Definition M (A : Type) : Type := World -> A * World.

Definition ret {A} (a : A) : M A := fun w => (a, w).

Definition bind {A B} (m : M A) (k : A -> M B) : M B :=
  fun w => let (a, w') := m w in k a w'.

Notation "'do' x <- m ; k" := (bind m (fun x => k))
  (at level 10, x name, m at level 100, k at level 200).
Notation "m ;; k" := (bind m (fun _ => k))
  (at level 100, k at level 200, right associativity).

(** [if (c) { body }] *)
Definition when (c : bool) (body : M unit) : M unit :=
  if c then body else ret tt.

(** [for (const x of l) { body }] *)
Fixpoint forEach {A} (l : list A) (body : A -> M unit) : M unit :=
  match l with
  | [] => ret tt
  | x :: l' => body x ;; forEach l' body
  end.

(** [new Date()] and [Date.now()]: the next reading of the clock. *)
Definition newDate : M Z :=
  fun w => (clock w (reads w),
            {| calls := calls w; clock := clock w; reads := S (reads w) |}).

(** [SELECT * FROM calls WHERE id = ?] *)
Definition selectById (cid : string) : M (option CallRow) :=
  fun w => (calls w !! cid, w).

(** [SELECT * FROM calls WHERE vapi_call_id = ?], first row *)
Definition selectByVapiCallId (v : string) : M (option (string * CallRow)) :=
  fun w => (head (filter (fun kv => vapi_call_id kv.2 = Some v)
                         (map_to_list (calls w))), w).

(** [SELECT * FROM calls WHERE (status = 'CALLING' OR status =
    'IN_PROGRESS') AND updated_at < ?] *)
Definition selectStale (cutoffTime : Z) : M (list (string * CallRow)) :=
  fun w => (filter (fun kv => (row_status kv.2 = CALLING
                               \/ row_status kv.2 = IN_PROGRESS)
                              /\ updated_at kv.2 < cutoffTime)
                   (map_to_list (calls w)), w).

(** [UPDATE calls SET ... WHERE id = @id]: no row, no change. *)
Definition updateRow (cid : string) (row : CallRow) : M unit :=
  fun w => (tt, match calls w !! cid with
                | Some _ => {| calls := <[cid := row]> (calls w);
                               clock := clock w; reads := reads w |}
                | None => w
                end).

(** [INSERT INTO calls ...]: [false] stands for the exception the
    statement raises when the primary key is taken. *)
Definition insertRow (cid : string) (row : CallRow) : M bool :=
  fun w => match calls w !! cid with
           | Some _ => (false, w)
           | None => (true, {| calls := <[cid := row]> (calls w);
                               clock := clock w; reads := reads w |})
           end.

(** ** The call service ([call.service.ts]) *)

Definition rowToCall (cid : string) (row : CallRow) : CallEntity :=
  {| id := cid;
     vapiCallId := Js.strOrUndefined (vapi_call_id row);
     phone := lead_phone row;
     state := current_state row;
     status := row_status row;
     transcript := row_transcript row;
     leadData := Some {| firstName := lead_first_name row;
                         lastName := lead_last_name row;
                         leadPhone := lead_phone row;
                         county := lead_county row;
                         leadState := lead_state row;
                         acreage := Js.numOrUndefined (lead_acreage row);
                         propertyAddress :=
                           Js.strOrUndefined (lead_property_address row) |};
     summary := row_summary row;
     errorMessage := Js.strOrUndefined (error_message row);
     createdAt := created_at row;
     updatedAt := updated_at row;
     startedAt := Js.numOrUndefined (started_at row);
     completedAt := Js.numOrUndefined (ended_at row) |}.

Definition callToRow (call : CallEntity) : CallRow :=
  {| vapi_call_id := Js.strOrUndefined (vapiCallId call);
     lead_first_name := Js.orDefault (firstName <$> leadData call) "Unknown";
     lead_last_name := Js.orDefault (lastName <$> leadData call) EmptyString;
     lead_phone := phone call;
     lead_county := Js.orDefault (county <$> leadData call) "Unknown";
     lead_state := Js.orDefault (leadState <$> leadData call) "Unknown";
     lead_acreage := Js.numOrUndefined (leadData call ≫= acreage);
     lead_property_address :=
       Js.strOrUndefined (leadData call ≫= propertyAddress);
     row_status := status call;
     current_state := state call;
     row_transcript := transcript call;
     row_summary := summary call;
     error_message := Js.strOrUndefined (errorMessage call);
     created_at := createdAt call;
     updated_at := updatedAt call;
     started_at := startedAt call;
     ended_at := completedAt call |}.

(** Field updates of the mutable [CallEntity] object. *)
Definition setStatus (s : CallStatus) (c : CallEntity) : CallEntity :=
  mkCallEntity (id c) (phone c) (state c) s (transcript c) (leadData c)
    (summary c) (vapiCallId c) (errorMessage c) (startedAt c) (completedAt c)
    (createdAt c) (updatedAt c).

Definition setState (s : CallState) (c : CallEntity) : CallEntity :=
  mkCallEntity (id c) (phone c) s (status c) (transcript c) (leadData c)
    (summary c) (vapiCallId c) (errorMessage c) (startedAt c) (completedAt c)
    (createdAt c) (updatedAt c).

Definition setTranscript (t : list TranscriptMessage) (c : CallEntity)
  : CallEntity :=
  mkCallEntity (id c) (phone c) (state c) (status c) t (leadData c)
    (summary c) (vapiCallId c) (errorMessage c) (startedAt c) (completedAt c)
    (createdAt c) (updatedAt c).

Definition setSummary (s : option CallSummary) (c : CallEntity) : CallEntity :=
  mkCallEntity (id c) (phone c) (state c) (status c) (transcript c)
    (leadData c) s (vapiCallId c) (errorMessage c) (startedAt c)
    (completedAt c) (createdAt c) (updatedAt c).

Definition setVapiCallId (v : option string) (c : CallEntity) : CallEntity :=
  mkCallEntity (id c) (phone c) (state c) (status c) (transcript c)
    (leadData c) (summary c) v (errorMessage c) (startedAt c) (completedAt c)
    (createdAt c) (updatedAt c).

Definition setErrorMessage (e : option string) (c : CallEntity) : CallEntity :=
  mkCallEntity (id c) (phone c) (state c) (status c) (transcript c)
    (leadData c) (summary c) (vapiCallId c) e (startedAt c) (completedAt c)
    (createdAt c) (updatedAt c).

Definition setStartedAt (t : option Z) (c : CallEntity) : CallEntity :=
  mkCallEntity (id c) (phone c) (state c) (status c) (transcript c)
    (leadData c) (summary c) (vapiCallId c) (errorMessage c) t (completedAt c)
    (createdAt c) (updatedAt c).

Definition setCompletedAt (t : option Z) (c : CallEntity) : CallEntity :=
  mkCallEntity (id c) (phone c) (state c) (status c) (transcript c)
    (leadData c) (summary c) (vapiCallId c) (errorMessage c) (startedAt c) t
    (createdAt c) (updatedAt c).

Definition setUpdatedAt (t : Z) (c : CallEntity) : CallEntity :=
  mkCallEntity (id c) (phone c) (state c) (status c) (transcript c)
    (leadData c) (summary c) (vapiCallId c) (errorMessage c) (startedAt c)
    (completedAt c) (createdAt c) t.

Module callService.

(** [create]: the UUID drawn is an argument; [None] stands for the
    exception of the insertion. *)
Definition create (uuid : string) (phone : string) (leadData : option LeadData)
  : M (option CallEntity) :=
  do now <- newDate;
  let call := {| id := uuid; phone := phone; state := GREETING;
                 status := PENDING; transcript := []; leadData := leadData;
                 summary := None; vapiCallId := None; errorMessage := None;
                 startedAt := None; completedAt := None;
                 createdAt := now; updatedAt := now |} in
  do inserted <- insertRow uuid (callToRow call);
  ret (if inserted then Some call else None).

Definition get (cid : string) : M (option CallEntity) :=
  do row <- selectById cid;
  ret (rowToCall cid <$> row).

Definition getByVapiCallId (v : string) : M (option CallEntity) :=
  do row <- selectByVapiCallId v;
  ret ((fun kv => rowToCall kv.1 kv.2) <$> row).

(** [save] stamps [updatedAt] on the object it is given and writes it;
    the stamped object is returned, standing for the mutated argument. *)
Definition save (call : CallEntity) : M CallEntity :=
  do now <- newDate;
  let call := setUpdatedAt now call in
  updateRow (id call) (callToRow call) ;;
  ret call.

Definition updateStatus (cid : string) (status : CallStatus)
    (errorMessage : option string) : M unit :=
  do found <- get cid;
  match found with
  | None => ret tt
  | Some call =>
      let call := setStatus status call in
      do now <- newDate;
      let call := setUpdatedAt now call in
      do call <-
        (if bool_decide (status = IN_PROGRESS) && negb (Js.isDefined (startedAt call))
         then do t <- newDate; ret (setStartedAt (Some t) call)
         else ret call);
      do call <-
        (if (bool_decide (status = COMPLETED) || bool_decide (status = FAILED))
            && negb (Js.isDefined (completedAt call))
         then do t <- newDate; ret (setState END (setCompletedAt (Some t) call))
         else ret call);
      let call :=
        if bool_decide (status = FAILED) && Js.truthy errorMessage
        then setErrorMessage errorMessage call else call in
      save call ;; ret tt
  end.

Definition updateState (cid : string) (state : CallState) : M unit :=
  do found <- get cid;
  match found with
  | None => ret tt
  | Some call =>
      let call := setState state call in
      do now <- newDate;
      save (setUpdatedAt now call) ;; ret tt
  end.

Definition addSummary (cid : string) (summary : CallSummary) : M unit :=
  do found <- get cid;
  match found with
  | None => ret tt
  | Some call =>
      let call := setSummary (Some summary) call in
      do now <- newDate;
      save (setUpdatedAt now call) ;; ret tt
  end.

(** The interest level computed inside [callService.generateBasicSummary]
    ([call.service.ts]), from the lower-cased transcript text. *)
Definition basicInterestLevel (lower : string) : InterestLevel :=
  if Js.includes lower "yes" || Js.includes lower "interested"
     || Js.includes lower "how much"
  then HOT
  else if Js.includes lower "not interested" || Js.includes lower "no thanks"
  then NOT_INTERESTED
  else if Js.includes lower "maybe" || Js.includes lower "thinking about"
  then WARM
  else COLD.

(** The [Property: ...] key point shared by the summary generators. *)
Definition propertyPoint (l : LeadData) : string :=
  "Property: "
  ++ (if Js.truthyNum (acreage l) then Js.ofZ (default 0 (acreage l)) else "?")
  ++ " acres in " ++ county l ++ " County, " ++ leadState l.

(** [Math.floor((completedAt - startedAt) / 1000)] when both are set *)
Definition timestampDuration (call : CallEntity) : Q :=
  match startedAt call, completedAt call with
  | Some s, Some c => inject_Z ((c - s) / 1000)
  | _, _ => 0%Q
  end.

Definition generateBasicSummary (call : CallEntity) : CallSummary :=
  let transcriptText := Js.join " " (message <$> transcript call) in
  let lower := Js.toLowerCase transcriptText in
  let interestLevel := basicInterestLevel lower in
  let keyPoints :=
    ((match leadData call with Some l => [propertyPoint l] | None => [] end)
     ++ (if (0 <? length (transcript call))%nat
         then [("Conversation length: " ++ Js.ofNat (length (transcript call))
                ++ " messages")%string] else [])
     ++ (if bool_decide (status call = FAILED)
         then ["Call timed out or failed"] else []))%list in
  let duration := timestampDuration call in
  let outcome :=
    if bool_decide (status call = FAILED) then "Call failed or timed out"
    else if bool_decide (interestLevel = HOT) then "Lead qualified - needs offer"
    else if bool_decide (interestLevel = NOT_INTERESTED) then "Lead not interested"
    else "Call completed" in
  let nextAction :=
    if bool_decide (status call = FAILED) then "Retry call later"
    else if bool_decide (interestLevel = HOT) then "Send offer via email"
    else if bool_decide (interestLevel = NOT_INTERESTED) then "Mark as do not contact"
    else "Review transcript" in
  {| duration := duration; outcome := outcome; interestLevel := interestLevel;
     keyPoints := keyPoints; nextAction := Some nextAction;
     appointmentScheduled := Some false |}.

(** The message the reaper records. *)
Definition timeoutMessage (timeoutSeconds : Z) : string :=
  "Call timed out after " ++ Js.ofZ (timeoutSeconds / 60)
  ++ " minutes without status update".

Definition markStaleCallsAsFailed (timeoutSeconds : Z) : M nat :=
  do now <- newDate;
  let cutoffTime := now - timeoutSeconds * 1000 in
  do staleRows <- selectStale cutoffTime;
  let staleCalls := (fun kv => rowToCall kv.1 kv.2) <$> staleRows in
  forEach staleCalls (fun call =>
    updateStatus (id call) FAILED (Some (timeoutMessage timeoutSeconds)) ;;
    when ((0 <? length (transcript call))%nat && negb (Js.isDefined (summary call)))
         (addSummary (id call) (generateBasicSummary call))) ;;
  ret (length staleCalls).

End callService.

(** ** Webhook payloads ([vapi.schemas.ts]) *)

(** An element of [artifact.messages], [message.messages] or
    [message.conversation]. *)
Record ArtifactMessage := mkArtifactMessage {
  m_role : string;
  m_message : option string;
  m_content : option string;
  m_time : option Z;
  m_endTime : option Z;
  m_secondsFromStart : option Z
}.

Record Artifact := mkArtifact {
  messages : option (list ArtifactMessage);
  recordingUrl : option string
}.

(** The [message] object of a webhook; [call] holds [message.call?.id]. *)
Record VapiMessage := mkVapiMessage {
  type : string;
  ev_status : option string;
  endedReason : option string;
  artifact : option Artifact;
  call : option string;
  ev_messages : option (list ArtifactMessage);
  conversation : option (list ArtifactMessage)
}.

(** ** [Array.prototype.sort] *)

(** The sort of an array is stable (ECMAScript 2019), and for a comparator
    that orders totally its result is that of the stable insertion sort:
    every element in turn goes behind all the elements that do not compare
    greater than it. *)
Fixpoint insertSorted {A} (cmp : A -> A -> Z) (x : A) (l : list A) : list A :=
  match l with
  | [] => [x]
  | y :: l' => if 0 <? cmp y x then x :: y :: l'
               else y :: insertSorted cmp x l'
  end.

Definition sort {A} (cmp : A -> A -> Z) (l : list A) : list A :=
  fold_left (fun acc x => insertSorted cmp x acc) l [].

(** [Math.max(x, ...l)] *)
Definition mathMax (x : Q) (l : list Q) : Q :=
  fold_left (fun acc y => if Qle_bool acc y then y else acc) l x.

(** ** The Vapi webhook routes ([vapi.routes.ts]) *)

Module vapiRoutes.

(** [(m.message || m.content || '').trim()] *)
Definition messageText (m : ArtifactMessage) : string :=
  Js.trim (Js.orDefault (Js.orElse (m_message m) (m_content m)) EmptyString).

Definition validMessages (messages : list ArtifactMessage)
  : list ArtifactMessage :=
  filter (fun m => (0 < String.length (messageText m))%nat)
    (filter (fun m => m_role m = "user" \/ m_role m = "bot") messages).

(** The entry pushed on the transcript for a message. *)
Definition entryOf (msg : ArtifactMessage) : TranscriptMessage :=
  {| role := m_role msg; message := messageText msg;
     time := m_time msg; secondsFromStart := m_secondsFromStart msg |}.

(** The string [`${t.role}:${t.message.trim().toLowerCase()}:${t.time || 0}`]
    of an entry of the transcript. *)
Definition existingId (t : TranscriptMessage) : string :=
  role t ++ ":" ++ Js.toLowerCase (Js.trim (message t)) ++ ":"
  ++ Js.ofZ (Js.numOr (time t) 0).

(** The string [`${msg.role}:${text.toLowerCase()}:${msg.time || 0}`] of a
    candidate message. *)
Definition messageId (msg : ArtifactMessage) : string :=
  m_role msg ++ ":" ++ Js.toLowerCase (messageText msg) ++ ":"
  ++ Js.ofZ (Js.numOr (m_time msg) 0).

(** The loop of the real-time mode over the valid messages, on the set of
    the identifiers seen and the transcript pushed so far. *)
Fixpoint pushNew (existingMessages : gset string)
    (transcript : list TranscriptMessage) (msgs : list ArtifactMessage)
  : list TranscriptMessage :=
  match msgs with
  | [] => transcript
  | msg :: rest =>
      if bool_decide (messageId msg ∈ existingMessages)
      then pushNew existingMessages transcript rest
      else pushNew ({[messageId msg]} ∪ existingMessages)
                   (transcript ++ [entryOf msg]) rest
  end.

(** [a.time || a.secondsFromStart || 0] *)
Definition sortTime (a : TranscriptMessage) : Z :=
  Js.numOr (time a) (Js.numOr (secondsFromStart a) 0).

Definition byTime (a b : TranscriptMessage) : Z := sortTime a - sortTime b.

Definition extractTranscriptFromMessages (call : CallEntity)
    (messages : list ArtifactMessage) (isFinalTranscript : bool)
  : CallEntity :=
  let valid := validMessages messages in
  let pushed :=
    if isFinalTranscript
    then (transcript call ++ (entryOf <$> valid))%list
    else pushNew (list_to_set (existingId <$> transcript call))
                 (transcript call) valid in
  setTranscript (sort byTime pushed) call.

Definition analyzeInterestLevel (transcript : string) : InterestLevel :=
  let lower := Js.toLowerCase transcript in
  if Js.includes lower "yes" || Js.includes lower "interested"
     || Js.includes lower "how much" || Js.includes lower "make an offer"
  then HOT
  else if Js.includes lower "not interested" || Js.includes lower "no thanks"
          || Js.includes lower "don't call"
  then NOT_INTERESTED
  else if Js.includes lower "maybe" || Js.includes lower "thinking about"
          || Js.includes lower "tell me more"
  then WARM
  else COLD.

Definition extractKeyPoints (call : CallEntity) : list string :=
  ((match leadData call with
    | Some l => [callService.propertyPoint l]
    | None => []
    end)
   ++ (if bool_decide (state call = QUALIFICATION)
       then ["Lead qualified - answered qualification questions"] else [])
   ++ (if bool_decide (state call = CLOSING)
       then ["Reached closing stage - discussed offer"] else [])
   ++ (if (0 <? length (transcript call))%nat
       then [("Conversation length: " ++ Js.ofNat (length (transcript call))
              ++ " exchanges")%string] else []))%list.

Definition determineOutcome (call : CallEntity) (interestLevel : InterestLevel)
  : string :=
  if bool_decide (interestLevel = NOT_INTERESTED)
  then "Not interested in selling"
  else if bool_decide (state call = END)
  then (if bool_decide (interestLevel = HOT) then "Appointment scheduled"
        else "Call completed")
  else if bool_decide (state call = CLOSING)
  then "Discussed offer - follow up needed"
  else if bool_decide (state call = QUALIFICATION)
  then "Lead qualified - needs offer"
  else "Initial contact made".

Definition determineNextAction (call : CallEntity)
    (interestLevel : InterestLevel) : option string :=
  match interestLevel with
  | NOT_INTERESTED => Some "Mark as not interested"
  | HOT => if bool_decide (state call = CLOSING) || bool_decide (state call = END)
           then Some "Send offer via email"
           else Some "Schedule follow-up call"
  | WARM => Some "Follow up in 1 week"
  | COLD => Some "Follow up in 2-4 weeks"
  end.

Definition generateCallSummary (call : CallEntity) (artifact : option Artifact)
  : CallSummary :=
  let duration :=
    match artifact ≫= messages with
    | Some msgs =>
        let botMessages := filter (fun m => m_role m = "bot") msgs in
        match (fun m => (inject_Z (Js.numOr (m_endTime m) (Js.numOr (m_time m) 0))
                         / 1000)%Q) <$> botMessages with
        | x :: l => mathMax x l
        | [] => 0%Q
        end
    | None => callService.timestampDuration call
    end in
  let transcriptText := Js.join " " (message <$> transcript call) in
  let interestLevel := analyzeInterestLevel transcriptText in
  let keyPoints := extractKeyPoints call in
  let outcome := determineOutcome call interestLevel in
  let nextAction := determineNextAction call interestLevel in
  {| duration := duration; outcome := outcome; interestLevel := interestLevel;
     keyPoints := keyPoints; nextAction := nextAction;
     appointmentScheduled :=
       Some (bool_decide (state call = CLOSING)
             && negb (bool_decide (interestLevel = NOT_INTERESTED))) |}.

Definition formatEndReason (endReason : string) : string :=
  let formatted :=
    Js.replacePrefix "error-" EmptyString
      (Js.replacePrefix "pipeline-error-" "Pipeline error: "
         (if String.prefix "call.in-progress." endReason
          then Js.replacePrefix "call.in-progress." EmptyString endReason
          else Js.replacePrefix "call." EmptyString endReason)) in
  Js.capitalize (Js.dashesToSpaces formatted).

Definition successReasons : list string :=
  ["customer-ended-call"; "assistant-ended-call"; "silence-timed-out";
   "assistant-said-end-call-phrase"; "assistant-said-message-too-long"].

Definition voicemailReasons : list string := ["voicemail"; "voicemail-reached"].

Definition noAnswerReasons : list string := ["no-answer"; "no-answer-voicemail"].

(** The status an [ended] update settles on, from its end reason. *)
Definition finalStatus (endReason : string) : CallStatus :=
  if existsb (String.eqb endReason) successReasons then COMPLETED
  else if existsb (Js.includes endReason) voicemailReasons then VOICEMAIL
  else if existsb (Js.includes endReason) noAnswerReasons then NO_ANSWER
  else FAILED.

(** The message an [ended] update hands to [updateStatus]. *)
Definition endedErrorMessage (finalStatus : CallStatus) (endReason : string)
  : option string :=
  match finalStatus with
  | FAILED =>
      if Js.includes endReason "sip-503"
      then Some "Service Unavailable (SIP 503) - recipient's phone service temporarily unavailable"
      else if Js.includes endReason "sip-486"
      then Some "Busy Here (SIP 486) - recipient is busy"
      else if Js.includes endReason "sip-480"
      then Some "Temporarily Unavailable (SIP 480)"
      else Some (formatEndReason endReason)
  | VOICEMAIL => Some "Call reached voicemail"
  | NO_ANSWER => Some "No answer from recipient"
  | _ => None
  end.

(** The message a [failed], [busy] or [no-answer] update hands to
    [updateStatus]. *)
Definition failedErrorMessage (status : string) (endedReason : option string)
  : string :=
  let errorMessage := "Call " ++ status in
  let errorMessage :=
    if Js.truthy endedReason
    then errorMessage ++ " - Reason: " ++ default EmptyString endedReason
    else errorMessage in
  if String.eqb status "no-answer" then "No answer from recipient"
  else if String.eqb status "busy" then "Recipient line was busy"
  else if String.eqb status "failed" && Js.truthy endedReason
  then "Call failed - " ++ default EmptyString endedReason
  else errorMessage.

(** Generates the summary of the record as it is stored now and saves it. *)
Definition summarize (cid : string) (artifact : option Artifact) : M unit :=
  do updatedCall <- callService.get cid;
  match updatedCall with
  | Some updatedCall =>
      callService.addSummary (id updatedCall)
        (generateCallSummary updatedCall artifact)
  | None => ret tt
  end.

Definition handleStatusUpdate (message : VapiMessage) : M unit :=
  if negb (Js.truthy (call message)) || negb (Js.truthy (ev_status message))
  then ret tt
  else
    let vapiCallId := default EmptyString (call message) in
    let status := default EmptyString (ev_status message) in
    do found <- callService.getByVapiCallId vapiCallId;
    match found with
    | None => ret tt
    | Some call =>
        if String.eqb status "queued"
        then callService.updateStatus (id call) CALLING None
        else if String.eqb status "ringing"
        then callService.updateStatus (id call) CALLING None
        else if String.eqb status "in-progress"
        then callService.updateStatus (id call) IN_PROGRESS None
        else if String.eqb status "ended"
        then
          let endReason := Js.orDefault (endedReason message) "completed" in
          let finalStatus := finalStatus endReason in
          (match artifact message ≫= messages with
           | Some msgs =>
               let call := setTranscript [] call in
               let call := extractTranscriptFromMessages call msgs true in
               callService.save call ;; ret tt
           | None => ret tt
           end) ;;
          let errorMessage := endedErrorMessage finalStatus endReason in
          callService.updateStatus (id call) finalStatus errorMessage ;;
          summarize (id call) (artifact message)
        else if String.eqb status "failed" || String.eqb status "busy"
                || String.eqb status "no-answer"
        then
          let finalStatus :=
            if String.eqb status "no-answer" then NO_ANSWER else FAILED in
          let errorMessage := failedErrorMessage status (endedReason message) in
          callService.updateStatus (id call) finalStatus (Some errorMessage) ;;
          summarize (id call) None
        else ret tt
    end.

Definition handleEndOfCallReport (message : VapiMessage) : M unit :=
  if negb (Js.truthy (call message)) then ret tt
  else
    let vapiCallId := default EmptyString (call message) in
    do found <- callService.getByVapiCallId vapiCallId;
    match found with
    | None => ret tt
    | Some call =>
        do call <-
          (match artifact message ≫= messages with
           | Some msgs =>
               if (length (transcript call) =? 0)%nat
               then callService.save
                      (extractTranscriptFromMessages call msgs true)
               else ret call
           | None => ret call
           end);
        when (negb (Js.isDefined (summary call))
              && (0 <? length (transcript call))%nat)
             (summarize (id call) (artifact message))
    end.

(** [message.artifact?.messages || message.messages ||
    message.conversation] *)
Definition conversationMessages (message : VapiMessage)
  : option (list ArtifactMessage) :=
  match artifact message ≫= messages with
  | Some msgs => Some msgs
  | None => match ev_messages message with
            | Some msgs => Some msgs
            | None => conversation message
            end
  end.

(** The handler of [conversation-update]; the route below does not call
    it. *)
Definition handleConversationUpdate (message : VapiMessage) : M unit :=
  if negb (Js.truthy (call message)) then ret tt
  else
    let vapiCallId := default EmptyString (call message) in
    do found <- callService.getByVapiCallId vapiCallId;
    match found with
    | None => ret tt
    | Some call =>
        let messages := conversationMessages message in
        match messages with
        | None | Some [] => ret tt
        | Some msgs =>
            let previousLength := length (transcript call) in
            let call := extractTranscriptFromMessages call msgs false in
            when (previousLength <? length (transcript call))%nat
                 (callService.save call ;; ret tt)
        end
    end.

(** The handler of [POST /webhook/vapi], past the verification hook and
    the validation of the payload. *)
Definition webhook (message : VapiMessage) : M unit :=
  if String.eqb (type message) "status-update"
  then handleStatusUpdate message
  else if String.eqb (type message) "end-of-call-report"
  then handleEndOfCallReport message
  else ret tt.

End vapiRoutes.

(** ** The call routes ([call.routes.ts]) *)

Module callRoutes.

Definition analyzeInterestLevel (transcript : string) : InterestLevel :=
  let lower := Js.toLowerCase transcript in
  if Js.includes lower "yes" || Js.includes lower "interested"
     || Js.includes lower "how much" || Js.includes lower "make an offer"
  then HOT
  else if Js.includes lower "not interested" || Js.includes lower "no thanks"
          || Js.includes lower "don't call"
  then NOT_INTERESTED
  else if Js.includes lower "maybe" || Js.includes lower "thinking about"
          || Js.includes lower "tell me more"
  then WARM
  else COLD.

Definition extractKeyPoints (call : CallEntity) : list string :=
  ((match leadData call with
    | Some l => [callService.propertyPoint l]
    | None => []
    end)
   ++ (if bool_decide (state call = QUALIFICATION)
       then ["Lead qualified - answered qualification questions"] else [])
   ++ (if bool_decide (state call = CLOSING)
       then ["Reached closing stage - discussed offer"] else [])
   ++ (if (0 <? length (transcript call))%nat
       then [("Conversation length: " ++ Js.ofNat (length (transcript call))
              ++ " messages")%string] else []))%list.

Definition determineOutcome (call : CallEntity) (interestLevel : InterestLevel)
  : string :=
  if bool_decide (status call = COMPLETED) && bool_decide (interestLevel = HOT)
  then "Lead qualified - needs offer"
  else if bool_decide (status call = COMPLETED)
          && bool_decide (interestLevel = WARM)
  then "Lead interested - needs follow-up"
  else if bool_decide (interestLevel = NOT_INTERESTED)
  then "Lead not interested"
  else if bool_decide (status call = NO_ANSWER)
  then "No answer - schedule callback"
  else if bool_decide (status call = VOICEMAIL)
  then "Voicemail left - awaiting callback"
  else "Call completed".

Definition determineNextAction (call : CallEntity)
    (interestLevel : InterestLevel) : string :=
  if bool_decide (interestLevel = HOT) then "Send offer via email"
  else if bool_decide (interestLevel = WARM) then "Schedule follow-up call"
  else if bool_decide (interestLevel = NOT_INTERESTED)
  then "Mark as do not contact"
  else if bool_decide (status call = NO_ANSWER) then "Retry call in 2 days"
  else if bool_decide (status call = VOICEMAIL)
  then "Wait for callback, retry if no response in 3 days"
  else "Review transcript".

(** [POST /calls/start] on a valid body.  [placed] is the outcome of
    [vapiService.initiateCall]: the identifier Vapi assigns, or the message
    of the error raised. *)
Definition start (uuid : string) (leadData : LeadData)
    (placed : string + string) : M unit :=
  do created <- callService.create uuid (leadPhone leadData) (Some leadData);
  match created with
  | None => ret tt
  | Some call =>
      callService.updateStatus (id call) CALLING None ;;
      match placed with
      | inl vapiId =>
          callService.save (setVapiCallId (Some vapiId) call) ;; ret tt
      | inr errorMessage =>
          callService.updateStatus (id call) FAILED
            (Some ("Failed to initiate call: " ++ errorMessage))
      end
  end.

(** [POST /calls/:id/end]; [ended] tells that [vapiService.endCall]
    returned rather than raised. *)
Definition endCall (cid : string) (ended : bool) : M unit :=
  do found <- callService.get cid;
  match found with
  | None => ret tt
  | Some call =>
      if Js.truthy (vapiCallId call) && negb ended then ret tt
      else callService.updateStatus cid COMPLETED None
  end.

(** [POST /calls/:id/generate-summary] *)
Definition generateSummary (cid : string) : M unit :=
  do found <- callService.get cid;
  match found with
  | None => ret tt
  | Some call =>
      if (length (transcript call) =? 0)%nat then ret tt
      else
        let transcriptText := Js.join " " (message <$> transcript call) in
        let interestLevel := analyzeInterestLevel transcriptText in
        let summary :=
          {| duration := 0%Q;
             outcome := determineOutcome call interestLevel;
             interestLevel := interestLevel;
             keyPoints := extractKeyPoints call;
             nextAction := Some (determineNextAction call interestLevel);
             appointmentScheduled :=
               Some (bool_decide (state call = CLOSING)
                     && negb (bool_decide (interestLevel = NOT_INTERESTED))) |} in
        callService.addSummary cid summary
  end.

(** What [GET /calls/:id/summary] answers: the report of the call and its
    summary, whose fields the answer repeats, or the error it sends with
    the status 404. *)
Inductive SummaryReply :=
| SummaryReport (callId : string) (lead : option LeadData)
    (report : CallSummary) (reportStatus : CallStatus)
| SummaryMissing (error : string).

(** [GET /calls/:id/summary] *)
Definition getSummary (cid : string) : M SummaryReply :=
  do found <- callService.get cid;
  match found with
  | None => ret (SummaryMissing "Call not found")
  | Some call =>
      match summary call with
      | None => ret (SummaryMissing "Call summary not available yet")
      | Some report =>
          ret (SummaryReport (id call) (leadData call) report (status call))
      end
  end.

End callRoutes.

(** ** The signature verifier ([webhook-verification.ts]) *)

(** A JavaScript computation that returns a value or throws. *)
Inductive Completion (A : Type) :=
| Return (a : A)
| Throw (error : string).
Arguments Return {A} a.
Arguments Throw {A} error.

Definition andThen {A B} (c : Completion A) (k : A -> Completion B)
  : Completion B :=
  match c with
  | Return a => k a
  | Throw e => Throw e
  end.

(** [try { body } catch (error) { return fallback }] *)
Definition tryCatch {A} (body : Completion A) (fallback : A) : Completion A :=
  match body with
  | Return a => Return a
  | Throw _ => Return fallback
  end.

(** [crypto.timingSafeEqual]: raises on buffers of different lengths. *)
Definition timingSafeEqual (a b : string) : Completion bool :=
  if (String.length a =? String.length b)%nat then Return (String.eqb a b)
  else Throw "ERR_CRYPTO_TIMING_SAFE_EQUAL_LENGTH".

(** What the verification hook sends when it stops a request. *)
Record HookReply := mkHookReply {
  hookStatus : Z;
  hookError : string;
  hookMessage : string
}.

Section Verification.

(** [createHmac("sha256", secret).update(payload).digest("hex")], taken as
    given; it may raise. *)
Variable hmacSha256Hex : string -> string -> Completion string.

Definition verifyVapiSignature (payload : string) (signature : option string)
    (secret : string) : Completion bool :=
  if negb (Js.truthy signature) then Return false
  else
    let signature := default EmptyString signature in
    tryCatch
      (andThen (hmacSha256Hex secret payload) (fun expectedSignature =>
         let signatureBuffer := signature in
         let expectedBuffer := expectedSignature in
         if negb (String.length signatureBuffer =? String.length expectedBuffer)%nat
         then Return false
         else timingSafeEqual signatureBuffer expectedBuffer))
      false.

(** [webhookVerificationHook]: the answer the hook sends, or [None] when
    it lets the request through to the handler.  [rawBody] is the body as
    the content-type parser kept it, [signature] the header
    [x-vapi-signature]. *)
Definition webhookVerificationHook (rawBody signature secret : option string)
  : Completion (option HookReply) :=
  if negb (Js.truthy secret) then Return None
  else if negb (Js.truthy rawBody)
  then Return (Some {| hookStatus := 500; hookError := "Internal Server Error";
                       hookMessage := "Raw body not available for verification" |})
  else
    andThen (verifyVapiSignature (default EmptyString rawBody) signature
               (default EmptyString secret))
      (fun verified =>
         if negb verified
         then Return (Some {| hookStatus := 401; hookError := "Unauthorized";
                              hookMessage := "Invalid webhook signature" |})
         else Return None).

End Verification.

(** ** The configuration ([config/index.ts]) *)

Module config.

Definition required : list string :=
  ["VAPI_API_KEY"; "VAPI_PHONE_NUMBER_ID"; "VAPI_ASSISTANT_ID"].

(** [!process.env[key] || process.env[key]?.trim() === ''] *)
Definition unset (env : gmap string string) (key : string) : bool :=
  negb (Js.truthy (env !! key))
  || String.eqb (Js.trim (default EmptyString (env !! key))) EmptyString.

Definition newline : string := String "010"%char EmptyString.

(** The cross mark that opens the message of [validateEnv], in UTF-8. *)
Definition crossMark : string :=
  String "226"%char (String "157"%char (String "140"%char EmptyString)).

(** [validateEnv]: raises when a required variable is unset or blank. *)
Definition validateEnv (env : gmap string string) : Completion unit :=
  let missing := List.filter (unset env) required in
  if (0 <? length missing)%nat
  then Throw (crossMark ++ " Missing required environment variables:" ++ newline
              ++ Js.join newline ((fun key => "  - " ++ key) <$> missing)
              ++ newline ++ newline
              ++ "Please set these variables in your .env file or environment.")
  else Return tt.

(** [config.vapi.apiKey], [config.vapi.phoneNumberId] and
    [config.vapi.assistantId] *)
Definition apiKey (env : gmap string string) : option string :=
  env !! "VAPI_API_KEY".

Definition phoneNumberId (env : gmap string string) : option string :=
  env !! "VAPI_PHONE_NUMBER_ID".

Definition assistantId (env : gmap string string) : option string :=
  env !! "VAPI_ASSISTANT_ID".

(** [config.vapi.webhookSecret] *)
Definition webhookSecret (env : gmap string string) : string :=
  Js.orDefault (env !! "VAPI_WEBHOOK_SECRET") EmptyString.

End config.

(** The check that opens the constructor of [VapiService]
    ([vapi.service.ts]). *)
Definition VapiService_constructor (env : gmap string string)
  : Completion unit :=
  if negb (Js.truthy (config.apiKey env))
  then Throw "VAPI_API_KEY is not configured"
  else Return tt.

(** ** Request validation ([call.schemas.ts]) *)

Module callSchemas.

Definition isDigit (c : ascii) : bool :=
  ((48 <=? nat_of_ascii c) && (nat_of_ascii c <=? 57))%nat.

Fixpoint allDigits (s : string) : bool :=
  match s with
  | EmptyString => true
  | String c s' => isDigit c && allDigits s'
  end.

(** [/^\+?[1-9]\d{1,14}$/] *)
Definition phoneRegex (s : string) : bool :=
  let digits := match s with
                | String "+" s' => s'
                | _ => s
                end in
  match digits with
  | String c rest =>
      isDigit c && negb (Ascii.eqb c "0") && allDigits rest
      && (1 <=? String.length rest)%nat && (String.length rest <=? 14)%nat
  | EmptyString => false
  end.

(** [phoneSchema]: the three checks of the string all pass. *)
Definition phoneSchema (s : string) : bool :=
  (10 <=? String.length s)%nat && (String.length s <=? 15)%nat && phoneRegex s.

Definition lengthBetween (lo hi : nat) (s : string) : bool :=
  ((lo <=? String.length s) && (String.length s <=? hi))%nat.

(** [leadDataSchema.parse] on a body whose fields have the types of
    [LeadData]; [None] stands for the [ZodError].  The lengths are those
    of the strings of the embedding. *)
Definition leadDataSchema (body : LeadData) : option LeadData :=
  if lengthBetween 1 100 (firstName body)
     && lengthBetween 1 100 (lastName body)
     && phoneSchema (leadPhone body)
     && lengthBetween 1 100 (county body)
     && lengthBetween 2 2 (leadState body)
     && match acreage body with
        | Some a => 0 <? a
        | None => true
        end
     && match propertyAddress body with
        | Some a => (String.length a <=? 500)%nat
        | None => true
        end
  then Some body
  else None.

End callSchemas.

(** ** The migrations ([db.service.ts]) *)

(** A JSON value, as [JSON.parse] returns it. *)
#[warnings="-register-all"] Inductive Json :=
| JNull
| JBool (b : bool)
| JNumber (z : Z)
| JString (s : string)
| JArray (items : list Json)
| JObject (fields : list (string * Json)).

Module dbService.

(** [typeof firstItem === 'string'] *)
Definition isString (j : Json) : bool :=
  match j with
  | JString _ => true
  | _ => false
  end.

(** [({role: 'user', message: text})] *)
Definition userEntry (text : Json) : Json :=
  JObject [("role", JString "user"); ("message", text)].

(** The body of the loop of the transcript migration on the column
    [transcript] of one row: the value to write back, if the row is
    converted.  [None] as the column stands for a text that [JSON.parse]
    rejects. *)
Definition convertTranscript (column : option Json) : option Json :=
  match column with
  | Some (JArray (firstItem :: rest)) =>
      if isString firstItem
      then Some (JArray (userEntry <$> firstItem :: rest))
      else None
  | _ => None
  end.

(** The transcript migration of [runMigrations] over the columns
    [transcript] of the table, by [id]: the table it leaves and
    [migratedCount]. *)
Definition migrateTranscripts (table : gmap string (option Json))
  : gmap string (option Json) * nat :=
  fold_left
    (fun acc row =>
       match convertTranscript row.2 with
       | Some newTranscript =>
           (<[row.1 := Some newTranscript]> acc.1, S acc.2)
       | None => acc
       end)
    (map_to_list table) (table, 0%nat).

End dbService.

(** ** The system as a transition system *)

(** What can happen to the table: a request on one of the routes or a
    sweep of the reaper ([app.ts]). *)
Inductive Action :=
| StartCall (uuid : string) (leadData : LeadData) (placed : string + string)
| EndCall (cid : string) (ended : bool)
| GenerateSummary (cid : string)
| Webhook (message : VapiMessage)
| Sweep (timeoutSeconds : Z).

Definition perform (a : Action) : M unit :=
  match a with
  | StartCall uuid leadData placed => callRoutes.start uuid leadData placed
  | EndCall cid ended => callRoutes.endCall cid ended
  | GenerateSummary cid => callRoutes.generateSummary cid
  | Webhook message => vapiRoutes.webhook message
  | Sweep timeoutSeconds =>
      callService.markStaleCallsAsFailed timeoutSeconds ;; ret tt
  end.

(** The world after a computation. *)
Definition exec {A} (m : M A) (w : World) : World := (m w).2.

Definition run (actions : list Action) (w : World) : World :=
  fold_left (fun w a => exec (perform a) w) actions w.

(** The worlds the system reaches from an empty table under the clock
    [clk]. *)
Inductive reachable (clk : nat -> Z) : World -> Prop :=
| reachable_init : reachable clk {| calls := ∅; clock := clk; reads := 0 |}
| reachable_step w a : reachable clk w -> reachable clk (exec (perform a) w).

(** ** Vocabulary of the properties *)

(** A string that does not begin with white space. *)
Definition startsClean (s : string) : Prop :=
  match s with
  | EmptyString => True
  | String c _ => Js.isSpace c = false
  end.

(** Two entries of a transcript are in time order when the first does not
    sort behind the second. *)
Definition inTimeOrder (a b : TranscriptMessage) : Prop :=
  vapiRoutes.sortTime a <= vapiRoutes.sortTime b.

(** The status a status update asks for, if any: the branches of
    [handleStatusUpdate], read off its signal and end reason. *)
Definition signalStatus (status : string) (endedReason : option string)
  : option CallStatus :=
  if String.eqb status "queued" then Some CALLING
  else if String.eqb status "ringing" then Some CALLING
  else if String.eqb status "in-progress" then Some IN_PROGRESS
  else if String.eqb status "ended"
  then Some (vapiRoutes.finalStatus (Js.orDefault endedReason "completed"))
  else if String.eqb status "failed" || String.eqb status "busy"
          || String.eqb status "no-answer"
  then Some (if String.eqb status "no-answer" then NO_ANSWER else FAILED)
  else None.

(** The record of [cid] as the service returns it in the world [w]. *)
Definition recordOf (cid : string) (w : World) : option CallEntity :=
  (callService.get cid w).1.

(** An empty table under the sample clock. *)
Definition emptyWorld : World :=
  {| calls := ∅; clock := fun n => Z.of_nat n + 1700000000000; reads := 0 |}.

(** An empty table under a clock whose readings are a thousand seconds
    apart. *)
Definition quietWorld : World :=
  {| calls := ∅; clock := fun n => Z.of_nat n * 1000000 + 1700000000000;
     reads := 0 |}.

(** A record is stale at [cutoffTime] when it is still [CALLING] or
    [IN_PROGRESS] and was last updated before. *)
Definition stale (cutoffTime : Z) (c : CallEntity) : Prop :=
  (status c = CALLING \/ status c = IN_PROGRESS) /\ updatedAt c < cutoffTime.

#[global] Instance stale_dec cutoffTime c : Decision (stale cutoffTime c).
Proof. unfold stale. apply _. Defined.

(** The real-time mode accepts a message on a transcript when the message
    is valid and its identifier is not among those of the transcript. *)
Definition accepts (transcript : list TranscriptMessage) (m : ArtifactMessage)
  : Prop :=
  (0 < length (vapiRoutes.validMessages [m]))%nat
  /\ vapiRoutes.messageId m ∉ (vapiRoutes.existingId <$> transcript).

#[global] Instance accepts_dec transcript m : Decision (accepts transcript m).
Proof. unfold accepts. apply _. Defined.

(** The transcript that [handleConversationUpdate] leaves for an update of
    the single message [m]: the message is appended and the transcript
    sorted when the message is accepted, nothing is written otherwise. *)
Definition merged (transcript : list TranscriptMessage) (m : ArtifactMessage)
  : list TranscriptMessage :=
  if bool_decide (accepts transcript m)
  then sort vapiRoutes.byTime (transcript ++ [vapiRoutes.entryOf m])%list
  else transcript.

(** The Vapi identifier [v] is carried by the record [cid] and by no
    other, as the [UNIQUE] constraint of the table has it. *)
Definition carriedBy (v cid : string) (w : World) : Prop :=
  (exists row, calls w !! cid = Some row /\ vapi_call_id row = Some v)
  /\ forall k r, calls w !! k = Some r -> vapi_call_id r = Some v -> k = cid.

(** The conversation state, the status and the completion time of a
    record are in step when the state is [END] exactly if the completion
    time is set, and is [END] whenever the status is [COMPLETED] or
    [FAILED]. *)
Definition lockstep (st : CallState) (s : CallStatus) (completed : option Z)
  : Prop :=
  (st = END <-> is_Some completed)
  /\ (s = COMPLETED \/ s = FAILED -> st = END).

Definition entityOK (c : CallEntity) : Prop :=
  lockstep (state c) (status c) (Js.numOrUndefined (completedAt c)).

Definition rowOK (row : CallRow) : Prop :=
  lockstep (current_state row) (row_status row)
    (Js.numOrUndefined (ended_at row)).

(** A world under the clock [clk] all of whose rows are in step. *)
Definition good (clk : nat -> Z) (w : World) : Prop :=
  clock w = clk /\ forall k row, calls w !! k = Some row -> rowOK row.

(** The summary that [POST /calls/:id/generate-summary] writes for the
    record [c]. *)
Definition manualSummary (c : CallEntity) : CallSummary :=
  let interestLevel :=
    callRoutes.analyzeInterestLevel (Js.join " " (message <$> transcript c)) in
  {| duration := 0%Q;
     outcome := callRoutes.determineOutcome c interestLevel;
     interestLevel := interestLevel;
     keyPoints := callRoutes.extractKeyPoints c;
     nextAction := Some (callRoutes.determineNextAction c interestLevel);
     appointmentScheduled :=
       Some (bool_decide (state c = CLOSING)
             && negb (bool_decide (interestLevel = NOT_INTERESTED))) |}.

(** [I] holds of every key of the table, with the row the key has or
    [None]. *)
Definition everywhere (I : string -> option CallRow -> Prop) (w : World)
  : Prop :=
  forall k, I k (calls w !! k).


(** A record is tidy when its state is [GREETING] or [END] and its
    summary, if it has one, reports no appointment. *)
Definition tidy (c : CallEntity) : Prop :=
  (state c = GREETING \/ state c = END)
  /\ forall sm, summary c = Some sm -> appointmentScheduled sm = Some false.

(** An entry of a transcript is well formed when its role is [user] or
    [bot] and its message is not empty and has no white space around. *)
Definition wellFormed (e : TranscriptMessage) : Prop :=
  (role e = "user" \/ role e = "bot")
  /\ message e <> EmptyString /\ Js.trim (message e) = message e.

(** What the transcript migration leaves in the column of a row. *)
Definition migratedColumn (column : option Json) : option Json :=
  match dbService.convertTranscript column with
  | Some newTranscript => Some newTranscript
  | None => column
  end.

(** Hoare triples of the state monad. *)
Definition hoare {A} (P : World -> Prop) (m : M A) (Q : A -> World -> Prop)
  : Prop :=
  forall w, P w -> Q (m w).1 (m w).2.

(** ** Sample data *)

Definition sampleClock (n : nat) : Z := Z.of_nat n + 1700000000000.

(** A row of the lead Ada Byron, called under the Vapi identifier [v1]. *)
Definition sampleRow (s : CallStatus) (st : CallState)
    (tr : list TranscriptMessage) (sm : option CallSummary)
    (updated : Z) : CallRow :=
  {| vapi_call_id := Some "v1";
     lead_first_name := "Ada"; lead_last_name := "Byron";
     lead_phone := "+15551234567"; lead_county := "Travis"; lead_state := "TX";
     lead_acreage := Some 5; lead_property_address := None;
     row_status := s; current_state := st; row_transcript := tr;
     row_summary := sm; error_message := None;
     created_at := 1699999000000; updated_at := updated;
     started_at := Some 1699999100000; ended_at := None |}.

Definition sampleWorld (rows : list (string * CallRow)) : World :=
  {| calls := list_to_map rows; clock := sampleClock; reads := 0 |}.

(** A [status-update] webhook for the call [v1]. *)
Definition statusUpdate (status : string) (endedReason : option string)
    (messages : option (list ArtifactMessage)) : VapiMessage :=
  {| type := "status-update"; ev_status := Some status;
     endedReason := endedReason;
     artifact := match messages with
                 | Some msgs => Some {| messages := Some msgs; recordingUrl := None |}
                 | None => None
                 end;
     call := Some "v1"; ev_messages := None; conversation := None |}.

(** An [end-of-call-report] webhook for the call [v1]. *)
Definition endOfCallReport (messages : list ArtifactMessage) : VapiMessage :=
  {| type := "end-of-call-report"; ev_status := None; endedReason := None;
     artifact := Some {| messages := Some messages; recordingUrl := None |};
     call := Some "v1"; ev_messages := None; conversation := None |}.

(** A [conversation-update] webhook for the call [v1]. *)
Definition conversationUpdate (messages : list ArtifactMessage) : VapiMessage :=
  {| type := "conversation-update"; ev_status := None; endedReason := None;
     artifact := None; call := Some "v1"; ev_messages := Some messages;
     conversation := None |}.

Definition said (role text : string) (time secondsFromStart : option Z)
  : ArtifactMessage :=
  {| m_role := role; m_message := Some text; m_content := None;
     m_time := time; m_endTime := None; m_secondsFromStart := secondsFromStart |}.

Definition entry (role text : string) (time secondsFromStart : option Z)
  : TranscriptMessage :=
  {| role := role; message := text; time := time;
     secondsFromStart := secondsFromStart |}.

(** * Properties *)

(** Reduction that keeps the conversions of falsy values folded. *)
Ltac norm_cbn :=
  cbn -[Js.orDefault Js.numOrUndefined Js.strOrUndefined Js.truthy].


(** ** Strings *)

Section StringFacts.

Lemma append_cons (x : ascii) (a b : string) :
  String x a ++ b = String x (a ++ b).
Proof. reflexivity. Qed.

Lemma append_assoc (a b c : string) : (a ++ b) ++ c = a ++ (b ++ c).
Proof.
  induction a as [|x a IH]; [reflexivity|].
  now rewrite !append_cons, IH.
Qed.

Lemma prefix_append (p r : string) : String.prefix p (p ++ r) = true.
Proof.
  induction p as [|x p IH].
  - now destruct r.
  - rewrite append_cons. simpl.
    destruct (ascii_dec x x) as [_|N]; [exact IH | now destruct N].
Qed.

Lemma prefix_split (p s : string) :
  String.prefix p s = true -> exists r, s = p ++ r.
Proof.
  revert s; induction p as [|x p IH]; intros s H.
  - now exists s.
  - destruct s as [|y s]; simpl in H; [discriminate|].
    destruct (ascii_dec x y) as [->|_]; [|discriminate].
    destruct (IH s H) as [r ->]. now exists r.
Qed.

Lemma includes_prefix (s sub : string) :
  String.prefix sub s = true -> Js.includes s sub = true.
Proof. intros H. destruct s; cbn [Js.includes]; now rewrite H. Qed.

Lemma includes_intro (pre sub post : string) :
  Js.includes (pre ++ sub ++ post) sub = true.
Proof.
  induction pre as [|x pre IH].
  - apply includes_prefix. exact (prefix_append sub post).
  - rewrite append_cons.
    cbn [Js.includes]. rewrite IH. now destruct (String.prefix sub _).
Qed.

Lemma includes_elim (s sub : string) :
  Js.includes s sub = true -> exists pre post, s = pre ++ sub ++ post.
Proof.
  induction s as [|x s IH]; cbn [Js.includes].
  - destruct (String.prefix sub EmptyString) eqn:E; [|discriminate].
    intros _. destruct (prefix_split _ _ E) as [r Hr]. now exists EmptyString, r.
  - destruct (String.prefix sub (String x s)) eqn:E.
    + intros _. destruct (prefix_split _ _ E) as [r Hr]. now exists EmptyString, r.
    + intros H. destruct (IH H) as (pre & post & ->).
      now exists (String x pre), post.
Qed.

(** A string that includes [a ++ b] includes [b]. *)
Lemma includes_tail (s a b : string) :
  Js.includes s (a ++ b) = true -> Js.includes s b = true.
Proof.
  intros H. destruct (includes_elim _ _ H) as (pre & post & ->).
  rewrite append_assoc, <- (append_assoc pre a). apply includes_intro.
Qed.

Lemma trimEnd_idempotent (s : string) : Js.trimEnd (Js.trimEnd s) = Js.trimEnd s.
Proof.
  induction s as [|c s IH]; [reflexivity|].
  simpl. destruct (Js.trimEnd s) as [|d r] eqn:E.
  - destruct (Js.isSpace c) eqn:Ec; simpl; [reflexivity | now rewrite Ec].
  - simpl in IH |- *. now rewrite IH.
Qed.

Lemma trimStart_clean (s : string) : startsClean (Js.trimStart s).
Proof.
  induction s as [|c s IH]; simpl; [exact I|].
  destruct (Js.isSpace c) eqn:E; [exact IH | exact E].
Qed.

Lemma trimStart_of_clean (s : string) : startsClean s -> Js.trimStart s = s.
Proof. destruct s as [|c s]; simpl; [reflexivity | now intros ->]. Qed.

Lemma trimEnd_clean (s : string) : startsClean s -> startsClean (Js.trimEnd s).
Proof.
  destruct s as [|c s]; simpl; [trivial|]. intros E.
  destruct (Js.trimEnd s); [rewrite E|]; exact E.
Qed.

Lemma trim_idempotent (s : string) : Js.trim (Js.trim s) = Js.trim s.
Proof.
  unfold Js.trim.
  rewrite (trimStart_of_clean (Js.trimEnd (Js.trimStart s))).
  - apply trimEnd_idempotent.
  - apply trimEnd_clean, trimStart_clean.
Qed.

End StringFacts.

(** ** The outcome classifier *)

(** C3.  A transcript whose text contains the disinterest marker
    "not interested" is classified [HOT], not [NOT_INTERESTED], by the
    classifier of the webhook routes, by the one of the call routes and by
    the basic summary of the reaper: each of them tests the [HOT] markers
    first, and "interested" is among them. *)
Theorem not_interested_classified_HOT (call : CallEntity) (artifact : option Artifact) :
  Js.includes (Js.toLowerCase (Js.join " " (message <$> transcript call)))
              "not interested" = true ->
  vapiRoutes.analyzeInterestLevel (Js.join " " (message <$> transcript call)) = HOT
  /\ callRoutes.analyzeInterestLevel (Js.join " " (message <$> transcript call)) = HOT
  /\ interestLevel (vapiRoutes.generateCallSummary call artifact) = HOT
  /\ interestLevel (callService.generateBasicSummary call) = HOT.
Proof.
  intros H.
  assert (Hi : Js.includes (Js.toLowerCase (Js.join " " (message <$> transcript call)))
                           "interested" = true)
    by exact (includes_tail _ "not " "interested" H).
  unfold vapiRoutes.generateCallSummary, callService.generateBasicSummary,
    vapiRoutes.analyzeInterestLevel, callRoutes.analyzeInterestLevel,
    callService.basicInterestLevel; simpl.
  rewrite Hi. rewrite !orb_true_r. simpl. auto.
Qed.

Lemma not_interested_classified_HOT_witness :
  let call := {| id := "c1"; phone := "+15551234567"; state := GREETING;
                 status := IN_PROGRESS;
                 transcript := [ {| role := "user";
                                    message := "No, I'm not interested";
                                    time := None; secondsFromStart := None |} ];
                 leadData := None; summary := None; vapiCallId := Some "v1";
                 errorMessage := None; startedAt := None; completedAt := None;
                 createdAt := 1; updatedAt := 1 |} in
  vapiRoutes.analyzeInterestLevel (Js.join " " (message <$> transcript call)) = HOT
  /\ callRoutes.analyzeInterestLevel (Js.join " " (message <$> transcript call)) = HOT
  /\ interestLevel (vapiRoutes.generateCallSummary call None) = HOT
  /\ interestLevel (callService.generateBasicSummary call) = HOT.
Proof.
  intros call. apply (not_interested_classified_HOT call None). reflexivity.
Defined.

(** ** The signature verifier *)

(** C10.  [verifyVapiSignature] returns a boolean for every payload,
    claimed signature and secret, whatever the HMAC primitive does, and
    never throws; a missing or empty signature, a signature whose length
    differs from that of the expected digest, and an exception of the
    primitive all give [false]; only the expected digest itself verifies. *)
Theorem verifyVapiSignature_total
    (hmac : string -> string -> Completion string)
    (payload : string) (signature : option string) (secret : string) :
  (exists b, verifyVapiSignature hmac payload signature secret = Return b)
  /\ (Js.truthy signature = false ->
      verifyVapiSignature hmac payload signature secret = Return false)
  /\ (forall s expected,
        signature = Some s -> hmac secret payload = Return expected ->
        String.length s <> String.length expected ->
        verifyVapiSignature hmac payload signature secret = Return false)
  /\ (forall e, hmac secret payload = Throw e ->
        verifyVapiSignature hmac payload signature secret = Return false)
  /\ (verifyVapiSignature hmac payload signature secret = Return true ->
      exists s, signature = Some s /\ hmac secret payload = Return s).
Proof.
  unfold verifyVapiSignature, timingSafeEqual.
  destruct (Js.truthy signature) eqn:Ht; simpl.
  2: { repeat split; eauto; try discriminate. }
  destruct signature as [s|]; [|discriminate]. simpl.
  destruct (hmac secret payload) as [expected|err] eqn:Eh; simpl.
  - destruct (Nat.eqb_spec (String.length s) (String.length expected)) as [El|Nl];
      simpl.
    + repeat split; eauto; try discriminate.
      * intros s' x [= <-] [= <-] N. now destruct N.
      * intros [= E]. apply String.eqb_eq in E. subst. eauto.
    + repeat split; eauto; discriminate.
  - repeat split; eauto; discriminate.
Qed.

Lemma verifyVapiSignature_total_witness :
  let hmac := fun (secret payload : string) =>
                if String.eqb secret EmptyString then Throw "ERR_CRYPTO_INVALID_KEYLEN"
                else Return "5d41402abc4b2a76b9719d911017c592" in
  verifyVapiSignature hmac "{}" (Some "5d41402abc4b2a76b9719d911017c59") "k"
    = Return false
  /\ verifyVapiSignature hmac "{}" (Some "abc") EmptyString = Return false
  /\ verifyVapiSignature hmac "{}" None "k" = Return false.
Proof.
  intros hmac. split; [|split].
  - apply (proj1 (proj2 (proj2
      (verifyVapiSignature_total hmac "{}"
         (Some "5d41402abc4b2a76b9719d911017c59") "k")))
      "5d41402abc4b2a76b9719d911017c59" "5d41402abc4b2a76b9719d911017c592");
      [reflexivity | reflexivity | simpl; lia].
  - apply (proj1 (proj2 (proj2 (proj2
      (verifyVapiSignature_total hmac "{}" (Some "abc") EmptyString))))
      "ERR_CRYPTO_INVALID_KEYLEN"). reflexivity.
  - apply (proj1 (proj2 (verifyVapiSignature_total hmac "{}" None "k"))).
    reflexivity.
Defined.

(** ** Sorting a transcript *)

Section Sorting.

Local Open Scope list_scope.

Implicit Types (x y : TranscriptMessage) (l : list TranscriptMessage).

Lemma insertSorted_perm {A} (cmp : A -> A -> Z) (a : A) (l : list A) :
  insertSorted cmp a l ≡ₚ a :: l.
Proof.
  induction l as [|b l IH]; simpl; [reflexivity|].
  destruct (0 <? cmp b a); [reflexivity|].
  rewrite IH. apply Permutation_swap.
Qed.

Lemma sort_snoc {A} (cmp : A -> A -> Z) (l : list A) (a : A) :
  sort cmp (l ++ [a]) = insertSorted cmp a (sort cmp l).
Proof. unfold sort. now rewrite fold_left_app. Qed.

Lemma sort_perm {A} (cmp : A -> A -> Z) (l : list A) : sort cmp l ≡ₚ l.
Proof.
  induction l as [|a l IH] using rev_ind; [reflexivity|].
  rewrite sort_snoc, insertSorted_perm, IH.
  apply Permutation_cons_append.
Qed.

Lemma insertSorted_sorted x l :
  StronglySorted inTimeOrder l ->
  StronglySorted inTimeOrder (insertSorted vapiRoutes.byTime x l).
Proof.
  induction 1 as [|y l Hs IH Hall]; simpl.
  - repeat constructor.
  - unfold vapiRoutes.byTime at 1. destruct (Z.ltb_spec 0 (vapiRoutes.sortTime y - vapiRoutes.sortTime x)).
    + constructor; [now constructor|].
      constructor; [unfold inTimeOrder; lia|].
      eapply Forall_impl; [exact Hall|]. unfold inTimeOrder. intros; lia.
    + constructor; [exact IH|].
      rewrite insertSorted_perm. constructor; [unfold inTimeOrder; lia | exact Hall].
Qed.

Lemma sort_sorted l : StronglySorted inTimeOrder (sort vapiRoutes.byTime l).
Proof.
  induction l as [|x l IH] using rev_ind; [constructor|].
  rewrite sort_snoc. now apply insertSorted_sorted.
Qed.

(** An entry that sorts behind none of a list goes to its end. *)
Lemma insertSorted_end x l :
  Forall (fun y => inTimeOrder y x) l ->
  insertSorted vapiRoutes.byTime x l = l ++ [x].
Proof.
  induction 1 as [|y l Hy _ IH]; simpl; [reflexivity|].
  unfold vapiRoutes.byTime at 1. unfold inTimeOrder in Hy.
  destruct (Z.ltb_spec 0 (vapiRoutes.sortTime y - vapiRoutes.sortTime x));
    [lia | now rewrite IH].
Qed.

Lemma sort_of_sorted l :
  StronglySorted inTimeOrder l -> sort vapiRoutes.byTime l = l.
Proof.
  induction l as [|x l IH] using rev_ind; [reflexivity|]. intros Hs.
  rewrite sort_snoc, IH by (eapply StronglySorted_app_1_l; exact Hs).
  apply insertSorted_end, Forall_forall. intros y Hy.
  eapply StronglySorted_app_1_elem_of; [exact Hs | exact Hy | left].
Qed.

Lemma sort_idempotent l :
  sort vapiRoutes.byTime (sort vapiRoutes.byTime l) = sort vapiRoutes.byTime l.
Proof. apply sort_of_sorted, sort_sorted. Qed.

(** Entries with different times find their places independently. *)
Lemma insertSorted_comm x y l :
  vapiRoutes.sortTime x <> vapiRoutes.sortTime y ->
  insertSorted vapiRoutes.byTime x (insertSorted vapiRoutes.byTime y l)
  = insertSorted vapiRoutes.byTime y (insertSorted vapiRoutes.byTime x l).
Proof.
  intros Hne. induction l as [|z l IH]; simpl; unfold vapiRoutes.byTime in *.
  - destruct (Z.ltb_spec 0 (vapiRoutes.sortTime y - vapiRoutes.sortTime x)),
             (Z.ltb_spec 0 (vapiRoutes.sortTime x - vapiRoutes.sortTime y));
      try reflexivity; lia.
  - destruct (Z.ltb_spec 0 (vapiRoutes.sortTime z - vapiRoutes.sortTime y)),
             (Z.ltb_spec 0 (vapiRoutes.sortTime z - vapiRoutes.sortTime x));
      simpl;
      repeat match goal with
             | |- context [0 <? ?a - ?b] => destruct (Z.ltb_spec 0 (a - b))
             end;
      try reflexivity; try lia.
    now rewrite IH.
Qed.

End Sorting.

(** ** Running the service *)

Section Service.

Implicit Types (w : World) (cid : string) (row : CallRow) (c : CallEntity).

Lemma get_run cid w :
  callService.get cid w = (rowToCall cid <$> calls w !! cid, w).
Proof. reflexivity. Qed.

Lemma exec_bind {A B} (m : M A) (k : A -> M B) w :
  exec (bind m k) w = exec (k (m w).1) (exec m w).
Proof. unfold exec, bind. now destruct (m w). Qed.

Lemma recordOf_lookup cid w :
  recordOf cid w = rowToCall cid <$> calls w !! cid.
Proof. reflexivity. Qed.

Lemma getByVapiCallId_found v w c w' :
  callService.getByVapiCallId v w = (Some c, w') ->
  w' = w /\ exists row, calls w !! id c = Some row /\ c = rowToCall (id c) row
                        /\ vapi_call_id row = Some v.
Proof.
  unfold callService.getByVapiCallId, selectByVapiCallId, bind, ret.
  destruct (filter _ (map_to_list (calls w))) as [|[k row] l] eqn:E; simpl;
    [discriminate|].
  intros [= <- <-]. split; [reflexivity|].
  assert (Hin : (k, row) ∈ filter (fun kv : string * CallRow =>
                   vapi_call_id kv.2 = Some v) (map_to_list (calls w)))
    by (rewrite E; left).
  apply list_elem_of_filter in Hin as [Hv Hin].
  apply elem_of_map_to_list in Hin. exists row; simpl. auto.
Qed.

Lemma getByVapiCallId_world v w :
  exec (callService.getByVapiCallId v) w = w.
Proof. reflexivity. Qed.

Lemma save_run c w row :
  calls w !! id c = Some row ->
  callService.save c w
  = (setUpdatedAt (clock w (reads w)) c,
     {| calls := <[id c := callToRow (setUpdatedAt (clock w (reads w)) c)]> (calls w);
        clock := clock w; reads := S (reads w) |}).
Proof.
  intros H. unfold callService.save, updateRow, newDate, bind, ret; simpl.
  now rewrite H.
Qed.

Lemma not_defined_true {A} (o : option A) :
  negb (Js.isDefined o) = true <-> o = None.
Proof. destruct o; simpl; split; congruence. Qed.

Lemma start_condition s (o : option Z) :
  bool_decide (s = IN_PROGRESS) && negb (Js.isDefined o) = true
  <-> s = IN_PROGRESS /\ o = None.
Proof.
  rewrite andb_true_iff, bool_decide_eq_true, not_defined_true. reflexivity.
Qed.

Lemma completion_condition s (o : option Z) :
  (bool_decide (s = COMPLETED) || bool_decide (s = FAILED))
  && negb (Js.isDefined o) = true
  <-> (s = COMPLETED \/ s = FAILED) /\ o = None.
Proof.
  rewrite andb_true_iff, orb_true_iff, !bool_decide_eq_true, not_defined_true.
  reflexivity.
Qed.

(** What [updateStatus] does to an existing record: the entity it writes
    back, field by field, from the entity [c0] it fetched. *)
Lemma updateStatus_run cid s e w row :
  calls w !! cid = Some row ->
  let c0 := rowToCall cid row in
  exists st' err' started' completed' upd' n',
    callService.updateStatus cid s e w
    = (tt, {| calls := <[cid := callToRow
                (mkCallEntity cid (phone c0) st' s (transcript c0) (leadData c0)
                   (summary c0) (vapiCallId c0) err' started' completed'
                   (createdAt c0) upd')]> (calls w);
              clock := clock w; reads := n' |})
    /\ err' = (if bool_decide (s = FAILED) && Js.truthy e then e
               else errorMessage c0)
    /\ ((s = IN_PROGRESS /\ startedAt c0 = None
         /\ exists k, started' = Some (clock w k))
        \/ (~ (s = IN_PROGRESS /\ startedAt c0 = None)
            /\ started' = startedAt c0))
    /\ (((s = COMPLETED \/ s = FAILED) /\ completedAt c0 = None
         /\ st' = END /\ exists k, completed' = Some (clock w k))
        \/ (~ ((s = COMPLETED \/ s = FAILED) /\ completedAt c0 = None)
            /\ st' = state c0 /\ completed' = completedAt c0)).
Proof.
  intros H c0.
  unfold callService.updateStatus. unfold bind at 1. rewrite get_run, H.
  cbn [fmap option_fmap option_map]. fold c0.
  unfold bind at 1. unfold newDate at 1. cbn [fst snd].
  destruct (bool_decide (s = IN_PROGRESS)
            && negb (Js.isDefined (startedAt (setUpdatedAt (clock w (reads w))
                                               (setStatus s c0))))) eqn:E1;
  destruct ((bool_decide (s = COMPLETED) || bool_decide (s = FAILED))
            && negb (Js.isDefined (completedAt c0))) eqn:E2.
  all: unfold bind, ret, newDate; cbn -[callService.save callToRow rowToCall c0].
  all: try rewrite E2; cbn -[callService.save callToRow rowToCall c0].
  all: destruct (bool_decide (s = FAILED) && Js.truthy e) eqn:E3.
  all: erewrite save_run by (cbn; exact H).
  all: do 6 eexists; split; [reflexivity|].
  all: split; [reflexivity|].
  all: change (startedAt (setUpdatedAt (clock w (reads w)) (setStatus s c0)))
         with (startedAt c0) in E1.
  all: split;
    [ first [ apply start_condition in E1; left; destruct E1; eauto
            | right; split; [rewrite <- start_condition, E1; discriminate
                            | reflexivity] ]
    | first [ apply completion_condition in E2; left; destruct E2; eauto
            | right; split; [rewrite <- completion_condition, E2; discriminate
                            | split; reflexivity] ] ].
Qed.

Lemma addSummary_run cid sm w row :
  calls w !! cid = Some row ->
  exists upd' n',
    callService.addSummary cid sm w
    = (tt, {| calls := <[cid := callToRow (setUpdatedAt upd'
                          (setSummary (Some sm) (rowToCall cid row)))]> (calls w);
              clock := clock w; reads := n' |}).
Proof.
  intros H. unfold callService.addSummary. unfold bind at 1.
  rewrite get_run, H. cbn [fmap option_fmap option_map].
  unfold bind at 1. unfold newDate at 1. unfold bind at 1.
  erewrite save_run by (cbn; exact H). unfold ret. eauto.
Qed.

Lemma summarize_run cid artifact w row :
  calls w !! cid = Some row ->
  let u := rowToCall cid row in
  exists upd' n',
    vapiRoutes.summarize cid artifact w
    = (tt, {| calls := <[cid := callToRow (setUpdatedAt upd'
                (setSummary (Some (vapiRoutes.generateCallSummary u artifact)) u))]>
                (calls w);
              clock := clock w; reads := n' |}).
Proof.
  intros H u. unfold vapiRoutes.summarize. unfold bind at 1.
  rewrite get_run, H. cbn [fmap option_fmap option_map].
  change (id (rowToCall cid row)) with cid. fold u.
  destruct (addSummary_run cid (vapiRoutes.generateCallSummary u artifact) w row H)
    as (upd' & n' & ->). eauto.
Qed.

(** The conversions between rows and entities drop falsy values; doing so
    twice is doing so once. *)
Lemma strOrUndefined_idem (o : option string) :
  Js.strOrUndefined (Js.strOrUndefined o) = Js.strOrUndefined o.
Proof.
  unfold Js.strOrUndefined. destruct (Js.truthy o) eqn:E; [now rewrite E|].
  reflexivity.
Qed.

Lemma numOrUndefined_idem (o : option Z) :
  Js.numOrUndefined (Js.numOrUndefined o) = Js.numOrUndefined o.
Proof.
  unfold Js.numOrUndefined. destruct (Js.truthyNum o) eqn:E; [now rewrite E|].
  reflexivity.
Qed.

Lemma orDefault_idem (o : option string) (d : string) :
  Js.orDefault (Some (Js.orDefault o d)) d = Js.orDefault o d.
Proof.
  unfold Js.orDefault. destruct o as [s|].
  - destruct (String.eqb s EmptyString) eqn:E; [|now rewrite E].
    destruct (String.eqb d EmptyString); reflexivity.
  - destruct (String.eqb d EmptyString); reflexivity.
Qed.

Lemma strOrUndefined_truthy (o : option string) :
  Js.truthy o = true -> Js.strOrUndefined o = o.
Proof. unfold Js.strOrUndefined. now intros ->. Qed.

Lemma numOrUndefined_nonzero (t : Z) : t <> 0 -> Js.numOrUndefined (Some t) = Some t.
Proof.
  intros H. unfold Js.numOrUndefined, Js.truthyNum.
  destruct (Z.eqb_spec t 0); [contradiction | reflexivity].
Qed.

Lemma leadData_view_idem cid cid' (x : CallEntity) :
  leadData (rowToCall cid (callToRow (rowToCall cid' (callToRow x))))
  = leadData (rowToCall cid' (callToRow x)).
Proof.
  unfold rowToCall, callToRow; norm_cbn.
  now rewrite !orDefault_idem, !numOrUndefined_idem, !strOrUndefined_idem.
Qed.

Lemma leadData_view_ext cid cid' (x y : CallEntity) :
  phone x = phone y -> leadData x = leadData y ->
  leadData (rowToCall cid (callToRow x)) = leadData (rowToCall cid' (callToRow y)).
Proof. intros Hp Hl. unfold rowToCall, callToRow; norm_cbn. now rewrite Hp, Hl. Qed.

Lemma view_of_saved cid ph st s tr ld sm vid err sta com cre upd :
  rowToCall cid (callToRow (mkCallEntity cid ph st s tr ld sm vid err sta com cre upd))
  = mkCallEntity cid ph st s tr
      (leadData (rowToCall cid
         (callToRow (mkCallEntity cid ph st s tr ld sm vid err sta com cre upd))))
      sm (Js.strOrUndefined (Js.strOrUndefined vid))
      (Js.strOrUndefined (Js.strOrUndefined err))
      (Js.numOrUndefined sta) (Js.numOrUndefined com) cre upd.
Proof. reflexivity. Qed.

(** The statuses an [ended] update settles on. *)
Lemma finalStatus_cases (r : string) :
  vapiRoutes.finalStatus r = COMPLETED \/ vapiRoutes.finalStatus r = VOICEMAIL
  \/ vapiRoutes.finalStatus r = NO_ANSWER \/ vapiRoutes.finalStatus r = FAILED.
Proof.
  unfold vapiRoutes.finalStatus.
  repeat match goal with |- context [if ?b then _ else _] => destruct b end; auto.
Qed.

Lemma endedErrorMessage_truthy (r : string) :
  let e := vapiRoutes.endedErrorMessage FAILED r in
  Js.truthy e = true -> Js.strOrUndefined e = e.
Proof. intros e. apply strOrUndefined_truthy. Qed.

(** The record after an [ended] status update: the entity [u] that the
    summary is generated from, and the row written last. *)
Lemma ended_run msg v w cid row :
  call msg = Some v -> Js.truthy (call msg) = true ->
  ev_status msg = Some "ended" ->
  calls w !! cid = Some row ->
  callService.getByVapiCallId v w = (Some (rowToCall cid row), w) ->
  let c := rowToCall cid row in
  let endReason := Js.orDefault (endedReason msg) "completed" in
  let fs := vapiRoutes.finalStatus endReason in
  let e := vapiRoutes.endedErrorMessage fs endReason in
  let T := match artifact msg ≫= messages with
           | Some msgs => sort vapiRoutes.byTime
                            (vapiRoutes.entryOf <$> vapiRoutes.validMessages msgs)
           | None => transcript c
           end in
  exists st' completed' upd1 upd2 n',
    let u := mkCallEntity cid (phone c) st' fs T
               (leadData (rowToCall cid (callToRow c))) (summary c)
               (vapiCallId c)
               (if bool_decide (fs = FAILED) && Js.truthy e then e
                else errorMessage c)
               (startedAt c) completed' (createdAt c) upd1 in
    vapiRoutes.handleStatusUpdate msg w
    = (tt, {| calls := <[cid := callToRow (setUpdatedAt upd2
                (setSummary (Some (vapiRoutes.generateCallSummary u (artifact msg)))
                   u))]> (calls w);
              clock := clock w; reads := n' |})
    /\ (((fs = COMPLETED \/ fs = FAILED) /\ completedAt c = None /\ st' = END
         /\ exists k, completed' = Js.numOrUndefined (Some (clock w k)))
        \/ (~ ((fs = COMPLETED \/ fs = FAILED) /\ completedAt c = None)
            /\ st' = state c /\ completed' = completedAt c)).
Proof.
  intros Hv Ht Hs Hrow Hfound c endReason fs e T.
  unfold vapiRoutes.handleStatusUpdate.
  rewrite Ht, Hs, Hv.
  change (default EmptyString (Some v)) with v.
  change (default EmptyString (Some "ended")) with "ended".
  change (Js.truthy (Some "ended")) with true.
  cbn [negb orb].
  unfold bind at 1. rewrite Hfound.
  change (String.eqb "ended" "queued") with false.
  change (String.eqb "ended" "ringing") with false.
  change (String.eqb "ended" "in-progress") with false.
  change (String.eqb "ended" "ended") with true.
  cbv iota. fold endReason. fold fs. fold e. fold c.
  change (id c) with cid.
  (* the transcript is replaced, or the record is left as it is *)
  assert (H1 : exists w1 row1,
             (match artifact msg ≫= messages with
              | Some msgs =>
                  callService.save
                    (vapiRoutes.extractTranscriptFromMessages
                       (setTranscript [] c) msgs true) ;; ret tt
              | None => ret tt
              end) w = (tt, w1)
             /\ calls w1 !! cid = Some row1
             /\ <[cid := row1]> (calls w) = calls w1 /\ clock w1 = clock w
             /\ (fun c0 =>
                   phone c0 = phone c /\ state c0 = state c
                   /\ transcript c0 = T /\ summary c0 = summary c
                   /\ vapiCallId c0 = vapiCallId c
                   /\ errorMessage c0 = errorMessage c
                   /\ startedAt c0 = startedAt c
                   /\ completedAt c0 = completedAt c
                   /\ createdAt c0 = createdAt c
                   /\ leadData (rowToCall cid (callToRow c0))
                      = leadData (rowToCall cid (callToRow c)))
                  (rowToCall cid row1)).
  { subst T. destruct (artifact msg ≫= messages) as [msgs|].
    - unfold bind at 1. erewrite save_run by (cbn; exact Hrow).
      eexists _, _. split; [reflexivity|]. cbn [calls clock].
      split; [apply lookup_insert_eq|]. split; [reflexivity|].
      split; [reflexivity|].
      subst c; unfold rowToCall, callToRow; norm_cbn.
      rewrite !strOrUndefined_idem, !numOrUndefined_idem, !orDefault_idem.
      repeat split; reflexivity.
    - exists w, row. split; [reflexivity|]. split; [exact Hrow|].
      split; [now apply insert_id|]. split; [reflexivity|].
      repeat split; reflexivity. }
  destruct H1 as (w1 & row1 & Hrun1 & Hrow1 & Hcalls1 & Hclock1 & Hf).
  cbv beta in Hf.
  destruct Hf as (Hph & Hstate & Htr & Hsum & Hvid & Herr & Hsta & Hcom & Hcre & Hlead).
  unfold bind at 1. rewrite Hrun1.
  destruct (updateStatus_run cid fs e w1 row1 Hrow1)
    as (st' & err' & started' & completed' & upd' & n' & Hrun2 & Herr' & Hst' & Hco').
  cbv zeta in Hrun2. unfold bind at 1. rewrite Hrun2.
  match goal with |- context [<[cid := callToRow ?X']> (calls w1)] =>
    set (X := X') in * end.
  match type of Hrun2 with _ = (_, ?w') => set (w2 := w') in * end.
  destruct (summarize_run cid (artifact msg) w2 (callToRow X))
    as (upd2 & n2 & Hrun3); [apply lookup_insert_eq|].
  cbv zeta in Hrun3. rewrite Hrun3. clear Hrun3 Hrun2.
  exists st', (Js.numOrUndefined completed'), upd', upd2, n2.
  cbv zeta.
  assert (Hu : rowToCall cid (callToRow X)
               = mkCallEntity cid (phone c) st' fs T
                   (leadData (rowToCall cid (callToRow c))) (summary c)
                   (vapiCallId c)
                   (if bool_decide (fs = FAILED) && Js.truthy e then e
                    else errorMessage c)
                   (startedAt c) (Js.numOrUndefined completed') (createdAt c) upd').
  { subst X. rewrite view_of_saved.
    match goal with |- context [leadData (rowToCall cid (callToRow ?x))] =>
      rewrite (leadData_view_ext cid cid x (rowToCall cid row1) eq_refl eq_refl)
    end.
    rewrite Hlead, Hph, Hsum, Htr, Hcre, Hvid. f_equal.
    - subst c. norm_cbn. now rewrite !strOrUndefined_idem.
    - rewrite Herr'. destruct (bool_decide (fs = FAILED) && Js.truthy e) eqn:Ec.
      + apply andb_true_iff in Ec as [_ Ec].
        now rewrite !(strOrUndefined_truthy e Ec).
      + rewrite Herr. subst c. norm_cbn. now rewrite !strOrUndefined_idem.
    - destruct Hst' as [(Hfs & _) | (_ & ->)].
      + destruct (finalStatus_cases endReason) as [F|[F|[F|F]]];
          fold fs in F; congruence.
      + rewrite Hsta. subst c. norm_cbn. now rewrite numOrUndefined_idem. }
  rewrite Hu. split.
  - subst w2. cbn [calls clock reads]. rewrite Hclock1.
    rewrite insert_insert_eq, <- Hcalls1, insert_insert_eq. reflexivity.
  - rewrite Hclock1 in Hco'. rewrite Hcom, Hstate in Hco'.
    destruct Hco' as [(Hc1 & Hc2 & Hc3 & k & Hc4) | (Hc1 & Hc2 & Hc3)].
    + left. subst completed'. eauto 10.
    + right. split; [exact Hc1|]. split; [exact Hc2|].
      rewrite Hc3. subst c. norm_cbn. now rewrite numOrUndefined_idem.
Qed.

(** The same, as the service returns the record afterwards. *)
Lemma ended_view msg v w c :
  call msg = Some v -> v <> EmptyString ->
  ev_status msg = Some "ended" ->
  callService.getByVapiCallId v w = (Some c, w) ->
  let endReason := Js.orDefault (endedReason msg) "completed" in
  let fs := vapiRoutes.finalStatus endReason in
  let e := vapiRoutes.endedErrorMessage fs endReason in
  let T := match artifact msg ≫= messages with
           | Some msgs => sort vapiRoutes.byTime
                            (vapiRoutes.entryOf <$> vapiRoutes.validMessages msgs)
           | None => transcript c
           end in
  exists c' upd1,
    recordOf (id c) (exec (vapiRoutes.handleStatusUpdate msg) w)
    = Some c'
    /\ status c' = fs /\ transcript c' = T
    /\ errorMessage c' = (if bool_decide (fs = FAILED) && Js.truthy e then e
                          else errorMessage c)
    /\ startedAt c' = startedAt c
    /\ phone c' = phone c
    /\ leadData c' = leadData (rowToCall (id c) (callToRow c))
    /\ summary c' = Some (vapiRoutes.generateCallSummary
          (mkCallEntity (id c) (phone c) (state c') fs T
             (leadData (rowToCall (id c) (callToRow c))) (summary c)
             (vapiCallId c)
             (if bool_decide (fs = FAILED) && Js.truthy e then e
              else errorMessage c)
             (startedAt c) (completedAt c') (createdAt c) upd1)
          (artifact msg))
    /\ (((fs = COMPLETED \/ fs = FAILED) /\ completedAt c = None
         /\ state c' = END
         /\ exists k, completedAt c' = Js.numOrUndefined (Some (clock w k)))
        \/ (~ ((fs = COMPLETED \/ fs = FAILED) /\ completedAt c = None)
            /\ state c' = state c /\ completedAt c' = completedAt c)).
Proof.
  intros Hv Hne Hs Hfound endReason fs e T.
  destruct (getByVapiCallId_found _ _ _ _ Hfound) as (_ & row & Hrow & Hc & Hvr).
  assert (Ht : Js.truthy (call msg) = true).
  { rewrite Hv. simpl. now apply negb_true_iff, String.eqb_neq. }
  rewrite Hc in Hfound.
  destruct (ended_run msg v w (id c) row Hv Ht Hs Hrow Hfound)
    as (st' & completed' & upd1 & upd2 & n' & Hrun & Hco).
  cbv zeta in Hrun. rewrite <- Hc in Hrun, Hco. fold endReason fs e T in Hrun, Hco.
  unfold exec. rewrite Hrun. cbn [snd]. rewrite recordOf_lookup. cbn [calls].
  rewrite lookup_insert_eq. cbn [fmap option_fmap option_map].
  eexists _, upd1. split; [reflexivity|].
  unfold setUpdatedAt, setSummary. rewrite view_of_saved.
  cbn [status transcript errorMessage startedAt summary state completedAt
       id phone leadData vapiCallId createdAt updatedAt].
  assert (Hn : Js.numOrUndefined completed' = completed').
  { destruct Hco as [(_ & _ & _ & k & ->) | (_ & _ & ->)].
    - apply numOrUndefined_idem.
    - rewrite Hc. norm_cbn. apply numOrUndefined_idem. }
  assert (He : Js.strOrUndefined (Js.strOrUndefined
                 (if bool_decide (fs = FAILED) && Js.truthy e then e
                  else errorMessage c))
               = (if bool_decide (fs = FAILED) && Js.truthy e then e
                  else errorMessage c)).
  { destruct (bool_decide (fs = FAILED) && Js.truthy e) eqn:Ec.
    - apply andb_true_iff in Ec as [_ Ec].
      now rewrite !(strOrUndefined_truthy e Ec).
    - rewrite Hc. norm_cbn. now rewrite !strOrUndefined_idem. }
  rewrite Hn, He.
  assert (Hsa : Js.numOrUndefined (startedAt c) = startedAt c).
  { rewrite Hc. norm_cbn. apply numOrUndefined_idem. }
  rewrite Hsa.
  match goal with |- context [leadData (rowToCall (id c) (callToRow ?x))] =>
    rewrite (leadData_view_ext (id c) (id c) x (rowToCall (id c) (callToRow c))
               eq_refl eq_refl)
  end.
  rewrite leadData_view_idem.
  repeat (split; [reflexivity|]). exact Hco.
Qed.

(** The record after [updateStatus], as the service returns it. *)
Lemma updateStatus_view cid s e w c :
  recordOf cid w = Some c ->
  exists c',
    recordOf cid (exec (callService.updateStatus cid s e) w) = Some c'
    /\ status c' = s /\ transcript c' = transcript c
    /\ summary c' = summary c
    /\ clock (exec (callService.updateStatus cid s e) w) = clock w.
Proof.
  rewrite recordOf_lookup. destruct (calls w !! cid) as [row|] eqn:Hrow;
    [|discriminate]. intros [= <-].
  destruct (updateStatus_run cid s e w row Hrow)
    as (st' & err' & started' & completed' & upd' & n' & Hrun & _).
  cbv zeta in Hrun. unfold exec. rewrite Hrun. cbn [snd].
  rewrite recordOf_lookup. cbn [calls clock]. rewrite lookup_insert_eq.
  eexists. split; [reflexivity|]. repeat split; reflexivity.
Qed.

(** [summarize] touches the summary and the time stamp only. *)
Lemma summarize_view cid artifact w c :
  recordOf cid w = Some c ->
  exists c',
    recordOf cid (exec (vapiRoutes.summarize cid artifact) w) = Some c'
    /\ status c' = status c /\ transcript c' = transcript c
    /\ summary c' = Some (vapiRoutes.generateCallSummary c artifact).
Proof.
  rewrite recordOf_lookup. destruct (calls w !! cid) as [row|] eqn:Hrow;
    [|discriminate]. intros [= <-].
  destruct (summarize_run cid artifact w row Hrow) as (upd' & n' & Hrun).
  cbv zeta in Hrun. unfold exec. rewrite Hrun. cbn [snd].
  rewrite recordOf_lookup. cbn [calls]. rewrite lookup_insert_eq.
  eexists. split; [reflexivity|]. repeat split; reflexivity.
Qed.

(** Under the [UNIQUE] constraint on [vapi_call_id] the lookup by the Vapi
    identifier finds the row that carries it. *)
Lemma getByVapiCallId_unique v w cid row :
  calls w !! cid = Some row -> vapi_call_id row = Some v ->
  (forall k r, calls w !! k = Some r -> vapi_call_id r = Some v -> k = cid) ->
  callService.getByVapiCallId v w = (Some (rowToCall cid row), w).
Proof.
  intros Hrow Hv Huniq.
  unfold callService.getByVapiCallId, selectByVapiCallId, bind, ret.
  destruct (filter _ (map_to_list (calls w))) as [|[k r] l] eqn:E.
  - exfalso.
    assert (Hin : (cid, row) ∈ filter (fun kv : string * CallRow =>
                     vapi_call_id kv.2 = Some v) (map_to_list (calls w))).
    { apply list_elem_of_filter. split; [exact Hv|].
      now apply elem_of_map_to_list. }
    rewrite E in Hin. inversion Hin.
  - assert (Hin : (k, r) ∈ filter (fun kv : string * CallRow =>
                     vapi_call_id kv.2 = Some v) (map_to_list (calls w)))
      by (rewrite E; left).
    apply list_elem_of_filter in Hin as [Hvr Hin].
    apply elem_of_map_to_list in Hin. cbn [snd] in Hvr.
    assert (k = cid) by (eapply Huniq; eassumption). subst k.
    rewrite Hrow in Hin. injection Hin as <-. reflexivity.
Qed.

(** The summary generated for a record depends on its state, transcript,
    lead and time stamps only. *)
Lemma generateCallSummary_ext (x y : CallEntity) (artifact : option Artifact) :
  state x = state y -> transcript x = transcript y ->
  leadData x = leadData y ->
  startedAt x = startedAt y -> completedAt x = completedAt y ->
  vapiRoutes.generateCallSummary x artifact
  = vapiRoutes.generateCallSummary y artifact.
Proof.
  intros Hs Ht Hl Hsa Hca.
  unfold vapiRoutes.generateCallSummary, vapiRoutes.extractKeyPoints,
    vapiRoutes.determineOutcome, vapiRoutes.determineNextAction,
    callService.timestampDuration.
  now rewrite Hs, Ht, Hl, Hsa, Hca.
Qed.

End Service.

(** ** Status updates that end a call *)

Section Ended.

Implicit Types (w : World) (msg : VapiMessage) (c : CallEntity).

(** C5.  An [ended] status update that carries a list of artifact
    messages leaves as transcript exactly that list, filtered (role [user]
    or [bot], text not empty once trimmed) and sorted by time, whatever the
    transcript of the record was before: nothing of the prior transcript is
    kept and nothing of the payload is dropped as a duplicate. *)
Theorem final_transcript_replaces w msg v c (msgs : list ArtifactMessage) :
  call msg = Some v -> v <> EmptyString ->
  ev_status msg = Some "ended" ->
  artifact msg ≫= messages = Some msgs ->
  callService.getByVapiCallId v w = (Some c, w) ->
  exists c',
    recordOf (id c) (exec (vapiRoutes.handleStatusUpdate msg) w)
    = Some c'
    /\ transcript c'
       = sort vapiRoutes.byTime
           (vapiRoutes.entryOf <$> vapiRoutes.validMessages msgs)
    /\ StronglySorted inTimeOrder (transcript c')
    /\ transcript c' ≡ₚ vapiRoutes.entryOf <$> vapiRoutes.validMessages msgs
    /\ (forall m, m ∈ vapiRoutes.validMessages msgs
                  <-> m ∈ msgs /\ (m_role m = "user" \/ m_role m = "bot")
                      /\ vapiRoutes.messageText m <> EmptyString).
Proof.
  intros Hv Hne Hs Ha Hfound.
  destruct (ended_view msg v w c Hv Hne Hs Hfound)
    as (c' & upd1 & Hget & _ & Htr & _).
  rewrite Ha in Htr. exists c'. split; [exact Hget|]. rewrite Htr.
  split; [reflexivity|]. split; [apply sort_sorted|].
  split; [apply sort_perm|].
  intros m. unfold vapiRoutes.validMessages.
  rewrite !list_elem_of_filter.
  assert (Hlen : (0 < String.length (vapiRoutes.messageText m))%nat
                 <-> vapiRoutes.messageText m <> EmptyString).
  { destruct (vapiRoutes.messageText m); simpl; split;
      intros; try lia; congruence. }
  rewrite Hlen. tauto.
Qed.

Lemma final_transcript_replaces_witness :
  let prior := [entry "user" "yes I'm interested" (Some 1) None;
                entry "bot" "great, one moment" (Some 2) None] in
  let final := [said "system" "You are Alex" None None;
                said "bot" "great - let's talk price" (Some 2) None;
                said "user" "yes I'm interested" (Some 1) None;
                said "user" "   " (Some 3) None] in
  let w := sampleWorld [("c1", sampleRow IN_PROGRESS GREETING prior None 5)] in
  exists c',
    recordOf "c1"
      (exec (vapiRoutes.handleStatusUpdate
               (statusUpdate "ended" (Some "customer-ended-call") (Some final)))
            w) = Some c'
    /\ transcript c' = [entry "user" "yes I'm interested" (Some 1) None;
                        entry "bot" "great - let's talk price" (Some 2) None].
Proof.
  intros prior final w.
  destruct (final_transcript_replaces w
              (statusUpdate "ended" (Some "customer-ended-call") (Some final))
              "v1" (rowToCall "c1" (sampleRow IN_PROGRESS GREETING prior None 5))
              final)
    as (c' & Hget & Htr & _);
    [reflexivity | discriminate | reflexivity | reflexivity
    | vm_compute; reflexivity |].
  exists c'. split; [exact Hget | exact Htr].
Defined.

(** C6.  The end reason of an [ended] status update settles the status by
    ordered rules: a success reason gives [COMPLETED]; otherwise a reason
    that contains a voicemail marker gives [VOICEMAIL]; otherwise one that
    contains a no-answer marker gives [NO_ANSWER]; every other gives
    [FAILED]; the status is terminal in each case and is the one the
    record ends with.  For "customer-ended-call" the record ends [COMPLETED]
    and its [errorMessage] is left as it was, unset if it was unset. *)
Theorem end_reason_classification (r : string) :
  let voicemail := exists m, In m vapiRoutes.voicemailReasons
                             /\ Js.includes r m = true in
  let noAnswer := exists m, In m vapiRoutes.noAnswerReasons
                            /\ Js.includes r m = true in
  terminal (vapiRoutes.finalStatus r) = true
  /\ (In r vapiRoutes.successReasons -> vapiRoutes.finalStatus r = COMPLETED)
  /\ (~ In r vapiRoutes.successReasons -> voicemail ->
      vapiRoutes.finalStatus r = VOICEMAIL)
  /\ (~ In r vapiRoutes.successReasons -> ~ voicemail -> noAnswer ->
      vapiRoutes.finalStatus r = NO_ANSWER)
  /\ (~ In r vapiRoutes.successReasons -> ~ voicemail -> ~ noAnswer ->
      vapiRoutes.finalStatus r = FAILED)
  /\ (forall w msg v c,
        call msg = Some v -> v <> EmptyString -> ev_status msg = Some "ended" ->
        endedReason msg = Some r -> r <> EmptyString ->
        callService.getByVapiCallId v w = (Some c, w) ->
        exists c',
          recordOf (id c) (exec (vapiRoutes.handleStatusUpdate msg) w) = Some c'
          /\ status c' = vapiRoutes.finalStatus r
          /\ (r = "customer-ended-call" ->
              status c' = COMPLETED /\ errorMessage c' = errorMessage c)).
Proof.
  intros voicemail noAnswer.
  assert (Hs : existsb (String.eqb r) vapiRoutes.successReasons = true
               <-> In r vapiRoutes.successReasons).
  { rewrite existsb_exists. split.
    - intros (x & Hin & Hx). apply String.eqb_eq in Hx. now subst.
    - intros Hin. exists r. split; [exact Hin | apply String.eqb_refl]. }
  assert (Hvm : existsb (Js.includes r) vapiRoutes.voicemailReasons = true
                <-> voicemail) by apply existsb_exists.
  assert (Hna : existsb (Js.includes r) vapiRoutes.noAnswerReasons = true
                <-> noAnswer) by apply existsb_exists.
  unfold vapiRoutes.finalStatus.
  destruct (existsb (String.eqb r) vapiRoutes.successReasons) eqn:E1;
  destruct (existsb (Js.includes r) vapiRoutes.voicemailReasons) eqn:E2;
  destruct (existsb (Js.includes r) vapiRoutes.noAnswerReasons) eqn:E3.
  all: repeat match goal with
       | |- _ /\ _ => split
       | |- forall w msg v c, _ => idtac
       | |- _ -> _ => intro
       end; try reflexivity.
  all: try (exfalso; intuition congruence).
  all: intros w msg v c Hv Hne Hst Hr Hrne Hfound.
  all: destruct (ended_view msg v w c Hv Hne Hst Hfound)
         as (c' & upd1 & Hget & Hstatus & _ & Herr & _).
  all: rewrite Hr in Hstatus, Herr; simpl Js.orDefault in Hstatus, Herr.
  all: apply String.eqb_neq in Hrne; rewrite Hrne in Hstatus, Herr.
  all: exists c'; split; [exact Hget|].
  all: unfold vapiRoutes.finalStatus in Hstatus; rewrite E1, ?E2, ?E3 in Hstatus.
  all: split; [exact Hstatus|].
  all: intros ->; split; [exact Hstatus || discriminate E1 | exact Herr].
Qed.

End Ended.

Lemma end_reason_classification_witness :
  let w := sampleWorld [("c1", sampleRow IN_PROGRESS GREETING [] None 5)] in
  vapiRoutes.finalStatus "customer-ended-call" = COMPLETED
  /\ exists c',
       recordOf "c1"
         (exec (vapiRoutes.handleStatusUpdate
                  (statusUpdate "ended" (Some "customer-ended-call") None)) w)
       = Some c'
       /\ status c' = COMPLETED /\ errorMessage c' = None.
Proof.
  intros w.
  destruct (end_reason_classification "customer-ended-call")
    as (_ & Hsuccess & _ & _ & _ & Hrecord).
  split; [apply Hsuccess; simpl; auto|].
  destruct (Hrecord w (statusUpdate "ended" (Some "customer-ended-call") None)
              "v1" (rowToCall "c1" (sampleRow IN_PROGRESS GREETING [] None 5)))
    as (c' & Hget & _ & Hc');
    [reflexivity | discriminate | reflexivity | reflexivity | discriminate
    | vm_compute; reflexivity |].
  destruct (Hc' eq_refl) as [Hst Herr].
  exists c'. split; [exact Hget|]. split; [exact Hst | exact Herr].
Defined.

Section Voicemail.

Implicit Types (w : World) (msg : VapiMessage) (c : CallEntity).

(** C7.  An [ended] status update whose end reason classifies as
    [VOICEMAIL] or [NO_ANSWER] leaves the record with that status and with
    the [errorMessage] it had before: the message the handler prepares
    ("Call reached voicemail" for [VOICEMAIL]) is handed to [updateStatus],
    which stores a message for [FAILED] only.  A record that had no
    [errorMessage] ends [VOICEMAIL] without one. *)
Theorem voicemail_message_not_recorded w msg v c :
  call msg = Some v -> v <> EmptyString ->
  ev_status msg = Some "ended" ->
  callService.getByVapiCallId v w = (Some c, w) ->
  let endReason := Js.orDefault (endedReason msg) "completed" in
  let fs := vapiRoutes.finalStatus endReason in
  fs = VOICEMAIL \/ fs = NO_ANSWER ->
  Js.truthy (vapiRoutes.endedErrorMessage fs endReason) = true
  /\ (fs = VOICEMAIL ->
      vapiRoutes.endedErrorMessage fs endReason = Some "Call reached voicemail")
  /\ exists c',
       recordOf (id c) (exec (vapiRoutes.handleStatusUpdate msg) w)
       = Some c'
       /\ status c' = fs /\ errorMessage c' = errorMessage c.
Proof.
  intros Hv Hne Hs Hfound endReason fs Hfs.
  split; [|split].
  - destruct Hfs as [-> | ->]; reflexivity.
  - now intros ->.
  - destruct (ended_view msg v w c Hv Hne Hs Hfound)
      as (c' & upd1 & Hget & Hstatus & _ & Herr & _).
    fold endReason fs in Hstatus, Herr.
    exists c'. split; [exact Hget|]. split; [exact Hstatus|].
    rewrite Herr. destruct Hfs as [-> | ->]; reflexivity.
Qed.

End Voicemail.

Lemma voicemail_message_not_recorded_witness :
  let w := sampleWorld [("c1", sampleRow IN_PROGRESS GREETING [] None 5)] in
  exists c',
    recordOf "c1"
      (exec (vapiRoutes.handleStatusUpdate
               (statusUpdate "ended" (Some "voicemail-reached") None)) w)
    = Some c'
    /\ status c' = VOICEMAIL /\ errorMessage c' = None.
Proof.
  intros w.
  destruct (voicemail_message_not_recorded w
              (statusUpdate "ended" (Some "voicemail-reached") None) "v1"
              (rowToCall "c1" (sampleRow IN_PROGRESS GREETING [] None 5)))
    as (_ & _ & c' & Hget & Hst & Herr);
    [reflexivity | discriminate | reflexivity | vm_compute; reflexivity
    | left; reflexivity |].
  exists c'. split; [exact Hget|]. split; [exact Hst | exact Herr].
Defined.

(** ** Status updates and terminal records *)

Section StatusUpdates.

Implicit Types (w : World) (msg : VapiMessage) (c : CallEntity).

(** C1, as the code has it.  A status update writes the status its signal
    asks for over the status of the record, terminal or not: [CALLING] for
    [queued] and [ringing], [IN_PROGRESS] for [in-progress], the
    classification of the end reason for [ended], [FAILED] for [failed]
    and [busy], [NO_ANSWER] for [no-answer].  The status stays as it is
    when the signal is none of these, and when it asks for the status the
    record has already, as the re-delivery of a terminal signal with the
    same end reason does. *)
Theorem status_update_overwrites w msg v s c :
  call msg = Some v -> v <> EmptyString ->
  ev_status msg = Some s -> s <> EmptyString ->
  callService.getByVapiCallId v w = (Some c, w) ->
  exists c',
    recordOf (id c) (exec (vapiRoutes.handleStatusUpdate msg) w) = Some c'
    /\ status c' = default (status c) (signalStatus s (endedReason msg))
    /\ (signalStatus s (endedReason msg) = None
        \/ signalStatus s (endedReason msg) = Some (status c) ->
        status c' = status c).
Proof.
  intros Hv Hne Hs Hsne Hfound.
  assert (Hgoal : exists c',
    recordOf (id c) (exec (vapiRoutes.handleStatusUpdate msg) w) = Some c'
    /\ status c' = default (status c) (signalStatus s (endedReason msg))).
  2: { destruct Hgoal as (c' & Hget & Hst). exists c'.
       split; [exact Hget|]. split; [exact Hst|].
       rewrite Hst. now intros [-> | ->]. }
  destruct (getByVapiCallId_found _ _ _ _ Hfound) as (_ & row & Hrow & Hc & _).
  assert (Hrec : recordOf (id c) w = Some c).
  { rewrite recordOf_lookup, Hrow. simpl. now rewrite <- Hc. }
  destruct (String.eqb_spec s "ended") as [->|Hended].
  { destruct (ended_view msg v w c Hv Hne Hs Hfound)
      as (c' & upd1 & Hget & Hstatus & _).
    exists c'. split; [exact Hget|]. rewrite Hstatus. reflexivity. }
  unfold vapiRoutes.handleStatusUpdate, signalStatus.
  rewrite Hv, Hs.
  change (default EmptyString (Some v)) with v. change (default EmptyString (Some s)) with s.
  assert (Htv : Js.truthy (Some v) = true)
    by (simpl; now apply negb_true_iff, String.eqb_neq).
  assert (Hts : Js.truthy (Some s) = true)
    by (simpl; now apply negb_true_iff, String.eqb_neq).
  rewrite Htv, Hts. cbn [negb orb].
  rewrite exec_bind, getByVapiCallId_world, Hfound. cbn [fst].
  apply String.eqb_neq in Hended. rewrite Hended.
  destruct (String.eqb s "queued"), (String.eqb s "ringing"),
    (String.eqb s "in-progress"), (String.eqb s "failed"),
    (String.eqb s "busy"), (String.eqb s "no-answer"); cbn [orb].
  all: try (rewrite exec_bind; cbv beta).
  all: try match goal with
       | |- context [callService.updateStatus _ ?st ?e] =>
           destruct (updateStatus_view (id c) st e w c Hrec)
             as (c1 & Hget1 & Hst1 & _)
       end.
  all: try match goal with
       | |- context [vapiRoutes.summarize] =>
           destruct (summarize_view (id c) None _ c1 Hget1)
             as (c2 & Hget2 & Hst2 & _);
           exists c2; split; [exact Hget2 | now rewrite Hst2, Hst1]
       end.
  all: try (exists c1; split; [exact Hget1 | exact Hst1]).
  all: exists c; split; [exact Hrec | reflexivity].
Qed.

End StatusUpdates.

Lemma status_update_overwrites_witness :
  let w := sampleWorld [("c1", sampleRow COMPLETED END [] None 5)] in
  exists c',
    recordOf "c1"
      (exec (vapiRoutes.handleStatusUpdate
               (statusUpdate "ended" (Some "customer-ended-call") None)) w)
    = Some c'
    /\ status c' = COMPLETED.
Proof.
  intros w.
  destruct (status_update_overwrites w
              (statusUpdate "ended" (Some "customer-ended-call") None) "v1"
              "ended" (rowToCall "c1" (sampleRow COMPLETED END [] None 5)))
    as (c' & Hget & Hst & _);
    [reflexivity | discriminate | reflexivity | discriminate | reflexivity |].
  exists c'. split; [exact Hget | exact Hst].
Defined.

(** C1, as the claim states it, fails: a call is placed, answered and
    ended by the customer, so that its record is [COMPLETED]; a [queued]
    status update that arrives late sets it back to [CALLING]. *)
Lemma terminal_status_not_monotone :
  ~ (forall w msg cid c c',
       recordOf cid w = Some c -> terminal (status c) = true ->
       recordOf cid (exec (vapiRoutes.webhook msg) w) = Some c' ->
       status c' = status c).
Proof.
  intros H.
  pose (w := run [StartCall "c1" (mkLeadData "Ada" "Byron" "+15551234567"
                                    "Travis" "TX" (Some 5) None) (inl "v1");
                  Webhook (statusUpdate "in-progress" None None);
                  Webhook (statusUpdate "ended" (Some "customer-ended-call") None)]
                 emptyWorld).
  destruct (recordOf "c1" w) as [c|] eqn:Hc; [|vm_compute in Hc; discriminate].
  destruct (recordOf "c1" (exec (vapiRoutes.webhook
                                   (statusUpdate "queued" None None)) w))
    as [c'|] eqn:Hc'; [|vm_compute in Hc'; discriminate].
  assert (Hst : status c = COMPLETED)
    by (vm_compute in Hc; injection Hc as <-; reflexivity).
  assert (Hst' : status c' = CALLING)
    by (vm_compute in Hc'; injection Hc' as <-; reflexivity).
  specialize (H w _ "c1" c c' Hc (eq_trans (f_equal terminal Hst) eq_refl) Hc').
  congruence.
Qed.

(** ** The stale-call reaper *)

Section Reaper.

Implicit Types (w : World) (cid : string) (row : CallRow) (c : CallEntity).

Lemma timeoutMessage_truthy (T : Z) :
  Js.truthy (Some (callService.timeoutMessage T)) = true.
Proof. reflexivity. Qed.

(** One turn of the loop of the reaper, for the stale record [c0] it read
    at the beginning of the sweep, on the row the table holds now. *)
Lemma reap_one_run (T : Z) cid (c0 : CallEntity) w row :
  calls w !! cid = Some row -> id c0 = cid ->
  exists row' n',
    (callService.updateStatus (id c0) FAILED (Some (callService.timeoutMessage T)) ;;
     when ((0 <? length (transcript c0))%nat && negb (Js.isDefined (summary c0)))
          (callService.addSummary (id c0) (callService.generateBasicSummary c0))) w
    = (tt, {| calls := <[cid := row']> (calls w); clock := clock w; reads := n' |})
    /\ row_status row' = FAILED
    /\ error_message row' = Some (callService.timeoutMessage T)
    /\ row_transcript row' = row_transcript row
    /\ row_summary row'
       = (if (0 <? length (transcript c0))%nat && negb (Js.isDefined (summary c0))
          then Some (callService.generateBasicSummary c0)
          else row_summary row).
Proof.
  intros Hrow Hid. subst cid.
  destruct (updateStatus_run (id c0) FAILED (Some (callService.timeoutMessage T))
              w row Hrow)
    as (st' & err' & started' & completed' & upd' & n' & Hrun & Herr & _).
  cbv zeta in Hrun. unfold bind at 1. rewrite Hrun.
  rewrite timeoutMessage_truthy in Herr. cbn [bool_decide decide_rel andb] in Herr.
  assert (Herr' : err' = Some (callService.timeoutMessage T)) by exact Herr.
  clear Herr. subst err'.
  destruct ((0 <? length (transcript c0))%nat && negb (Js.isDefined (summary c0))).
  - unfold when.
    match goal with |- context [callService.addSummary _ ?sm ?w1] =>
      destruct (addSummary_run (id c0) sm w1 (callToRow
        (mkCallEntity (id c0) (phone (rowToCall (id c0) row)) st' FAILED
           (transcript (rowToCall (id c0) row)) (leadData (rowToCall (id c0) row))
           (summary (rowToCall (id c0) row)) (vapiCallId (rowToCall (id c0) row))
           (Some (callService.timeoutMessage T)) started' completed'
           (createdAt (rowToCall (id c0) row)) upd')))
        as (upd2 & n2 & Hrun2); [apply lookup_insert_eq|]
    end.
    rewrite Hrun2. cbn [calls clock]. rewrite insert_insert_eq.
    eexists _, _. split; [reflexivity|]. repeat split; reflexivity.
  - unfold when, ret. eexists _, _. split; [reflexivity|].
    repeat split; reflexivity.
Qed.

(** The loop of the reaper over the stale rows [l] it selected: the rows
    outside [l] are not touched, each row of [l] is failed. *)
Lemma reap_all (T : Z) (l : list (string * CallRow)) w :
  NoDup l.*1 ->
  (forall k row0, (k, row0) ∈ l -> calls w !! k = Some row0) ->
  let w' := exec (forEach ((fun kv => rowToCall kv.1 kv.2) <$> l) (fun call =>
      callService.updateStatus (id call) FAILED
        (Some (callService.timeoutMessage T)) ;;
      when ((0 <? length (transcript call))%nat
            && negb (Js.isDefined (summary call)))
           (callService.addSummary (id call)
              (callService.generateBasicSummary call)))) w in
  clock w' = clock w
  /\ (forall k, k ∉ l.*1 -> calls w' !! k = calls w !! k)
  /\ (forall k row0, (k, row0) ∈ l ->
        exists row',
          calls w' !! k = Some row'
          /\ row_status row' = FAILED
          /\ error_message row' = Some (callService.timeoutMessage T)
          /\ row_transcript row' = row_transcript row0
          /\ row_summary row'
             = (if (0 <? length (row_transcript row0))%nat
                   && negb (Js.isDefined (row_summary row0))
                then Some (callService.generateBasicSummary (rowToCall k row0))
                else row_summary row0)).
Proof.
  revert w. induction l as [|[k0 r0] l IH]; intros w Hnd Hrows w'.
  - subst w'. cbn. split; [reflexivity|]. split; [reflexivity|].
    intros k row0 Hin. inversion Hin.
  - cbn [fmap list_fmap] in Hnd. apply NoDup_cons in Hnd as [Hk0 Hnd].
    destruct (reap_one_run T k0 (rowToCall k0 r0) w r0) as
      (row1 & n1 & Hrun & Hst & Herr & Htr & Hsum);
      [apply Hrows; left | reflexivity |].
    apply (f_equal snd) in Hrun. cbn [snd] in Hrun.
    match type of Hrun with (?m w).2 = ?r => change (exec m w = r) in Hrun end.
    subst w'. cbn [fmap list_fmap forEach]. rewrite exec_bind. cbv beta.
    cbn [fst snd] in *. rewrite Hrun.
    match goal with |- context [exec _ ?x] => set (w1 := x) end.
    destruct (IH w1 Hnd) as (Hclock & Hout & Hin).
    { intros k row0 Hin. subst w1. cbn [calls].
      rewrite lookup_insert_ne.
      - apply Hrows. now right.
      - intros ->. apply Hk0. apply list_elem_of_fmap. now exists (k, row0). }
    split; [exact Hclock|]. split.
    + intros k Hk. apply not_elem_of_cons in Hk as [Hne Hk].
      rewrite (Hout k Hk). subst w1. cbn [calls]. now rewrite lookup_insert_ne.
    + intros k row0 Hkin. apply elem_of_cons in Hkin as [[= -> ->] | Hkin].
      * rewrite (Hout k0 Hk0). subst w1. cbn [calls]. rewrite lookup_insert_eq.
        exists row1. repeat split; assumption.
      * exact (Hin k row0 Hkin).
Qed.

(** The rows the reaper selects. *)
Lemma selectStale_spec (cutoffTime : Z) w k row :
  (k, row) ∈ (selectStale cutoffTime w).1
  <-> calls w !! k = Some row
      /\ (row_status row = CALLING \/ row_status row = IN_PROGRESS)
      /\ updated_at row < cutoffTime.
Proof.
  unfold selectStale. cbn [fst]. rewrite list_elem_of_filter, elem_of_map_to_list.
  cbn [snd]. tauto.
Qed.

Lemma selectStale_NoDup (cutoffTime : Z) w :
  NoDup (selectStale cutoffTime w).1.*1.
Proof.
  unfold selectStale. cbn [fst].
  eapply sublist_NoDup; [|apply fmap_sublist, sublist_filter].
  apply NoDup_fst_map_to_list.
Qed.

(** A sweep of the reaper, row by row. *)
Lemma markStale_rows (T : Z) w :
  let cutoffTime := clock w (reads w) - T * 1000 in
  let w' := exec (callService.markStaleCallsAsFailed T) w in
  clock w' = clock w
  /\ forall k,
       match calls w !! k with
       | None => calls w' !! k = None
       | Some row =>
           if bool_decide ((row_status row = CALLING \/ row_status row = IN_PROGRESS)
                           /\ updated_at row < cutoffTime)
           then exists row',
                  calls w' !! k = Some row'
                  /\ row_status row' = FAILED
                  /\ error_message row' = Some (callService.timeoutMessage T)
                  /\ row_transcript row' = row_transcript row
                  /\ row_summary row'
                     = (if (0 <? length (row_transcript row))%nat
                           && negb (Js.isDefined (row_summary row))
                        then Some (callService.generateBasicSummary (rowToCall k row))
                        else row_summary row)
           else calls w' !! k = Some row
       end.
Proof.
  intros cutoffTime w'.
  set (w0 := {| calls := calls w; clock := clock w; reads := S (reads w) |}).
  set (l := (selectStale cutoffTime w0).1).
  assert (Hw' : w' = exec (forEach ((fun kv => rowToCall kv.1 kv.2) <$> l)
      (fun call =>
         callService.updateStatus (id call) FAILED
           (Some (callService.timeoutMessage T)) ;;
         when ((0 <? length (transcript call))%nat
               && negb (Js.isDefined (summary call)))
              (callService.addSummary (id call)
                 (callService.generateBasicSummary call)))) w0).
  { subst w'. unfold callService.markStaleCallsAsFailed.
    rewrite exec_bind. change (exec newDate w) with w0.
    change (newDate w).1 with (clock w (reads w)). fold cutoffTime.
    rewrite exec_bind. change (exec (selectStale cutoffTime) w0) with w0.
    fold l. rewrite exec_bind. reflexivity. }
  destruct (reap_all T l w0) as (Hclock & Hout & Hin).
  { apply selectStale_NoDup. }
  { intros k row0 Hk. now apply selectStale_spec in Hk as [Hk _]. }
  cbv zeta in Hclock, Hout, Hin. rewrite <- Hw' in Hclock, Hout, Hin.
  split; [exact Hclock|]. intros k.
  destruct (calls w !! k) as [row|] eqn:Hrow.
  - case_bool_decide as Hstale.
    + apply (Hin k row). apply selectStale_spec. split; [exact Hrow | exact Hstale].
    + rewrite Hout; [exact Hrow|]. intros Hk.
      apply list_elem_of_fmap in Hk as [[k' row'] [-> Hk]]. cbn [fst] in *.
      apply selectStale_spec in Hk as [Hk Hs]. cbn [calls w0] in Hk.
      rewrite Hrow in Hk. injection Hk as <-. contradiction.
  - rewrite Hout; [exact Hrow|]. intros Hk.
    apply list_elem_of_fmap in Hk as [[k' row'] [-> Hk]]. cbn [fst] in *.
    apply selectStale_spec in Hk as [Hk _]. cbn [calls w0] in Hk. congruence.
Qed.

End Reaper.

(** C8, as the code has it.  After one sweep of [markStaleCallsAsFailed]
    with timeout [T], read at the clock's reading [now], every record
    that was [CALLING] or [IN_PROGRESS] and last updated before
    [now - T * 1000] is [FAILED] with the non-empty [errorMessage] that
    names the timeout in minutes; its transcript is as before; its summary
    is the one it had when it had one, a basic summary generated by the
    sweep when it had none and its transcript is not empty, and none when
    it had none and its transcript is empty.  Every other record is as it
    was, and no record appears. *)
Theorem reaper_sweep (T : Z) (w : World) (cid : string) :
  let cutoffTime := clock w (reads w) - T * 1000 in
  let w' := exec (callService.markStaleCallsAsFailed T) w in
  match recordOf cid w with
  | None => recordOf cid w' = None
  | Some c =>
      if bool_decide (stale cutoffTime c)
      then exists c',
             recordOf cid w' = Some c'
             /\ status c' = FAILED
             /\ errorMessage c'
                = Some ("Call timed out after " ++ Js.ofZ (T / 60)
                        ++ " minutes without status update")
             /\ Js.truthy (errorMessage c') = true
             /\ transcript c' = transcript c
             /\ summary c'
                = match summary c with
                  | Some s => Some s
                  | None => if (0 <? length (transcript c))%nat
                            then Some (callService.generateBasicSummary c)
                            else None
                  end
      else recordOf cid w' = Some c
  end.
Proof.
  intros cutoffTime w'.
  destruct (markStale_rows T w) as [_ Hrows]. specialize (Hrows cid).
  cbv zeta in Hrows. fold cutoffTime w' in Hrows.
  rewrite !recordOf_lookup.
  destruct (calls w !! cid) as [row|] eqn:Hrow; cbn [fmap option_fmap option_map].
  2: { now rewrite Hrows. }
  unfold stale. cbn [status updatedAt rowToCall].
  destruct (bool_decide _) eqn:Hs.
  2: { now rewrite Hrows. }
  destruct Hrows as (row' & Hrow' & Hst & Herr & Htr & Hsum).
  rewrite Hrow'. cbn [fmap option_fmap option_map].
  eexists. split; [reflexivity|]. cbn [status errorMessage transcript summary rowToCall].
  rewrite Hst, Herr, Htr, Hsum. repeat split.
  destruct (row_summary row), (0 <? length (row_transcript row))%nat; reflexivity.
Qed.

(** C8, as the claim states it, fails: a call is placed and answered, no
    further webhook arrives, and the sweep finds the record stale with an
    empty transcript; it fails the record and leaves it without a
    summary. *)
Lemma reaper_leaves_no_summary :
  ~ (forall T w cid c,
       recordOf cid w = Some c ->
       stale (clock w (reads w) - T * 1000) c ->
       exists c',
         recordOf cid (exec (callService.markStaleCallsAsFailed T) w) = Some c'
         /\ status c' = FAILED /\ Js.truthy (errorMessage c') = true
         /\ is_Some (summary c')).
Proof.
  intros H.
  pose (w := run [StartCall "c1" (mkLeadData "Ada" "Byron" "+15551234567"
                                    "Travis" "TX" (Some 5) None) (inl "v1");
                  Webhook (statusUpdate "in-progress" None None)] quietWorld).
  destruct (recordOf "c1" w) as [c|] eqn:Hc; [|vm_compute in Hc; discriminate].
  destruct (H 600 w "c1" c Hc) as (c' & Hc' & _ & _ & [sm Hsm]).
  { vm_compute in Hc. injection Hc as <-. vm_compute. split; [right|]; reflexivity. }
  vm_compute in Hc'. injection Hc' as <-. discriminate Hsm.
Qed.

(** ** The summary of a call *)

Section Summary.

Implicit Types (w : World) (msg : VapiMessage) (c : CallEntity).

(** A sweep of the reaper leaves a summary that is present as it is. *)
Lemma sweep_keeps_summary (T : Z) w cid c sm :
  recordOf cid w = Some c -> summary c = Some sm ->
  exists c',
    recordOf cid (exec (callService.markStaleCallsAsFailed T) w) = Some c'
    /\ summary c' = Some sm.
Proof.
  rewrite recordOf_lookup. destruct (calls w !! cid) as [row|] eqn:Hrow;
    [|discriminate]. intros [= <-] Hsm. cbn [summary rowToCall] in Hsm.
  destruct (markStale_rows T w) as [_ Hrows]. specialize (Hrows cid).
  cbv zeta in Hrows. rewrite Hrow in Hrows. rewrite recordOf_lookup.
  destruct (bool_decide _).
  - destruct Hrows as (row' & -> & _ & _ & _ & Hsum).
    eexists. split; [reflexivity|]. cbn [summary rowToCall].
    rewrite Hsum, Hsm. cbn [Js.isDefined negb]. now rewrite andb_false_r.
  - rewrite Hrows. eexists. split; [reflexivity | exact Hsm].
Qed.

(** C2, as the code has it.  An [ended] status update always generates
    the summary anew, from the record as the update leaves it, and writes
    it over whatever summary the record had; processing the same update a
    second time gives the same summary, status and transcript as
    processing it once (for a Vapi identifier that one record carries,
    under a clock that never reads 0).  The reaper, for its part, leaves a
    summary that is present as it is. *)
Theorem summary_regenerated_on_ended w msg v c :
  call msg = Some v -> v <> EmptyString ->
  ev_status msg = Some "ended" ->
  callService.getByVapiCallId v w = (Some c, w) ->
  (forall k r, calls w !! k = Some r -> vapi_call_id r = Some v -> k = id c) ->
  (forall n, clock w n <> 0) ->
  let w1 := exec (vapiRoutes.handleStatusUpdate msg) w in
  let w2 := exec (vapiRoutes.handleStatusUpdate msg) w1 in
  (exists c1 c2,
     recordOf (id c) w1 = Some c1
     /\ summary c1 = Some (vapiRoutes.generateCallSummary c1 (artifact msg))
     /\ recordOf (id c) w2 = Some c2
     /\ summary c2 = summary c1 /\ status c2 = status c1
     /\ transcript c2 = transcript c1)
  /\ (forall T sm, summary c = Some sm ->
        exists c',
          recordOf (id c) (exec (callService.markStaleCallsAsFailed T) w)
          = Some c'
          /\ summary c' = Some sm).
Proof.
  intros Hv Hne Hs Hfound Huniq Hclock w1 w2.
  destruct (getByVapiCallId_found _ _ _ _ Hfound) as (_ & row & Hrow & Hc & Hvr).
  split.
  2: { intros T sm Hsm. apply (sweep_keeps_summary T w (id c) c sm); [|exact Hsm].
       rewrite recordOf_lookup, Hrow. cbn. now rewrite <- Hc. }
  (* the first pass *)
  destruct (ended_view msg v w c Hv Hne Hs Hfound)
    as (c1 & upd1 & Hget1 & Hst1 & Htr1 & Herr1 & Hsa1 & Hph1 & Hld1 & Hsum1 & Hco1).
  fold w1 in Hget1.
  (* the record is found again *)
  assert (Hw1 : exists R, calls w1 = <[id c := R]> (calls w)
                          /\ vapi_call_id R = Some v).
  { assert (Ht : Js.truthy (call msg) = true).
    { rewrite Hv. simpl. now apply negb_true_iff, String.eqb_neq. }
    pose proof Hfound as Hfound'. rewrite Hc in Hfound'.
    destruct (ended_run msg v w (id c) row Hv Ht Hs Hrow Hfound')
      as (st' & completed' & u1 & u2 & n' & Hrun & _).
    cbv zeta in Hrun. subst w1. unfold exec. rewrite Hrun. cbn [snd calls].
    eexists. split; [reflexivity|]. norm_cbn. rewrite Hvr.
    rewrite Hv in Ht. now rewrite !(strOrUndefined_truthy _ Ht). }
  destruct Hw1 as (R & Hcalls1 & HvR).
  rewrite recordOf_lookup in Hget1.
  destruct (calls w1 !! id c) as [row1|] eqn:Hrow1; [|discriminate].
  cbn [fmap option_fmap option_map] in Hget1. injection Hget1 as Hc1.
  assert (Hid1 : id c1 = id c) by (now rewrite <- Hc1).
  assert (Hvr1 : vapi_call_id row1 = Some v).
  { rewrite Hcalls1, lookup_insert_eq in Hrow1. now injection Hrow1 as <-. }
  assert (Hfound1 : callService.getByVapiCallId v w1 = (Some c1, w1)).
  { rewrite <- Hc1. apply getByVapiCallId_unique; [exact Hrow1 | exact Hvr1 |].
    intros k r Hk Hkv. destruct (decide (k = id c)) as [->|Hk']; [reflexivity|].
    rewrite Hcalls1, lookup_insert_ne in Hk by congruence. eauto. }
  (* the second pass *)
  destruct (ended_view msg v w1 c1 Hv Hne Hs Hfound1)
    as (c2 & upd2 & Hget2 & Hst2 & Htr2 & Herr2 & Hsa2 & Hph2 & Hld2 & Hsum2 & Hco2).
  fold w2 in Hget2. rewrite Hid1 in Hget2, Hsum2, Hld2.
  assert (Htr : transcript c2 = transcript c1).
  { rewrite Htr2, Htr1. now destruct (artifact msg ≫= messages). }
  assert (Hsame : state c2 = state c1 /\ completedAt c2 = completedAt c1).
  { destruct Hco2 as [(Hfs & Hnone & _) | (_ & H1 & H2)]; [exfalso | now split].
    destruct Hco1 as [(_ & _ & _ & k & Hk) | (Hn & _ & Hk)].
    - rewrite numOrUndefined_nonzero in Hk by apply Hclock. congruence.
    - apply Hn. split; [exact Hfs | congruence]. }
  destruct Hsame as [Hstate Hcompleted].
  assert (Hgen1 : summary c1
                  = Some (vapiRoutes.generateCallSummary c1 (artifact msg))).
  { rewrite Hsum1. f_equal.
    apply generateCallSummary_ext;
      cbn [state transcript leadData startedAt completedAt]; congruence. }
  exists c1, c2.
  split; [rewrite recordOf_lookup, Hrow1; cbn; now rewrite Hc1|].
  split; [exact Hgen1|]. split; [exact Hget2|].
  split; [|split; [congruence | exact Htr]].
  rewrite Hsum2, Hgen1. f_equal.
  apply generateCallSummary_ext;
    cbn [state transcript leadData startedAt completedAt].
  - exact Hstate.
  - rewrite <- Htr2. exact Htr.
  - rewrite (leadData_view_ext (id c) (id c) c1
               (rowToCall (id c) (callToRow c)) Hph1 Hld1).
    rewrite leadData_view_idem. now rewrite Hld1.
  - reflexivity.
  - exact Hcompleted.
Qed.

End Summary.

Lemma summary_regenerated_on_ended_witness :
  let w := sampleWorld [("c1", sampleRow IN_PROGRESS GREETING [] None
                                 1699999200000)] in
  let msg := statusUpdate "ended" (Some "customer-ended-call")
               (Some [said "user" "maybe later" (Some 1) None]) in
  let w1 := exec (vapiRoutes.handleStatusUpdate msg) w in
  let w2 := exec (vapiRoutes.handleStatusUpdate msg) w1 in
  exists c1 c2,
    recordOf "c1" w1 = Some c1 /\ recordOf "c1" w2 = Some c2
    /\ summary c2 = summary c1.
Proof.
  intros w msg w1 w2.
  destruct (summary_regenerated_on_ended w msg "v1"
              (rowToCall "c1" (sampleRow IN_PROGRESS GREETING [] None
                                 1699999200000)))
    as [(c1 & c2 & H1 & _ & H2 & Hs & _) _];
    [reflexivity | discriminate | reflexivity | reflexivity | | |].
  - intros k r Hk _. simpl in Hk.
    apply lookup_insert_Some in Hk as [[<- _] | [_ Hk]]; [reflexivity|].
    rewrite lookup_empty in Hk. discriminate Hk.
  - intros n. simpl. unfold sampleClock. lia.
  - exists c1, c2. split; [exact H1|]. split; [exact H2 | exact Hs].
Defined.

(** C2, as the claim states it, fails: the end-of-call report of a call
    arrives before its [ended] status update and a summary is generated
    from it; the status update then generates the summary again, from the
    record it has ended, and writes it over the first. *)
Lemma ended_update_overwrites_summary :
  ~ (forall w msg cid c sm c',
       type msg = "status-update" -> ev_status msg = Some "ended" ->
       recordOf cid w = Some c -> summary c = Some sm ->
       recordOf cid (exec (vapiRoutes.webhook msg) w) = Some c' ->
       summary c' = Some sm).
Proof.
  intros H.
  pose (heard := [said "bot" "Hi, this is Alex with LandVerse" (Some 1) None;
                  said "user" "maybe later" (Some 2) None]).
  pose (w := run [StartCall "c1" (mkLeadData "Ada" "Byron" "+15551234567"
                                    "Travis" "TX" (Some 5) None) (inl "v1");
                  Webhook (statusUpdate "in-progress" None None);
                  Webhook (endOfCallReport heard)] emptyWorld).
  pose (msg := statusUpdate "ended" (Some "customer-ended-call") (Some heard)).
  destruct (recordOf "c1" w) as [c|] eqn:Hc; [|vm_compute in Hc; discriminate].
  destruct (summary c) as [sm|] eqn:Hsm;
    [|vm_compute in Hc; injection Hc as <-; discriminate Hsm].
  destruct (recordOf "c1" (exec (vapiRoutes.webhook msg) w)) as [c'|] eqn:Hc';
    [|vm_compute in Hc'; discriminate].
  specialize (H w msg "c1" c sm c' eq_refl eq_refl Hc Hsm Hc').
  vm_compute in Hc, Hc'. injection Hc as <-. injection Hc' as <-.
  vm_compute in Hsm, H. congruence.
Qed.

(** ** Incremental transcript updates *)

Section Incremental.

Local Open Scope list_scope.

Implicit Types (w : World) (msg : VapiMessage) (m a b : ArtifactMessage)
  (T : list TranscriptMessage).

Lemma existingId_entryOf m :
  vapiRoutes.existingId (vapiRoutes.entryOf m) = vapiRoutes.messageId m.
Proof.
  unfold vapiRoutes.existingId, vapiRoutes.messageId, vapiRoutes.entryOf.
  cbn [role message time]. unfold vapiRoutes.messageText.
  now rewrite trim_idempotent.
Qed.

Lemma validMessages_single m :
  vapiRoutes.validMessages [m] = [m] \/ vapiRoutes.validMessages [m] = [].
Proof.
  unfold vapiRoutes.validMessages.
  rewrite (filter_cons _ m []), filter_nil.
  destruct (decide (m_role m = "user" \/ m_role m = "bot")); [|now right].
  rewrite (filter_cons _ m []), filter_nil.
  destruct (decide _); [now left | now right].
Qed.

Lemma sort_length {A} (cmp : A -> A -> Z) (l : list A) :
  length (sort cmp l) = length l.
Proof. apply Permutation_length, sort_perm. Qed.

(** The real-time mode on a single message. *)
Lemma extract_single (c : CallEntity) m :
  let T := transcript c in
  let c' := vapiRoutes.extractTranscriptFromMessages c [m] false in
  (length T <? length (transcript c'))%nat = bool_decide (accepts T m)
  /\ (accepts T m -> transcript c' = merged T m).
Proof.
  intros T c'. subst c'. unfold vapiRoutes.extractTranscriptFromMessages, merged.
  cbn [transcript setTranscript]. fold T. rewrite sort_length.
  destruct (decide (accepts T m)) as [Ha|Hna].
  - rewrite !bool_decide_eq_true_2 by exact Ha. destruct Ha as [Hlen Hnin].
    destruct (validMessages_single m) as [Hvm | Hvm]; rewrite Hvm in *;
      [|cbn in Hlen; lia].
    cbn [vapiRoutes.pushNew].
    rewrite bool_decide_eq_false_2 by (now rewrite elem_of_list_to_set).
    rewrite length_app. cbn [length].
    split; [apply Nat.ltb_lt; lia | reflexivity].
  - rewrite !bool_decide_eq_false_2 by exact Hna.
    split; [|contradiction].
    destruct (validMessages_single m) as [Hvm | Hvm]; rewrite Hvm;
      cbn [vapiRoutes.pushNew]; [|apply Nat.ltb_irrefl].
    case_bool_decide as Hin; [apply Nat.ltb_irrefl|].
    exfalso. apply Hna. split; [rewrite Hvm; cbn; lia|].
    now rewrite elem_of_list_to_set in Hin.
Qed.

(** The identifiers of a transcript after a merge. *)
Lemma merged_ids T m (x : string) :
  x ∈ vapiRoutes.existingId <$> merged T m
  <-> x ∈ vapiRoutes.existingId <$> T
      \/ (accepts T m /\ x = vapiRoutes.messageId m).
Proof.
  unfold merged. case_bool_decide as Hacc; [|tauto].
  rewrite (sort_perm vapiRoutes.byTime (T ++ [vapiRoutes.entryOf m])).
  rewrite fmap_app, elem_of_app. cbn [fmap list_fmap].
  rewrite list_elem_of_singleton, existingId_entryOf. tauto.
Qed.

(** Two messages with different identifiers and different times merge
    into the same transcript in either order. *)
Lemma merged_comm T a b :
  vapiRoutes.messageId a <> vapiRoutes.messageId b ->
  vapiRoutes.sortTime (vapiRoutes.entryOf a)
  <> vapiRoutes.sortTime (vapiRoutes.entryOf b) ->
  merged (merged T a) b = merged (merged T b) a.
Proof.
  intros Hid Htime.
  assert (Hb : accepts (merged T a) b <-> accepts T b).
  { unfold accepts. rewrite merged_ids. intuition congruence. }
  assert (Ha : accepts (merged T b) a <-> accepts T a).
  { unfold accepts. rewrite merged_ids. intuition congruence. }
  unfold merged at 1 3.
  rewrite (bool_decide_ext _ _ Hb), (bool_decide_ext _ _ Ha).
  unfold merged.
  destruct (bool_decide (accepts T a)), (bool_decide (accepts T b));
    try reflexivity.
  rewrite (sort_snoc _ (sort _ (T ++ [vapiRoutes.entryOf a]))),
    (sort_snoc _ (sort _ (T ++ [vapiRoutes.entryOf b]))),
    !sort_idempotent, !sort_snoc.
  symmetry. now apply insertSorted_comm.
Qed.

Lemma merged_sorted T m :
  StronglySorted inTimeOrder T -> StronglySorted inTimeOrder (merged T m).
Proof.
  intros Hs. unfold merged. case_bool_decide; [apply sort_sorted | exact Hs].
Qed.

Lemma merged_NoDup T m :
  NoDup (vapiRoutes.existingId <$> T) ->
  NoDup (vapiRoutes.existingId <$> merged T m).
Proof.
  intros Hnd. unfold merged. case_bool_decide as Hacc; [|exact Hnd].
  rewrite (sort_perm vapiRoutes.byTime (T ++ [vapiRoutes.entryOf m])).
  rewrite fmap_app. cbn [fmap list_fmap]. rewrite existingId_entryOf.
  apply NoDup_app. split; [exact Hnd|]. split; [|apply NoDup_singleton].
  intros x Hx Hx'. apply list_elem_of_singleton in Hx'. subst x.
  now destruct Hacc.
Qed.

(** [handleConversationUpdate] on an update of a single message. *)
Lemma conversation_run msg v w cid row m :
  call msg = Some v -> v <> EmptyString ->
  vapiRoutes.conversationMessages msg = Some [m] ->
  carriedBy v cid w -> calls w !! cid = Some row ->
  let w' := exec (vapiRoutes.handleConversationUpdate msg) w in
  carriedBy v cid w'
  /\ exists row', calls w' !! cid = Some row'
                  /\ row_transcript row' = merged (row_transcript row) m.
Proof.
  intros Hv Hne Hm [(row0 & Hrow0 & Hvr) Huniq] Hrow w'.
  rewrite Hrow in Hrow0. injection Hrow0 as <-.
  assert (Ht : Js.truthy (Some v) = true)
    by (simpl; now apply negb_true_iff, String.eqb_neq).
  assert (Hfound := getByVapiCallId_unique v w cid row Hrow Hvr Huniq).
  destruct (extract_single (rowToCall cid row) m) as [Hlen Htr].
  cbv zeta in Hlen, Htr. cbn [transcript rowToCall] in Hlen, Htr.
  assert (Hw' : w' = if bool_decide (accepts (row_transcript row) m)
                     then {| calls := <[cid := callToRow
                               (setUpdatedAt (clock w (reads w))
                                  (vapiRoutes.extractTranscriptFromMessages
                                     (rowToCall cid row) [m] false))]> (calls w);
                             clock := clock w; reads := S (reads w) |}
                     else w).
  { subst w'. unfold vapiRoutes.handleConversationUpdate.
    rewrite Hv, Ht. cbn [negb]. change (default EmptyString (Some v)) with v.
    rewrite exec_bind, getByVapiCallId_world, Hfound. cbn [fst]. rewrite Hm.
    change (transcript (rowToCall cid row)) with (row_transcript row).
    rewrite Hlen. destruct (bool_decide (accepts (row_transcript row) m)).
    - unfold when. rewrite exec_bind. unfold exec.
      erewrite save_run by (cbn; exact Hrow). reflexivity.
    - reflexivity. }
  rewrite Hw'. clear Hw' w'. unfold merged.
  destruct (bool_decide (accepts (row_transcript row) m)) eqn:Hacc.
  - apply bool_decide_eq_true in Hacc. specialize (Htr Hacc).
    unfold merged in Htr. rewrite bool_decide_eq_true_2 in Htr by exact Hacc.
    cbn [calls].
    split; [split|].
    + eexists. split; [apply lookup_insert_eq|]. norm_cbn. rewrite Hvr.
      now rewrite !(strOrUndefined_truthy _ Ht).
    + intros k r Hk Hkv. destruct (decide (k = cid)) as [->|Hk']; [reflexivity|].
      cbn [calls] in Hk. rewrite lookup_insert_ne in Hk by congruence. eauto.
    + eexists. split; [apply lookup_insert_eq|]. exact Htr.
  - split; [split; [eauto | exact Huniq] | eauto].
Qed.

End Incremental.

(** C9, as the code has it.  The route does not handle
    [conversation-update] webhooks: whatever their order, they leave the
    table as it is.  [handleConversationUpdate] itself, on two updates of
    one message each, leaves the same transcript in either order when the
    two messages differ in their identifier (role, lower-cased text, time
    or zero) and in the time they sort by; that transcript has no
    duplicate identifier if the one before had none, and is sorted by time
    if the one before was. *)
Theorem incremental_updates_commute (w : World) (v cid : string)
    (msgA msgB : VapiMessage) (a b : ArtifactMessage) (row : CallRow) :
  v <> EmptyString -> carriedBy v cid w -> calls w !! cid = Some row ->
  call msgA = Some v -> vapiRoutes.conversationMessages msgA = Some [a] ->
  call msgB = Some v -> vapiRoutes.conversationMessages msgB = Some [b] ->
  vapiRoutes.messageId a <> vapiRoutes.messageId b ->
  vapiRoutes.sortTime (vapiRoutes.entryOf a)
  <> vapiRoutes.sortTime (vapiRoutes.entryOf b) ->
  let handle := vapiRoutes.handleConversationUpdate in
  let T := merged (merged (row_transcript row) a) b in
  (transcript <$> recordOf cid (exec (handle msgB) (exec (handle msgA) w))
   = Some T)
  /\ (transcript <$> recordOf cid (exec (handle msgA) (exec (handle msgB) w))
      = Some T)
  /\ (NoDup (vapiRoutes.existingId <$> row_transcript row) ->
      NoDup (vapiRoutes.existingId <$> T))
  /\ (StronglySorted inTimeOrder (row_transcript row) ->
      StronglySorted inTimeOrder T)
  /\ (type msgA = "conversation-update" -> exec (vapiRoutes.webhook msgA) w = w).
Proof.
  intros Hne Hcar Hrow HvA HmA HvB HmB Hid Htime handle T.
  destruct (conversation_run msgA v w cid row a HvA Hne HmA Hcar Hrow)
    as (HcarA & rowA & HrowA & HtrA).
  destruct (conversation_run msgB v _ cid rowA b HvB Hne HmB HcarA HrowA)
    as (_ & rowAB & HrowAB & HtrAB).
  destruct (conversation_run msgB v w cid row b HvB Hne HmB Hcar Hrow)
    as (HcarB & rowB & HrowB & HtrB).
  destruct (conversation_run msgA v _ cid rowB a HvA Hne HmA HcarB HrowB)
    as (_ & rowBA & HrowBA & HtrBA).
  cbv zeta in *. subst handle T.
  rewrite !recordOf_lookup, HrowAB, HrowBA. cbn.
  rewrite HtrAB, HtrA, HtrBA, HtrB.
  split; [reflexivity|].
  split; [now rewrite (merged_comm _ a b Hid Htime)|].
  split; [intros Hnd; now apply merged_NoDup, merged_NoDup|].
  split; [intros Hs; now apply merged_sorted, merged_sorted|].
  intros Hty. unfold vapiRoutes.webhook. rewrite Hty. reflexivity.
Qed.

Lemma incremental_updates_commute_witness :
  let w := sampleWorld [("c1", sampleRow IN_PROGRESS GREETING [] None
                                 1699999200000)] in
  let a := said "user" "yes I'm interested" (Some 1) None in
  let b := said "bot" "great, one moment" (Some 2) None in
  let handle := vapiRoutes.handleConversationUpdate in
  transcript <$> recordOf "c1" (exec (handle (conversationUpdate [b]))
                                  (exec (handle (conversationUpdate [a])) w))
  = transcript <$> recordOf "c1" (exec (handle (conversationUpdate [a]))
                                    (exec (handle (conversationUpdate [b])) w)).
Proof.
  intros w a b handle.
  destruct (incremental_updates_commute w "v1" "c1"
              (conversationUpdate [a]) (conversationUpdate [b]) a b
              (sampleRow IN_PROGRESS GREETING [] None 1699999200000))
    as (Hab & Hba & _);
    [discriminate | | reflexivity | reflexivity | reflexivity | reflexivity
    | reflexivity | vm_compute; discriminate | vm_compute; discriminate |].
  - split; [eexists; split; reflexivity|].
    intros k r Hk _. simpl in Hk.
    apply lookup_insert_Some in Hk as [[<- _] | [_ Hk]]; [reflexivity|].
    rewrite lookup_empty in Hk. discriminate Hk.
  - cbv zeta in Hab, Hba. unfold handle. now rewrite Hab, Hba.
Defined.

(** C9, as the claim states it, fails for [handleConversationUpdate]: two
    messages without a time sort to the same place and stay in the order
    of their arrival, so that the two orders of delivery leave different
    transcripts. *)
Lemma incremental_updates_order_matters :
  ~ (forall w a b c1 c2,
       let handle := vapiRoutes.handleConversationUpdate in
       recordOf "c1" (exec (handle (conversationUpdate [b]))
                        (exec (handle (conversationUpdate [a])) w)) = Some c1 ->
       recordOf "c1" (exec (handle (conversationUpdate [a]))
                        (exec (handle (conversationUpdate [b])) w)) = Some c2 ->
       transcript c1 = transcript c2).
Proof.
  intros H.
  pose (w := run [StartCall "c1" (mkLeadData "Ada" "Byron" "+15551234567"
                                    "Travis" "TX" (Some 5) None) (inl "v1");
                  Webhook (statusUpdate "in-progress" None None)] emptyWorld).
  pose (a := said "user" "hello" None None).
  pose (b := said "bot" "hi, this is Alex" None None).
  specialize (H w a b). cbv zeta in H.
  destruct (recordOf "c1" (exec _ (exec (_ (conversationUpdate [a])) w)))
    as [c1|] eqn:H1; [|vm_compute in H1; discriminate].
  destruct (recordOf "c1" (exec _ (exec (_ (conversationUpdate [b])) w)))
    as [c2|] eqn:H2; [|vm_compute in H2; discriminate].
  specialize (H c1 c2 eq_refl eq_refl).
  vm_compute in H1, H2. injection H1 as <-. injection H2 as <-.
  vm_compute in H. discriminate H.
Qed.

(** ** Conversation state and completion *)

Section Lockstep.

Variable clk : nat -> Z.
Hypothesis clk_nonzero : forall n, clk n <> 0.

Implicit Types (w : World) (cid : string) (row : CallRow) (c : CallEntity).

Lemma hoare_ret {A} (P : World -> Prop) (a : A) :
  hoare P (ret a) (fun _ => P).
Proof. intros w H. exact H. Qed.

Lemma hoare_bind {A B} (P : World -> Prop) (Q : A -> World -> Prop)
    (R : B -> World -> Prop) (m : M A) (k : A -> M B) :
  hoare P m Q -> (forall a, hoare (Q a) (k a) R) -> hoare P (bind m k) R.
Proof.
  intros Hm Hk w HP. unfold bind. specialize (Hm w HP).
  destruct (m w) as [a w1]. exact (Hk a w1 Hm).
Qed.

Lemma hoare_weaken {A} (P : World -> Prop) (Q Q' : A -> World -> Prop)
    (m : M A) :
  hoare P m Q -> (forall a w, Q a w -> Q' a w) -> hoare P m Q'.
Proof. intros Hm HQ w HP. apply HQ, Hm, HP. Qed.

Lemma rowOK_view cid row : rowOK row -> entityOK (rowToCall cid row).
Proof.
  unfold rowOK, entityOK. cbn [state status completedAt rowToCall].
  now rewrite numOrUndefined_idem.
Qed.

Lemma good_insert w cid row n :
  good clk w -> rowOK row ->
  good clk {| calls := <[cid := row]> (calls w); clock := clock w; reads := n |}.
Proof.
  intros [Hc Ht] Hrow. split; [exact Hc|]. cbn [calls]. intros k r Hk.
  apply lookup_insert_Some in Hk as [[_ <-] | [_ Hk]]; [exact Hrow | eauto].
Qed.

Lemma good_reads w n :
  good clk w -> good clk {| calls := calls w; clock := clock w; reads := n |}.
Proof. intros [Hc Ht]. split; assumption. Qed.

Lemma spec_get cid :
  hoare (good clk) (callService.get cid)
    (fun r w => good clk w /\ forall c, r = Some c -> entityOK c).
Proof.
  intros w Hg. rewrite get_run. cbn [fst snd]. split; [exact Hg|].
  intros c Hc. destruct (calls w !! cid) as [row|] eqn:Hrow; [|discriminate].
  injection Hc as <-. apply rowOK_view. destruct Hg as [_ Ht]. eauto.
Qed.

Lemma spec_getByVapiCallId v :
  hoare (good clk) (callService.getByVapiCallId v)
    (fun r w => good clk w /\ forall c, r = Some c -> entityOK c).
Proof.
  intros w Hg. split; [exact Hg|]. intros c Hc.
  destruct (callService.getByVapiCallId v w) as [r w'] eqn:E. cbn [fst] in Hc.
  subst r. destruct (getByVapiCallId_found _ _ _ _ E) as (_ & row & Hrow & -> & _).
  apply rowOK_view. destruct Hg as [_ Ht]. eauto.
Qed.

Lemma spec_save c :
  entityOK c -> hoare (good clk) (callService.save c) (fun _ => good clk).
Proof.
  intros Hc w Hg. unfold callService.save, updateRow, newDate, bind, ret.
  cbn [fst snd calls clock reads]. change (id (setUpdatedAt _ c)) with (id c).
  destruct (calls w !! id c).
  - apply (good_insert w); [exact Hg | exact Hc].
  - apply (good_reads w), Hg.
Qed.

Lemma spec_updateStatus cid s e :
  hoare (good clk) (callService.updateStatus cid s e) (fun _ => good clk).
Proof.
  intros w Hg. destruct (calls w !! cid) as [row|] eqn:Hrow.
  - destruct (updateStatus_run cid s e w row Hrow)
      as (st' & err' & started' & completed' & upd' & n' & Hrun & _ & _ & Hco).
    cbv zeta in Hrun. rewrite Hrun. cbn [snd].
    apply (good_insert w); [exact Hg|].
    assert (Hok : entityOK (rowToCall cid row))
      by (apply rowOK_view; destruct Hg as [_ Ht]; eauto).
    destruct Hg as [Hclock _]. rewrite Hclock in Hco.
    unfold rowOK, entityOK, lockstep in *.
    cbn [current_state row_status ended_at callToRow state status completedAt] in *.
    destruct Hco as [(Hs & Hnone & -> & k & ->) | (Hn & -> & ->)].
    + rewrite numOrUndefined_nonzero by apply clk_nonzero. split; [|tauto].
      split; [eauto | reflexivity].
    + cbn [completedAt rowToCall] in *. rewrite numOrUndefined_idem in *.
      destruct Hok as [Hiff Himp]. split; [exact Hiff|].
      intros Hs. apply Hiff.
      destruct (Js.numOrUndefined (ended_at row)) eqn:E; [eauto|].
      exfalso. apply Hn. split; [exact Hs | reflexivity].
  - unfold callService.updateStatus. unfold bind at 1. rewrite get_run, Hrow.
    exact Hg.
Qed.

Lemma spec_addSummary cid sm :
  hoare (good clk) (callService.addSummary cid sm) (fun _ => good clk).
Proof.
  intros w Hg. destruct (calls w !! cid) as [row|] eqn:Hrow.
  - destruct (addSummary_run cid sm w row Hrow) as (upd' & n' & Hrun).
    rewrite Hrun. cbn [snd]. apply (good_insert w); [exact Hg|].
    apply (rowOK_view cid). destruct Hg as [_ Ht]. eauto.
  - unfold callService.addSummary. unfold bind at 1. rewrite get_run, Hrow.
    exact Hg.
Qed.

Lemma spec_summarize cid artifact :
  hoare (good clk) (vapiRoutes.summarize cid artifact) (fun _ => good clk).
Proof.
  unfold vapiRoutes.summarize. eapply hoare_bind; [apply spec_get|].
  intros [u|] w [Hg _]; [now apply spec_addSummary | exact Hg].
Qed.

Lemma hoare_seq {A B} (P : World -> Prop) (R : B -> World -> Prop)
    (m : M A) (k : A -> M B) :
  hoare P m (fun _ => P) -> (forall a, hoare P (k a) R) -> hoare P (bind m k) R.
Proof. intros Hm Hk. eapply hoare_bind; [exact Hm | exact Hk]. Qed.

Lemma hoare_when (P : World -> Prop) (b : bool) (body : M unit) :
  hoare P body (fun _ => P) -> hoare P (when b body) (fun _ => P).
Proof. intros H. destruct b; [exact H | apply hoare_ret]. Qed.

Lemma hoare_forEach {A} (P : World -> Prop) (l : list A) (body : A -> M unit) :
  (forall x, hoare P (body x) (fun _ => P)) ->
  hoare P (forEach l body) (fun _ => P).
Proof.
  intros H. induction l as [|x l IH]; [apply hoare_ret|].
  cbn [forEach]. apply hoare_seq; [apply H | intros _; exact IH].
Qed.

Lemma spec_newDate : hoare (good clk) newDate (fun _ => good clk).
Proof. intros w Hg. apply (good_reads w), Hg. Qed.

Lemma spec_create uuid ph ld :
  hoare (good clk) (callService.create uuid ph ld)
    (fun r w => good clk w /\ forall c, r = Some c -> entityOK c).
Proof.
  intros w Hg. unfold callService.create, insertRow, newDate, bind, ret.
  cbn [fst snd calls clock reads].
  assert (Hok : lockstep GREETING PENDING (Js.numOrUndefined None)).
  { split; [split; [discriminate | intros [? [=]]] | intros [|]; discriminate]. }
  destruct (calls w !! uuid); cbn [fst snd].
  - split; [apply (good_reads w), Hg | discriminate].
  - split; [apply (good_insert w); [exact Hg | exact Hok]|].
    intros c [= <-]. exact Hok.
Qed.

Lemma spec_handleStatusUpdate msg :
  hoare (good clk) (vapiRoutes.handleStatusUpdate msg) (fun _ => good clk).
Proof.
  unfold vapiRoutes.handleStatusUpdate.
  destruct (negb _ || negb _); [apply hoare_ret|].
  eapply hoare_bind; [apply spec_getByVapiCallId|].
  intros [call|] w [Hg Hok]; [|exact Hg].
  specialize (Hok call eq_refl). revert w Hg.
  change (hoare (good clk)
    (if String.eqb (default EmptyString (ev_status msg)) "queued"
     then callService.updateStatus (id call) CALLING None
     else if String.eqb (default EmptyString (ev_status msg)) "ringing"
     then callService.updateStatus (id call) CALLING None
     else if String.eqb (default EmptyString (ev_status msg)) "in-progress"
     then callService.updateStatus (id call) IN_PROGRESS None
     else if String.eqb (default EmptyString (ev_status msg)) "ended"
     then
       (match artifact msg ≫= messages with
        | Some msgs =>
            callService.save
              (vapiRoutes.extractTranscriptFromMessages
                 (setTranscript [] call) msgs true) ;; ret tt
        | None => ret tt
        end) ;;
       callService.updateStatus (id call)
         (vapiRoutes.finalStatus (Js.orDefault (endedReason msg) "completed"))
         (vapiRoutes.endedErrorMessage
            (vapiRoutes.finalStatus (Js.orDefault (endedReason msg) "completed"))
            (Js.orDefault (endedReason msg) "completed")) ;;
       vapiRoutes.summarize (id call) (artifact msg)
     else if String.eqb (default EmptyString (ev_status msg)) "failed"
             || String.eqb (default EmptyString (ev_status msg)) "busy"
             || String.eqb (default EmptyString (ev_status msg)) "no-answer"
     then
       callService.updateStatus (id call)
         (if String.eqb (default EmptyString (ev_status msg)) "no-answer"
          then NO_ANSWER else FAILED)
         (Some (vapiRoutes.failedErrorMessage (default EmptyString (ev_status msg))
                  (endedReason msg))) ;;
       vapiRoutes.summarize (id call) None
     else ret tt)
    (fun _ => good clk)).
  repeat match goal with
  | |- hoare _ (if ?b then _ else _) _ => destruct b
  end; try apply spec_updateStatus; try apply hoare_ret.
  - apply hoare_seq.
    + destruct (artifact msg ≫= messages) as [msgs|]; [|apply hoare_ret].
      apply hoare_seq; [apply spec_save; exact Hok | intros _; apply hoare_ret].
    + intros _. apply hoare_seq; [apply spec_updateStatus|].
      intros _. apply spec_summarize.
  - apply hoare_seq; [apply spec_updateStatus | intros _; apply spec_summarize].
Qed.

Lemma spec_handleEndOfCallReport msg :
  hoare (good clk) (vapiRoutes.handleEndOfCallReport msg) (fun _ => good clk).
Proof.
  unfold vapiRoutes.handleEndOfCallReport.
  destruct (negb _); [apply hoare_ret|].
  eapply hoare_bind; [apply spec_getByVapiCallId|].
  intros [call|] w [Hg Hok]; [|exact Hg].
  specialize (Hok call eq_refl). revert w Hg.
  change (hoare (good clk)
    (do call' <-
       (match artifact msg ≫= messages with
        | Some msgs =>
            if (length (transcript call) =? 0)%nat
            then callService.save
                   (vapiRoutes.extractTranscriptFromMessages call msgs true)
            else ret call
        | None => ret call
        end);
     when (negb (Js.isDefined (summary call'))
           && (0 <? length (transcript call'))%nat)
          (vapiRoutes.summarize (id call') (artifact msg)))
    (fun _ => good clk)).
  apply hoare_seq.
  - destruct (artifact msg ≫= messages) as [msgs|]; [|apply hoare_ret].
    destruct (length (transcript call) =? 0)%nat; [|apply hoare_ret].
    apply spec_save. exact Hok.
  - intros call'. apply hoare_when, spec_summarize.
Qed.

Lemma spec_webhook msg :
  hoare (good clk) (vapiRoutes.webhook msg) (fun _ => good clk).
Proof.
  unfold vapiRoutes.webhook.
  destruct (String.eqb _ _); [apply spec_handleStatusUpdate|].
  destruct (String.eqb _ _); [apply spec_handleEndOfCallReport|].
  apply hoare_ret.
Qed.

Lemma spec_start uuid leadData placed :
  hoare (good clk) (callRoutes.start uuid leadData placed) (fun _ => good clk).
Proof.
  unfold callRoutes.start. eapply hoare_bind; [apply spec_create|].
  intros [call|] w [Hg Hok]; [|exact Hg].
  specialize (Hok call eq_refl). revert w Hg.
  change (hoare (good clk)
    (callService.updateStatus (id call) CALLING None ;;
     match placed with
     | inl vapiId =>
         callService.save (setVapiCallId (Some vapiId) call) ;; ret tt
     | inr errorMessage =>
         callService.updateStatus (id call) FAILED
           (Some ("Failed to initiate call: " ++ errorMessage))
     end) (fun _ => good clk)).
  apply hoare_seq; [apply spec_updateStatus|]. intros _.
  destruct placed as [vapiId|errorMessage]; [|apply spec_updateStatus].
  apply hoare_seq; [apply spec_save; exact Hok | intros _; apply hoare_ret].
Qed.

Lemma spec_endCall cid ended :
  hoare (good clk) (callRoutes.endCall cid ended) (fun _ => good clk).
Proof.
  unfold callRoutes.endCall. eapply hoare_bind; [apply spec_get|].
  intros [call|] w [Hg _]; [|exact Hg]. revert w Hg.
  change (hoare (good clk)
    (if Js.truthy (vapiCallId call) && negb ended then ret tt
     else callService.updateStatus cid COMPLETED None) (fun _ => good clk)).
  destruct (_ && _); [apply hoare_ret | apply spec_updateStatus].
Qed.

Lemma spec_generateSummary cid :
  hoare (good clk) (callRoutes.generateSummary cid) (fun _ => good clk).
Proof.
  unfold callRoutes.generateSummary. eapply hoare_bind; [apply spec_get|].
  intros [call|] w [Hg _]; [|exact Hg]. revert w Hg.
  match goal with |- forall w, good clk w -> good clk (?m w).2 =>
    change (hoare (good clk) m (fun _ => good clk)) end.
  destruct (length (transcript call) =? 0)%nat;
    [apply hoare_ret | apply spec_addSummary].
Qed.

Lemma spec_markStaleCallsAsFailed (T : Z) :
  hoare (good clk) (callService.markStaleCallsAsFailed T) (fun _ => good clk).
Proof.
  unfold callService.markStaleCallsAsFailed.
  apply hoare_seq; [apply spec_newDate|]. intros now.
  apply hoare_seq; [intros w Hg; exact Hg|]. intros staleRows.
  apply hoare_seq; [|intros _; apply hoare_ret].
  apply hoare_forEach. intros call.
  apply hoare_seq; [apply spec_updateStatus|]. intros _.
  apply hoare_when, spec_addSummary.
Qed.

Lemma spec_perform (a : Action) :
  hoare (good clk) (perform a) (fun _ => good clk).
Proof.
  destruct a; cbn [perform].
  - apply spec_start.
  - apply spec_endCall.
  - apply spec_generateSummary.
  - apply spec_webhook.
  - apply hoare_seq; [apply spec_markStaleCallsAsFailed|].
    intros _. apply hoare_ret.
Qed.

Lemma reachable_good w : reachable clk w -> good clk w.
Proof.
  induction 1 as [|w a _ IH].
  - split; [reflexivity|]. intros k row Hk. cbn in Hk.
    rewrite lookup_empty in Hk. discriminate.
  - exact (spec_perform a w IH).
Qed.

End Lockstep.

Lemma reachable_run (clk : nat -> Z) (actions : list Action) (w : World) :
  reachable clk w -> reachable clk (run actions w).
Proof.
  revert w. induction actions as [|a l IH]; intros w H; [exact H|].
  cbn [run fold_left]. apply IH. now constructor.
Qed.

(** C4, as the code has it.  In every state the system reaches under a
    clock that never reads 0, the conversation state of a record is [END]
    exactly if its [completedAt] is set, and both hold whenever its status
    is [COMPLETED] or [FAILED]: a transition into [COMPLETED] or [FAILED]
    forces [END] and sets [completedAt].  [END] does not tell that the
    status is terminal, since a later status update overwrites the status
    and leaves the state. *)
Theorem state_completion_lockstep (clk : nat -> Z) (w : World) (cid : string)
    (c : CallEntity) :
  (forall n, clk n <> 0) ->
  reachable clk w ->
  recordOf cid w = Some c ->
  (state c = END <-> is_Some (completedAt c))
  /\ (status c = COMPLETED \/ status c = FAILED ->
      state c = END /\ is_Some (completedAt c)).
Proof.
  intros Hclk Hreach Hc.
  destruct (reachable_good clk Hclk w Hreach) as [_ Ht].
  rewrite recordOf_lookup in Hc.
  destruct (calls w !! cid) as [row|] eqn:Hrow; [|discriminate].
  injection Hc as <-. specialize (Ht cid row Hrow).
  apply (rowOK_view cid) in Ht. unfold entityOK, lockstep in Ht.
  cbn [state status completedAt rowToCall] in *.
  rewrite numOrUndefined_idem in Ht. tauto.
Qed.

Lemma state_completion_lockstep_witness :
  let w := run [StartCall "c1" (mkLeadData "Ada" "Byron" "+15551234567"
                                  "Travis" "TX" (Some 5) None) (inl "v1");
                Webhook (statusUpdate "in-progress" None None);
                Webhook (statusUpdate "ended" (Some "customer-ended-call") None)]
               emptyWorld in
  exists c, recordOf "c1" w = Some c
            /\ status c = COMPLETED /\ state c = END /\ is_Some (completedAt c).
Proof.
  intros w.
  destruct (recordOf "c1" w) as [c|] eqn:Hc; [|vm_compute in Hc; discriminate].
  destruct (state_completion_lockstep (clock emptyWorld) w "c1" c) as [_ H].
  - intros n. simpl. lia.
  - apply reachable_run. constructor.
  - exact Hc.
  - assert (Hst : status c = COMPLETED)
      by (vm_compute in Hc; injection Hc as <-; reflexivity).
    exists c. split; [reflexivity|]. split; [exact Hst|]. apply H. now left.
Defined.

(** C4, as the claim states it, fails: a call is completed, which sets
    its state to [END], and a [queued] status update that arrives late
    sets its status back to [CALLING]: the state is [END] and the status
    is not terminal. *)
Lemma state_END_without_terminal_status :
  ~ (forall clk w cid c,
       reachable clk w -> recordOf cid w = Some c ->
       (state c = END <-> terminal (status c) = true)).
Proof.
  intros H.
  pose (w := run [StartCall "c1" (mkLeadData "Ada" "Byron" "+15551234567"
                                    "Travis" "TX" (Some 5) None) (inl "v1");
                  Webhook (statusUpdate "in-progress" None None);
                  Webhook (statusUpdate "ended" (Some "customer-ended-call") None);
                  Webhook (statusUpdate "queued" None None)] emptyWorld).
  destruct (recordOf "c1" w) as [c|] eqn:Hc; [|vm_compute in Hc; discriminate].
  destruct (H (clock emptyWorld) w "c1" c) as [Hterm _];
    [apply reachable_run; constructor | exact Hc |].
  vm_compute in Hc. injection Hc as <-. specialize (Hterm eq_refl).
  discriminate Hterm.
Qed.

(** * Further properties of the code *)

(** ** The readable form of an end reason *)

Section EndReason.

Lemma includes_char (s : string) (c0 : ascii) :
  (forall c, In c (list_ascii_of_string s) -> c <> c0) ->
  Js.includes s (String c0 EmptyString) = false.
Proof.
  induction s as [|c s IH]; intros H; [reflexivity|].
  cbn [Js.includes String.prefix].
  destruct (ascii_dec c0 c) as [->|Hne].
  - exfalso. apply (H c); [now left | reflexivity].
  - apply IH. intros c' Hc'. apply H. now right.
Qed.

Lemma dashesToSpaces_chars (s : string) (c : ascii) :
  In c (list_ascii_of_string (Js.dashesToSpaces s)) ->
  c <> "-"%char /\ c <> "_"%char.
Proof.
  induction s as [|a s IH]; cbn [Js.dashesToSpaces list_ascii_of_string In];
    [tauto|].
  intros [<- | H]; [|now apply IH].
  destruct (Ascii.eqb_spec a "-") as [->|N1]; [split; discriminate|].
  destruct (Ascii.eqb_spec a "_") as [->|N2]; [split; discriminate|].
  cbn [orb]. now split.
Qed.

Lemma upperChar_keeps_plain (c : ascii) :
  c <> "-"%char -> c <> "_"%char ->
  Js.upperChar c <> "-"%char /\ Js.upperChar c <> "_"%char.
Proof.
  destruct c as [[] [] [] [] [] [] [] []]; intros H1 H2;
    vm_compute; split; intros [=]; first [now apply H1 | now apply H2].
Qed.

Lemma capitalize_chars (s : string) (c : ascii) :
  (forall a, In a (list_ascii_of_string s) -> a <> "-"%char /\ a <> "_"%char) ->
  In c (list_ascii_of_string (Js.capitalize s)) ->
  c <> "-"%char /\ c <> "_"%char.
Proof.
  destruct s as [|a s]; cbn [Js.capitalize list_ascii_of_string In]; [tauto|].
  intros H [<- | Hc].
  - destruct (H a (or_introl eq_refl)). now apply upperChar_keeps_plain.
  - apply H. now right.
Qed.

Lemma substring_all (s : string) : String.substring 0 (String.length s) s = s.
Proof. induction s as [|c s IH]; [reflexivity|]. cbn. now rewrite IH. Qed.

End EndReason.

(** X1.  The message that [formatEndReason] makes of an end reason holds no
    dash and no underscore, whatever the reason is; and of the reason of
    a pipeline error it makes the words [Pipeline error:] followed by the
    rest of the reason with its dashes and underscores turned into
    spaces. *)
Theorem formatEndReason_no_separators (endReason : string) :
  Js.includes (vapiRoutes.formatEndReason endReason) "-" = false
  /\ Js.includes (vapiRoutes.formatEndReason endReason) "_" = false
  /\ vapiRoutes.formatEndReason ("pipeline-error-" ++ endReason)
     = "Pipeline error: " ++ Js.dashesToSpaces endReason.
Proof.
  split; [|split].
  1,2: unfold vapiRoutes.formatEndReason;
    apply includes_char; intros c Hc;
    apply capitalize_chars in Hc; try tauto;
    intros a; apply dashesToSpaces_chars.
  unfold vapiRoutes.formatEndReason, Js.replacePrefix.
  cbv beta iota fix delta [String.append].
  cbn [String.prefix Ascii.ascii_dec ascii_rec ascii_rect sumbool_rec
       sumbool_rect Bool.bool_dec bool_rec bool_rect eq_rec_r eq_rec eq_rect
       eq_sym f_equal String.length Nat.sub String.substring].
  assert (Hp : String.prefix EmptyString endReason = true)
    by now destruct endReason.
  rewrite !Hp.
  cbn [String.prefix Ascii.ascii_dec ascii_rec ascii_rect sumbool_rec
       sumbool_rect Bool.bool_dec bool_rec bool_rect eq_rec_r eq_rec eq_rect
       eq_sym f_equal String.length Nat.sub String.substring].
  rewrite Nat.sub_0_r, substring_all. reflexivity.
Qed.

(** ** Request validation *)

Section Schemas.

Lemma phoneRegex_cons (a : ascii) (s : string) :
  callSchemas.phoneRegex (String a s)
  = if Ascii.eqb a "+"
    then match s with
         | String c rest =>
             callSchemas.isDigit c && negb (Ascii.eqb c "0")
             && callSchemas.allDigits rest
             && (1 <=? String.length rest)%nat && (String.length rest <=? 14)%nat
         | EmptyString => false
         end
    else callSchemas.isDigit a && negb (Ascii.eqb a "0")
         && callSchemas.allDigits s
         && (1 <=? String.length s)%nat && (String.length s <=? 14)%nat.
Proof. destruct a as [[] [] [] [] [] [] [] []]; reflexivity. Qed.

End Schemas.

(** X2.  The phone numbers that [phoneSchema] accepts are the strings of ten to
    fifteen characters made of a digit other than 0 and further digits,
    with or without a plus sign in front: the sign counts among the
    fifteen characters, so that a number written with it has fourteen
    digits at most. *)
Theorem phoneSchema_accepts (s : string) :
  callSchemas.phoneSchema s = true
  <-> exists c rest,
        (s = String c rest \/ s = String "+" (String c rest))
        /\ callSchemas.isDigit c = true /\ c <> "0"%char
        /\ callSchemas.allDigits rest = true
        /\ (10 <= String.length s <= 15)%nat.
Proof.
  unfold callSchemas.phoneSchema. split.
  - intros H. apply andb_true_iff in H as [H Hre].
    apply andb_true_iff in H as [Hlo Hhi].
    apply Nat.leb_le in Hlo, Hhi.
    destruct s as [|a s]; [discriminate|]. rewrite phoneRegex_cons in Hre.
    destruct (Ascii.eqb_spec a "+") as [->|Hne].
    + destruct s as [|c rest]; [discriminate|].
      do 4 (apply andb_true_iff in Hre as [Hre ?]).
      exists c, rest. split; [now right|]. split; [exact Hre|].
      split; [|split; [assumption | lia]].
      intros ->. discriminate.
    + do 4 (apply andb_true_iff in Hre as [Hre ?]).
      exists a, s. split; [now left|]. split; [exact Hre|].
      split; [|split; [assumption | lia]].
      intros ->. discriminate.
  - intros (c & rest & Hs & Hd & Hz & Hrest & Hlen).
    assert (Hnz : negb (Ascii.eqb c "0") = true)
      by (apply negb_true_iff, Ascii.eqb_neq, Hz).
    destruct Hs as [-> | ->]; rewrite phoneRegex_cons.
    + destruct (Ascii.eqb_spec c "+") as [->|_]; [discriminate Hd|].
      rewrite Hd, Hnz, Hrest. cbn [String.length] in *.
      repeat (apply andb_true_intro; split); try reflexivity;
        apply Nat.leb_le; lia.
    + cbn [Ascii.eqb Bool.eqb]. rewrite Hd, Hnz, Hrest.
      cbn [String.length] in *.
      repeat (apply andb_true_intro; split); try reflexivity;
        apply Nat.leb_le; lia.
Qed.

Lemma phoneSchema_accepts_witness :
  callSchemas.phoneSchema "+15551234567" = true
  /\ callSchemas.phoneSchema "+123456789012345" = false.
Proof.
  split.
  - apply (proj2 (phoneSchema_accepts "+15551234567")).
    exists "1"%char, "5551234567". split; [now right|].
    split; [reflexivity|]. split; [discriminate|]. split; [reflexivity|].
    simpl; lia.
  - reflexivity.
Defined.

(** ** Records written and read back *)

Section Records.

Implicit Types (w : World) (cid : string) (row : CallRow) (c : CallEntity).

Lemma orDefault_nonempty (s d : string) :
  s <> EmptyString -> Js.orDefault (Some s) d = s.
Proof.
  intros H. unfold Js.orDefault.
  now destruct (String.eqb_spec s EmptyString).
Qed.

Lemma lengthBetween_nonempty (hi : nat) (s : string) :
  callSchemas.lengthBetween 1 hi s = true -> s <> EmptyString.
Proof. intros H ->. discriminate H. Qed.

Lemma value_bind {A B} (m : M A) (k : A -> M B) w :
  (bind m k w).1 = (k (m w).1 (exec m w)).1.
Proof. unfold exec, bind. now destruct (m w). Qed.

End Records.

(** X3.  A lead that passed [leadDataSchema] is read back as it was given from
    the record that [callService.create] inserts for it under an unused
    identifier, but for an empty property address, which is dropped; the
    record is [PENDING] in the state [GREETING], with an empty transcript
    and no summary, Vapi identifier, error message, start or completion
    time. *)
Theorem validated_lead_read_back (w : World) (uuid : string)
    (body ld : LeadData) :
  callSchemas.leadDataSchema body = Some ld ->
  calls w !! uuid = None ->
  recordOf uuid (exec (callService.create uuid (leadPhone ld) (Some ld)) w)
  = Some {| id := uuid; phone := leadPhone ld; state := GREETING;
            status := PENDING; transcript := [];
            leadData := Some {| firstName := firstName ld;
                                lastName := lastName ld;
                                leadPhone := leadPhone ld;
                                county := county ld;
                                leadState := leadState ld;
                                acreage := acreage ld;
                                propertyAddress :=
                                  Js.strOrUndefined (propertyAddress ld) |};
            summary := None; vapiCallId := None; errorMessage := None;
            startedAt := None; completedAt := None;
            createdAt := clock w (reads w); updatedAt := clock w (reads w) |}.
Proof.
  intros Hvalid Hfresh. unfold callSchemas.leadDataSchema in Hvalid.
  destruct (_ && _) eqn:E in Hvalid; [|discriminate].
  injection Hvalid as <-.
  apply andb_true_iff in E as [E _]. apply andb_true_iff in E as [E Hacre].
  apply andb_true_iff in E as [E Hstate]. apply andb_true_iff in E as [E Hcounty].
  apply andb_true_iff in E as [E _]. apply andb_true_iff in E as [Hfirst _].
  unfold callService.create, insertRow, newDate, bind, ret, exec.
  cbn [fst snd calls clock reads]. rewrite Hfresh. cbn [fst snd].
  rewrite recordOf_lookup. cbn [calls]. rewrite lookup_insert_eq.
  cbn [fmap option_fmap option_map]. unfold rowToCall, callToRow. norm_cbn.
  rewrite (orDefault_nonempty (firstName body))
    by (eapply lengthBetween_nonempty; exact Hfirst).
  rewrite (orDefault_nonempty (county body))
    by (eapply lengthBetween_nonempty; exact Hcounty).
  rewrite (orDefault_nonempty (leadState body)).
  2: { intros Hs. rewrite Hs in Hstate. discriminate Hstate. }
  rewrite strOrUndefined_idem.
  assert (Hlast : Js.orDefault (Some (lastName body)) EmptyString = lastName body).
  { unfold Js.orDefault.
    destruct (String.eqb_spec (lastName body) EmptyString) as [->|]; reflexivity. }
  rewrite Hlast.
  assert (Ha : Js.numOrUndefined (Js.numOrUndefined (acreage body)) = acreage body).
  { destruct (acreage body) as [a|]; [|reflexivity].
    apply Z.ltb_lt in Hacre. rewrite !numOrUndefined_nonzero by lia. reflexivity. }
  rewrite Ha. reflexivity.
Qed.

Lemma validated_lead_read_back_witness :
  let ld := mkLeadData "Ada" "Byron" "+15551234567" "Travis" "TX" (Some 5)
              (Some EmptyString) in
  exists c, recordOf "c1" (exec (callService.create "c1" (leadPhone ld) (Some ld))
                             emptyWorld) = Some c
            /\ (leadData c ≫= propertyAddress) = None
            /\ status c = PENDING.
Proof.
  intros ld. eexists. split.
  - apply (validated_lead_read_back emptyWorld "c1" ld ld); reflexivity.
  - split; reflexivity.
Defined.

(** X4.  The service does nothing on an identifier that has no record:
    [get] finds nothing, [updateStatus], [updateState] and [addSummary]
    return without a change or a reading of the clock, and [save] of an
    entity with that identifier inserts no row. *)
Theorem unknown_id_changes_nothing (w : World) (cid : string) :
  calls w !! cid = None ->
  callService.get cid w = (None, w)
  /\ (forall s e, callService.updateStatus cid s e w = (tt, w))
  /\ (forall st, callService.updateState cid st w = (tt, w))
  /\ (forall sm, callService.addSummary cid sm w = (tt, w))
  /\ (forall c, id c = cid -> calls (exec (callService.save c) w) = calls w).
Proof.
  intros H. split; [rewrite get_run, H; reflexivity|].
  split; [|split; [|split]].
  - intros s e. unfold callService.updateStatus. unfold bind at 1.
    now rewrite get_run, H.
  - intros st. unfold callService.updateState. unfold bind at 1.
    now rewrite get_run, H.
  - intros sm. unfold callService.addSummary. unfold bind at 1.
    now rewrite get_run, H.
  - intros c <-. unfold callService.save, updateRow, newDate, bind, ret, exec.
    cbn [fst snd calls]. change (id (setUpdatedAt _ c)) with (id c).
    now rewrite H.
Qed.

Lemma unknown_id_changes_nothing_witness :
  callService.updateStatus "c9" FAILED (Some "gone") emptyWorld = (tt, emptyWorld).
Proof.
  apply (proj1 (proj2 (unknown_id_changes_nothing emptyWorld "c9" eq_refl))).
Defined.

(** X5.  Saving a record as it was read changes its [updatedAt] and nothing
    else, when the lead's first name, county and state are not empty:
    [save] then [get] gives the record read with the new time stamp. *)
Theorem read_save_read (w : World) (cid : string) (c : CallEntity) :
  recordOf cid w = Some c ->
  (forall l, leadData c = Some l ->
     firstName l <> EmptyString /\ county l <> EmptyString
     /\ leadState l <> EmptyString) ->
  recordOf cid (exec (callService.save c) w)
  = Some (setUpdatedAt (clock w (reads w)) c).
Proof.
  rewrite recordOf_lookup.
  destruct (calls w !! cid) as [row|] eqn:Hrow; [|discriminate].
  intros [= <-] Hlead.
  destruct (Hlead _ eq_refl) as (Hf & Hc & Hs). cbn [firstName county leadState] in *.
  unfold exec. erewrite save_run by (cbn; exact Hrow). cbn [snd].
  rewrite recordOf_lookup. cbn [calls]. change (id (rowToCall cid row)) with cid.
  rewrite lookup_insert_eq. cbn [fmap option_fmap option_map].
  unfold setUpdatedAt, rowToCall, callToRow. norm_cbn.
  rewrite !strOrUndefined_idem, !numOrUndefined_idem.
  rewrite (orDefault_nonempty (lead_first_name row)) by assumption.
  rewrite (orDefault_nonempty (lead_county row)) by assumption.
  rewrite (orDefault_nonempty (lead_state row)) by assumption.
  assert (Hlast : Js.orDefault (Some (lead_last_name row)) EmptyString
                  = lead_last_name row).
  { unfold Js.orDefault.
    destruct (String.eqb_spec (lead_last_name row) EmptyString) as [->|];
      reflexivity. }
  now rewrite Hlast.
Qed.

Lemma read_save_read_witness :
  let w := sampleWorld [("c1", sampleRow IN_PROGRESS GREETING [] None
                                 1699999200000)] in
  exists c, recordOf "c1" w = Some c
            /\ recordOf "c1" (exec (callService.save c) w)
               = Some (setUpdatedAt 1700000000000 c).
Proof.
  intros w. eexists. split; [reflexivity|].
  apply (read_save_read w "c1"); [reflexivity|].
  intros l [= <-]. repeat split; discriminate.
Defined.

(** ** Records after the operations of the service *)

Section RecordViews.

Implicit Types (w : World) (cid : string) (row : CallRow) (c : CallEntity).

(** The fields of a record that a row conversion leaves as they are. *)
Lemma view_normal cid row :
  let c := rowToCall cid row in
  Js.strOrUndefined (vapiCallId c) = vapiCallId c
  /\ Js.strOrUndefined (errorMessage c) = errorMessage c
  /\ Js.numOrUndefined (startedAt c) = startedAt c
  /\ Js.numOrUndefined (completedAt c) = completedAt c.
Proof.
  cbn [rowToCall vapiCallId errorMessage startedAt completedAt].
  now rewrite !strOrUndefined_idem, !numOrUndefined_idem.
Qed.

Lemma strOrUndefined_choice (b : bool) (e o : option string) :
  Js.strOrUndefined o = o ->
  Js.strOrUndefined (if b && Js.truthy e then e else o)
  = (if b && Js.truthy e then e else o).
Proof.
  intros Ho. destruct b; [|exact Ho]. cbn [andb].
  destruct (Js.truthy e) eqn:E; [now apply strOrUndefined_truthy | exact Ho].
Qed.

(** The record after [updateStatus], field by field. *)
Lemma updateStatus_record cid s e w c :
  recordOf cid w = Some c ->
  exists c',
    let w' := exec (callService.updateStatus cid s e) w in
    recordOf cid w' = Some c'
    /\ (forall k, k <> cid -> calls w' !! k = calls w !! k)
    /\ clock w' = clock w
    /\ status c' = s /\ phone c' = phone c /\ transcript c' = transcript c
    /\ summary c' = summary c /\ vapiCallId c' = vapiCallId c
    /\ createdAt c' = createdAt c
    /\ leadData c' = leadData (rowToCall cid (callToRow c))
    /\ errorMessage c' = (if bool_decide (s = FAILED) && Js.truthy e then e
                          else errorMessage c)
    /\ ((s = IN_PROGRESS /\ startedAt c = None
         /\ exists k, startedAt c' = Js.numOrUndefined (Some (clock w k)))
        \/ (~ (s = IN_PROGRESS /\ startedAt c = None)
            /\ startedAt c' = startedAt c))
    /\ (((s = COMPLETED \/ s = FAILED) /\ completedAt c = None
         /\ state c' = END
         /\ exists k, completedAt c' = Js.numOrUndefined (Some (clock w k)))
        \/ (~ ((s = COMPLETED \/ s = FAILED) /\ completedAt c = None)
            /\ state c' = state c /\ completedAt c' = completedAt c)).
Proof.
  rewrite recordOf_lookup. destruct (calls w !! cid) as [row|] eqn:Hrow;
    [|discriminate]. intros [= <-].
  destruct (updateStatus_run cid s e w row Hrow)
    as (st' & err' & started' & completed' & upd' & n' & Hrun & Herr & Hsta & Hco).
  cbv zeta in Hrun, Hsta, Hco.
  destruct (view_normal cid row) as (Hv & He & Hs & Hc). cbv zeta in Hv, He, Hs, Hc.
  eexists. cbv zeta. unfold exec. rewrite Hrun. cbn [snd].
  rewrite recordOf_lookup. cbn [calls clock]. rewrite lookup_insert_eq.
  cbn [fmap option_fmap option_map]. split; [reflexivity|].
  split; [intros k Hk; now rewrite lookup_insert_ne|].
  split; [reflexivity|].
  rewrite view_of_saved.
  cbn [status phone transcript summary vapiCallId createdAt leadData
       errorMessage startedAt completedAt state].
  do 4 (split; [reflexivity|]).
  split; [now rewrite !Hv|].
  split; [reflexivity|].
  split.
  { match goal with |- context [leadData (rowToCall cid (callToRow ?x))] =>
      apply (leadData_view_ext cid cid x (rowToCall cid row) eq_refl eq_refl)
    end. }
  split.
  { rewrite Herr, strOrUndefined_idem. now apply strOrUndefined_choice. }
  split.
  - destruct Hsta as [(H1 & H2 & k & ->) | (H1 & ->)].
    + left. eauto.
    + right. split; [exact H1 | exact Hs].
  - destruct Hco as [(H1 & H2 & -> & k & ->) | (H1 & -> & ->)].
    + left. eauto 10.
    + right. split; [exact H1|]. split; [reflexivity | exact Hc].
Qed.

(** The record after [summarize]: the summary is generated from the record
    as it was, and the time stamp apart nothing else changes. *)
Lemma summarize_record cid artifact w c :
  recordOf cid w = Some c ->
  exists c',
    let w' := exec (vapiRoutes.summarize cid artifact) w in
    recordOf cid w' = Some c'
    /\ (forall k, k <> cid -> calls w' !! k = calls w !! k)
    /\ clock w' = clock w
    /\ summary c' = Some (vapiRoutes.generateCallSummary c artifact)
    /\ status c' = status c /\ state c' = state c /\ phone c' = phone c
    /\ transcript c' = transcript c /\ vapiCallId c' = vapiCallId c
    /\ createdAt c' = createdAt c
    /\ leadData c' = leadData (rowToCall cid (callToRow c))
    /\ errorMessage c' = errorMessage c
    /\ startedAt c' = startedAt c /\ completedAt c' = completedAt c.
Proof.
  rewrite recordOf_lookup. destruct (calls w !! cid) as [row|] eqn:Hrow;
    [|discriminate]. intros [= <-].
  destruct (summarize_run cid artifact w row Hrow) as (upd' & n' & Hrun).
  cbv zeta in Hrun.
  destruct (view_normal cid row) as (Hv & He & Hs & Hc). cbv zeta in Hv, He, Hs, Hc.
  eexists. cbv zeta. unfold exec. rewrite Hrun. cbn [snd].
  rewrite recordOf_lookup. cbn [calls clock]. rewrite lookup_insert_eq.
  cbn [fmap option_fmap option_map]. split; [reflexivity|].
  split; [intros k Hk; now rewrite lookup_insert_ne|].
  split; [reflexivity|].
  unfold setUpdatedAt, setSummary. rewrite view_of_saved.
  cbn [status phone transcript summary vapiCallId createdAt leadData
       errorMessage startedAt completedAt state].
  do 5 (split; [reflexivity|]).
  split; [now rewrite !Hv|].
  split; [reflexivity|].
  split.
  { match goal with |- context [leadData (rowToCall cid (callToRow ?x))] =>
      apply (leadData_view_ext cid cid x (rowToCall cid row) eq_refl eq_refl)
    end. }
  split; [now rewrite !He|].
  split; [exact Hs | exact Hc].
Qed.

End RecordViews.

(** ** Status updates that report a failure *)

Section FailureSignals.

Implicit Types (w : World) (cid : string) (row : CallRow) (c : CallEntity).

Lemma found_record v w c :
  callService.getByVapiCallId v w = (Some c, w) -> recordOf (id c) w = Some c.
Proof.
  intros H. destruct (getByVapiCallId_found _ _ _ _ H) as (_ & row & Hrow & Hc & _).
  rewrite recordOf_lookup, Hrow. cbn. now rewrite <- Hc.
Qed.

Lemma truthy_nonempty (v : string) :
  v <> EmptyString -> Js.truthy (Some v) = true.
Proof. intros H. simpl. now apply negb_true_iff, String.eqb_neq. Qed.

(** A [failed], [busy] or [no-answer] update runs [updateStatus] and then
    [summarize] on the record found. *)
Lemma failure_signal_run msg v s w c :
  call msg = Some v -> v <> EmptyString -> ev_status msg = Some s ->
  s = "failed" \/ s = "busy" \/ s = "no-answer" ->
  callService.getByVapiCallId v w = (Some c, w) ->
  exec (vapiRoutes.handleStatusUpdate msg) w
  = exec (vapiRoutes.summarize (id c) None)
      (exec (callService.updateStatus (id c)
               (if String.eqb s "no-answer" then NO_ANSWER else FAILED)
               (Some (vapiRoutes.failedErrorMessage s (endedReason msg)))) w).
Proof.
  intros Hv Hne Hs Hcase Hfound.
  unfold vapiRoutes.handleStatusUpdate.
  rewrite Hv, Hs, (truthy_nonempty v Hne).
  assert (Ht : Js.truthy (Some s) = true)
    by (destruct Hcase as [->|[->| ->]]; reflexivity).
  rewrite Ht. cbn [negb orb].
  change (default EmptyString (Some v)) with v.
  change (default EmptyString (Some s)) with s.
  rewrite exec_bind. rewrite Hfound. cbn [fst].
  change (exec (callService.getByVapiCallId v) w) with w.
  destruct Hcase as [->|[->| ->]]; cbn [String.eqb Ascii.eqb Bool.eqb orb andb];
    now rewrite exec_bind.
Qed.

End FailureSignals.

(** X6.  A [failed] or [busy] status update leaves the record [FAILED] with
    the message of the signal: that the line was busy, or that the call
    failed with the end reason when one is given.  A [no-answer] update
    leaves it [NO_ANSWER] and its error message as it was.  In each case
    the transcript is kept and the summary is the one generated from the
    record as the update leaves it. *)
Theorem failure_signal_recorded (w : World) (msg : VapiMessage) (v s : string)
    (c : CallEntity) :
  call msg = Some v -> v <> EmptyString -> ev_status msg = Some s ->
  s = "failed" \/ s = "busy" \/ s = "no-answer" ->
  callService.getByVapiCallId v w = (Some c, w) ->
  exists c',
    recordOf (id c) (exec (vapiRoutes.handleStatusUpdate msg) w) = Some c'
    /\ status c' = (if String.eqb s "no-answer" then NO_ANSWER else FAILED)
    /\ errorMessage c'
       = (if String.eqb s "no-answer" then errorMessage c
          else if String.eqb s "busy" then Some "Recipient line was busy"
          else match endedReason msg with
               | Some r => if String.eqb r EmptyString then Some "Call failed"
                           else Some ("Call failed - " ++ r)
               | None => Some "Call failed"
               end)
    /\ transcript c' = transcript c
    /\ summary c' = Some (vapiRoutes.generateCallSummary c' None).
Proof.
  intros Hv Hne Hs Hcase Hfound.
  rewrite (failure_signal_run msg v s w c Hv Hne Hs Hcase Hfound).
  pose proof (found_record v w c Hfound) as Hrec.
  destruct (updateStatus_record (id c)
              (if String.eqb s "no-answer" then NO_ANSWER else FAILED)
              (Some (vapiRoutes.failedErrorMessage s (endedReason msg))) w c Hrec)
    as (u & Hu & _ & _ & Hst & Hph & Htr & _ & _ & _ & Hld & Herr & Hsa & Hco).
  cbv zeta in Hu.
  destruct (summarize_record (id c) None _ u Hu)
    as (c' & Hc' & _ & _ & Hsum & Hst' & Hstate' & _ & Htr' & _ & _ & Hld'
        & Herr' & Hsa' & Hco').
  cbv zeta in Hc'. exists c'. split; [exact Hc'|].
  split; [congruence|]. split.
  - rewrite Herr', Herr.
    destruct Hcase as [->|[->| ->]]; cbn [String.eqb Ascii.eqb Bool.eqb];
      try reflexivity.
    unfold vapiRoutes.failedErrorMessage.
    destruct (endedReason msg) as [r|]; [|reflexivity].
    cbn [Js.truthy default String.eqb Ascii.eqb Bool.eqb andb].
    destruct (String.eqb r EmptyString) eqn:E; reflexivity.
  - split; [congruence|]. rewrite Hsum. f_equal.
    apply generateCallSummary_ext; try congruence.
    rewrite Hld'. symmetry.
    rewrite (leadData_view_ext (id c) (id c) u
               (rowToCall (id c) (callToRow c))).
    + now rewrite leadData_view_idem.
    + exact Hph.
    + exact Hld.
Qed.

Lemma failure_signal_recorded_witness :
  let w := sampleWorld [("c1", sampleRow CALLING GREETING [] None
                                 1699999200000)] in
  exists c',
    recordOf "c1" (exec (vapiRoutes.handleStatusUpdate
                           (statusUpdate "busy" None None)) w) = Some c'
    /\ status c' = FAILED
    /\ errorMessage c' = Some "Recipient line was busy".
Proof.
  intros w.
  destruct (failure_signal_recorded w (statusUpdate "busy" None None) "v1" "busy"
              (rowToCall "c1" (sampleRow CALLING GREETING [] None 1699999200000)))
    as (c' & H1 & H2 & H3 & _); try reflexivity; [discriminate | auto |].
  exists c'. split; [exact H1|]. split; [exact H2 | exact H3].
Defined.

(** ** The end-of-call report *)

Section Report.

Implicit Types (w : World) (cid : string) (row : CallRow) (c : CallEntity).

(** The record after [save] of a record read from the table, with another
    transcript. *)
Lemma save_transcript_record cid w c (T : list TranscriptMessage) :
  recordOf cid w = Some c ->
  exists c',
    let w' := exec (callService.save (setTranscript T c)) w in
    recordOf cid w' = Some c'
    /\ (callService.save (setTranscript T c) w).1
       = setUpdatedAt (clock w (reads w)) (setTranscript T c)
    /\ transcript c' = T
    /\ summary c' = summary c
    /\ status c' = status c /\ state c' = state c /\ phone c' = phone c
    /\ vapiCallId c' = vapiCallId c
    /\ leadData c' = leadData (rowToCall cid (callToRow c))
    /\ errorMessage c' = errorMessage c
    /\ startedAt c' = startedAt c /\ completedAt c' = completedAt c.
Proof.
  rewrite recordOf_lookup. destruct (calls w !! cid) as [row|] eqn:Hrow;
    [|discriminate]. intros [= <-].
  destruct (view_normal cid row) as (Hv & He & Hs & Hc). cbv zeta in Hv, He, Hs, Hc.
  eexists. cbv zeta. unfold exec.
  erewrite save_run by (cbn; exact Hrow). cbn [fst snd].
  rewrite recordOf_lookup. cbn [calls].
  change (cid) with (id (setTranscript T (rowToCall cid row))) at 1.
  rewrite lookup_insert_eq. cbn [fmap option_fmap option_map].
  split; [reflexivity|]. split; [reflexivity|].
  unfold setUpdatedAt, setTranscript. rewrite view_of_saved.
  cbn [status phone transcript summary vapiCallId createdAt leadData
       errorMessage startedAt completedAt state id].
  do 5 (split; [reflexivity|]).
  split; [now rewrite !Hv|].
  split.
  { match goal with |- context [leadData (rowToCall cid (callToRow ?x))] =>
      apply (leadData_view_ext cid cid x (rowToCall cid row) eq_refl eq_refl)
    end. }
  split; [now rewrite !He|].
  split; [exact Hs | exact Hc].
Qed.

(** The lead of a record read from the table is left as it is by a row
    conversion when its first name, county and state are not empty. *)
Lemma leadData_stable cid w c :
  recordOf cid w = Some c ->
  (forall l, leadData c = Some l ->
     firstName l <> EmptyString /\ county l <> EmptyString
     /\ leadState l <> EmptyString) ->
  leadData (rowToCall cid (callToRow c)) = leadData c.
Proof.
  rewrite recordOf_lookup. destruct (calls w !! cid) as [row|]; [|discriminate].
  intros [= <-] Hlead. destruct (Hlead _ eq_refl) as (Hf & Hc & Hs).
  cbn [firstName county leadState] in *.
  unfold rowToCall, callToRow. norm_cbn.
  rewrite !strOrUndefined_idem, !numOrUndefined_idem.
  rewrite (orDefault_nonempty (lead_first_name row)) by assumption.
  rewrite (orDefault_nonempty (lead_county row)) by assumption.
  rewrite (orDefault_nonempty (lead_state row)) by assumption.
  assert (Hlast : Js.orDefault (Some (lead_last_name row)) EmptyString
                  = lead_last_name row).
  { unfold Js.orDefault.
    destruct (String.eqb_spec (lead_last_name row) EmptyString) as [->|];
      reflexivity. }
  now rewrite Hlast.
Qed.

End Report.

(** X7.  An end-of-call report overwrites nothing: on a record that has a
    transcript and a summary, and on a record without transcript when the
    report carries no messages, it returns without a change. *)
Theorem report_without_gap_changes_nothing (w : World) (msg : VapiMessage)
    (v : string) (c : CallEntity) :
  call msg = Some v -> v <> EmptyString ->
  callService.getByVapiCallId v w = (Some c, w) ->
  (transcript c <> [] /\ is_Some (summary c))
  \/ (transcript c = [] /\ artifact msg ≫= messages = None) ->
  vapiRoutes.handleEndOfCallReport msg w = (tt, w).
Proof.
  intros Hv Hne Hfound Hcase. unfold vapiRoutes.handleEndOfCallReport.
  rewrite Hv, (truthy_nonempty v Hne). cbn [negb].
  change (default EmptyString (Some v)) with v.
  unfold bind at 1. rewrite Hfound.
  destruct Hcase as [[Htr [sm Hsm]] | [Htr Hmsgs]].
  - assert (Hlen : (length (transcript c) =? 0)%nat = false).
    { destruct (transcript c); [contradiction | reflexivity]. }
    rewrite Hlen. unfold bind.
    destruct (artifact msg ≫= messages); unfold ret; rewrite Hsm; reflexivity.
  - rewrite Hmsgs. unfold bind, ret. rewrite Htr. cbn [length Nat.ltb Nat.leb].
    now rewrite andb_false_r.
Qed.

Lemma report_without_gap_changes_nothing_witness :
  let sm := vapiRoutes.generateCallSummary
              (rowToCall "c1" (sampleRow COMPLETED END
                                 [entry "user" "hello" (Some 1) None] None 1))
              None in
  let w := sampleWorld [("c1", sampleRow COMPLETED END
                                 [entry "user" "hello" (Some 1) None]
                                 (Some sm) 1699999200000)] in
  vapiRoutes.handleEndOfCallReport
    (endOfCallReport [said "user" "something else" (Some 2) None]) w = (tt, w).
Proof.
  intros sm w.
  apply (report_without_gap_changes_nothing w _ "v1"
           (rowToCall "c1" (sampleRow COMPLETED END
                              [entry "user" "hello" (Some 1) None]
                              (Some sm) 1699999200000)));
    [reflexivity | discriminate | reflexivity |].
  left. split; [discriminate | eexists; reflexivity].
Defined.

(** X8.  An end-of-call report fills what the record lacks.  A record without
    transcript takes the messages of the report, filtered and sorted as a
    final transcript; a record with a transcript keeps it.  A record
    without summary that has a transcript afterwards gets the summary
    generated from the record as the report leaves it; a summary that is
    there is kept.  Status, state, error message and the times of start
    and completion are not touched. *)
Theorem report_fills_gaps (w : World) (msg : VapiMessage) (v : string)
    (c : CallEntity) :
  call msg = Some v -> v <> EmptyString ->
  callService.getByVapiCallId v w = (Some c, w) ->
  (forall l, leadData c = Some l ->
     firstName l <> EmptyString /\ county l <> EmptyString
     /\ leadState l <> EmptyString) ->
  exists c',
    recordOf (id c) (exec (vapiRoutes.handleEndOfCallReport msg) w) = Some c'
    /\ transcript c'
       = match transcript c, artifact msg ≫= messages with
         | [], Some msgs =>
             sort vapiRoutes.byTime
               (vapiRoutes.entryOf <$> vapiRoutes.validMessages msgs)
         | T, _ => T
         end
    /\ summary c'
       = match summary c, transcript c' with
         | Some sm, _ => Some sm
         | None, [] => None
         | None, _ => Some (vapiRoutes.generateCallSummary c' (artifact msg))
         end
    /\ status c' = status c /\ state c' = state c
    /\ errorMessage c' = errorMessage c /\ leadData c' = leadData c
    /\ startedAt c' = startedAt c /\ completedAt c' = completedAt c.
Proof.
  intros Hv Hne Hfound Hlead.
  pose proof (found_record v w c Hfound) as Hrec.
  pose proof (leadData_stable (id c) w c Hrec Hlead) as Hstable.
  unfold vapiRoutes.handleEndOfCallReport.
  rewrite Hv, (truthy_nonempty v Hne). cbn [negb].
  change (default EmptyString (Some v)) with v.
  rewrite exec_bind. rewrite Hfound. cbn [fst].
  change (exec (callService.getByVapiCallId v) w) with w.
  rewrite exec_bind.
  (* the transcript step *)
  assert (H1 : exists u call',
             let step := match artifact msg ≫= messages with
                         | Some msgs =>
                             if (length (transcript c) =? 0)%nat
                             then callService.save
                                    (vapiRoutes.extractTranscriptFromMessages
                                       c msgs true)
                             else ret c
                         | None => ret c
                         end in
             (step w).1 = call'
             /\ recordOf (id c) (exec step w) = Some u
             /\ id call' = id c /\ summary call' = summary c
             /\ transcript call' = transcript u
             /\ transcript u
                = match transcript c, artifact msg ≫= messages with
                  | [], Some msgs =>
                      sort vapiRoutes.byTime
                        (vapiRoutes.entryOf <$> vapiRoutes.validMessages msgs)
                  | T, _ => T
                  end
             /\ summary u = summary c
             /\ status u = status c /\ state u = state c /\ phone u = phone c
             /\ leadData (rowToCall (id c) (callToRow u))
                = leadData (rowToCall (id c) (callToRow c))
             /\ errorMessage u = errorMessage c /\ leadData u = leadData c
             /\ startedAt u = startedAt c /\ completedAt u = completedAt c).
  { destruct (artifact msg ≫= messages) as [msgs|].
    - destruct (transcript c) as [|t T] eqn:Htr.
      + cbn [length Nat.eqb].
        unfold vapiRoutes.extractTranscriptFromMessages. rewrite Htr.
        cbn [app].
        destruct (save_transcript_record (id c) w c
                    (sort vapiRoutes.byTime
                       (vapiRoutes.entryOf <$> vapiRoutes.validMessages msgs)) Hrec)
          as (u & Hu & Hret & Htu & Hsu & Hstu & Hsteu & Hphu & _ & Hldu & Herru
              & Hsau & Hcou).
        cbv zeta in Hu. exists u. eexists. cbv zeta.
        split; [exact Hret|]. split; [exact Hu|].
        split; [reflexivity|]. split; [reflexivity|].
        split; [now rewrite Htu|]. split; [exact Htu|].
        repeat (split; [assumption|]).
        split.
        * rewrite (leadData_view_ext (id c) (id c) u
                     (rowToCall (id c) (callToRow c)) Hphu Hldu).
          apply leadData_view_idem.
        * split; [assumption|]. split; [congruence|]. split; assumption.
      + cbn [length Nat.eqb]. exists c, c. cbv zeta.
        split; [reflexivity|]. split; [exact Hrec|].
        rewrite Htr. repeat (split; [reflexivity|]). reflexivity.
    - exists c, c. cbv zeta. split; [reflexivity|]. split; [exact Hrec|].
      destruct (transcript c); repeat (split; [reflexivity|]); reflexivity. }
  destruct H1 as (u & call' & Hcall' & Hu & Hid & Hsum' & Htr' & Htu & Hsu & Hstu
                  & Hsteu & Hphu & Hldu & Herru & Hleadu & Hsau & Hcou).
  cbv zeta in Hcall', Hu. rewrite Hcall'.
  rewrite Hsum', Htr', Hid.
  destruct (summary c) as [sm|] eqn:Hsm.
  - cbn [Js.isDefined negb andb when]. change (exec (ret tt) ?x) with x.
    exists u. split; [exact Hu|]. split; [exact Htu|].
    split; [exact Hsu|]. repeat (split; [assumption|]). assumption.
  - cbn [Js.isDefined negb andb].
    destruct (transcript u) as [|t T] eqn:HTu.
    + cbn [length Nat.ltb Nat.leb when]. change (exec (ret tt) ?x) with x.
      exists u. split; [exact Hu|]. split; [now rewrite HTu|].
      rewrite HTu. split; [exact Hsu|]. repeat (split; [assumption|]). assumption.
    + cbn [length Nat.ltb Nat.leb when].
      destruct (summarize_record (id c) (artifact msg) _ u Hu)
        as (c' & Hc' & _ & _ & Hsumc & Hst' & Hstate' & Hph' & Htrc & _ & _
            & Hld' & Herr' & Hsa' & Hco').
      cbv zeta in Hc'. exists c'. split; [exact Hc'|].
      split; [congruence|]. split.
      * rewrite Htrc, HTu, Hsumc. f_equal.
        apply generateCallSummary_ext; congruence.
      * repeat (split; [congruence|]). congruence.
Qed.

Lemma report_fills_gaps_witness :
  let w := sampleWorld [("c1", sampleRow COMPLETED END [] None 1699999200000)] in
  let msg := endOfCallReport [said "bot" "Hi Ada" (Some 2) None;
                              said "system" "prompt" (Some 0) None;
                              said "user" " maybe " (Some 1) None] in
  exists c',
    recordOf "c1" (exec (vapiRoutes.handleEndOfCallReport msg) w) = Some c'
    /\ transcript c' = [entry "user" "maybe" (Some 1) None;
                        entry "bot" "Hi Ada" (Some 2) None]
    /\ (interestLevel <$> summary c') = Some WARM
    /\ status c' = COMPLETED.
Proof.
  intros w msg.
  destruct (report_fills_gaps w msg "v1"
              (rowToCall "c1" (sampleRow COMPLETED END [] None 1699999200000)))
    as (c' & H1 & H2 & H3 & H4 & _); [reflexivity | discriminate | reflexivity | |].
  - intros l [= <-]. repeat split; discriminate.
  - assert (H2' : transcript c' = [entry "user" "maybe" (Some 1) None;
                                    entry "bot" "Hi Ada" (Some 2) None])
      by (rewrite H2; reflexivity).
    exists c'. split; [exact H1|]. split; [exact H2'|]. split; [|exact H4].
    rewrite H3. cbn [summary rowToCall sampleRow row_summary]. rewrite H2'.
    unfold vapiRoutes.generateCallSummary.
    cbn [fmap option_fmap option_map interestLevel]. rewrite H2'. reflexivity.
Defined.

(** ** The call routes *)

Section Routes.

Implicit Types (w : World) (cid : string) (row : CallRow) (c : CallEntity).

(** [create] under an unused identifier. *)
Lemma create_run uuid ph ld w :
  calls w !! uuid = None ->
  let call := {| id := uuid; phone := ph; state := GREETING; status := PENDING;
                 transcript := []; leadData := ld; summary := None;
                 vapiCallId := None; errorMessage := None; startedAt := None;
                 completedAt := None; createdAt := clock w (reads w);
                 updatedAt := clock w (reads w) |} in
  callService.create uuid ph ld w
  = (Some call, {| calls := <[uuid := callToRow call]> (calls w);
                   clock := clock w; reads := S (reads w) |}).
Proof.
  intros H call. unfold callService.create, insertRow, newDate, bind, ret.
  cbn [fst snd calls clock reads]. now rewrite H.
Qed.

End Routes.

(** X9.  [POST /calls/start] under an unused identifier, when Vapi places the
    call and no record carries the identifier it assigns: the record
    carries the Vapi identifier, so that the webhooks of the call find it,
    and its status is [PENDING], not [CALLING]: the entity that [create]
    returned is saved over the row that [updateStatus] wrote. *)
Theorem start_leaves_status_pending (w : World) (uuid : string) (ld : LeadData)
    (vapiId : string) :
  calls w !! uuid = None -> vapiId <> EmptyString ->
  (forall k r, calls w !! k = Some r -> vapi_call_id r <> Some vapiId) ->
  let w' := exec (callRoutes.start uuid ld (inl vapiId)) w in
  exists c,
    recordOf uuid w' = Some c
    /\ status c = PENDING /\ state c = GREETING
    /\ vapiCallId c = Some vapiId
    /\ transcript c = [] /\ summary c = None /\ errorMessage c = None
    /\ startedAt c = None /\ completedAt c = None
    /\ createdAt c = clock w (reads w)
    /\ callService.getByVapiCallId vapiId w' = (Some c, w').
Proof.
  intros Hfresh Hne Hnone w'.
  assert (Hw' : exists row' n',
             w' = {| calls := <[uuid := row']> (calls w); clock := clock w;
                     reads := n' |}
             /\ row_status row' = PENDING /\ current_state row' = GREETING
             /\ vapi_call_id row' = Some vapiId
             /\ row_transcript row' = [] /\ row_summary row' = None
             /\ error_message row' = None /\ started_at row' = None
             /\ ended_at row' = None /\ created_at row' = clock w (reads w)).
  { subst w'. unfold callRoutes.start. rewrite exec_bind.
    rewrite (create_run uuid (leadPhone ld) (Some ld) w Hfresh). cbn [fst].
    unfold exec at 2. rewrite (create_run uuid (leadPhone ld) (Some ld) w Hfresh).
    cbn [snd]. cbv zeta.
    set (c0 := {| id := uuid; phone := leadPhone ld; state := GREETING;
                  status := PENDING; transcript := []; leadData := Some ld;
                  summary := None; vapiCallId := None; errorMessage := None;
                  startedAt := None; completedAt := None;
                  createdAt := clock w (reads w);
                  updatedAt := clock w (reads w) |}).
    set (w1 := {| calls := <[uuid := callToRow c0]> (calls w); clock := clock w;
                  reads := S (reads w) |}).
    change (id c0) with uuid.
    rewrite exec_bind.
    destruct (updateStatus_run uuid CALLING None w1 (callToRow c0))
      as (st' & err' & started' & completed' & upd' & n' & Hrun & _);
      [apply lookup_insert_eq|].
    cbv zeta in Hrun. unfold exec at 2. rewrite Hrun. cbn [snd].
    rewrite exec_bind. unfold exec at 2.
    erewrite save_run by (cbn [calls id setVapiCallId]; apply lookup_insert_eq).
    cbn [snd]. unfold exec, ret. cbn [snd calls clock reads].
    subst w1. cbn [calls clock reads]. rewrite !insert_insert_eq.
    eexists _, _. split; [reflexivity|].
    unfold callToRow, setUpdatedAt, setVapiCallId. norm_cbn.
    rewrite (strOrUndefined_truthy (Some vapiId)) by now apply truthy_nonempty.
    repeat split; reflexivity. }
  destruct Hw' as (row' & n' & -> & Hst & Hstate & Hvid & Htr & Hsum & Herr
                   & Hsa & Hco & Hcre).
  exists (rowToCall uuid row').
  split; [rewrite recordOf_lookup; cbn [calls]; now rewrite lookup_insert_eq|].
  cbn [rowToCall status state vapiCallId transcript summary errorMessage
       startedAt completedAt createdAt].
  rewrite Hst, Hstate, Hvid, Htr, Hsum, Herr, Hsa, Hco, Hcre.
  rewrite (strOrUndefined_truthy (Some vapiId)) by now apply truthy_nonempty.
  do 9 (split; [reflexivity|]).
  apply getByVapiCallId_unique; cbn [calls].
  - apply lookup_insert_eq.
  - exact Hvid.
  - intros k r Hk Hkv. destruct (decide (k = uuid)) as [->|Hk']; [reflexivity|].
    rewrite lookup_insert_ne in Hk by congruence.
    exfalso. exact (Hnone k r Hk Hkv).
Qed.

Lemma start_leaves_status_pending_witness :
  let ld := mkLeadData "Ada" "Byron" "+15551234567" "Travis" "TX" (Some 5) None in
  exists c,
    recordOf "c1" (exec (callRoutes.start "c1" ld (inl "v1")) emptyWorld) = Some c
    /\ status c = PENDING /\ vapiCallId c = Some "v1".
Proof.
  intros ld.
  destruct (start_leaves_status_pending emptyWorld "c1" ld "v1")
    as (c & H1 & H2 & _ & H3 & _); [reflexivity | discriminate | |].
  - intros k r Hk. cbn in Hk. rewrite lookup_empty in Hk. discriminate.
  - exists c. split; [exact H1|]. split; [exact H2 | exact H3].
Defined.

(** X10.  [POST /calls/start] under an unused identifier, when Vapi does not
    place the call: the record is there, [FAILED] in the state [END],
    with the error of Vapi in its error message and no Vapi identifier. *)
Theorem start_failure_recorded (w : World) (uuid : string) (ld : LeadData)
    (error : string) :
  calls w !! uuid = None ->
  let w' := exec (callRoutes.start uuid ld (inr error)) w in
  exists c,
    recordOf uuid w' = Some c
    /\ status c = FAILED /\ state c = END
    /\ errorMessage c = Some ("Failed to initiate call: " ++ error)
    /\ vapiCallId c = None /\ transcript c = [] /\ summary c = None
    /\ startedAt c = None
    /\ exists k, completedAt c = Js.numOrUndefined (Some (clock w k)).
Proof.
  intros Hfresh w'. subst w'. unfold callRoutes.start. rewrite exec_bind.
  rewrite (create_run uuid (leadPhone ld) (Some ld) w Hfresh). cbn [fst].
  unfold exec at 2. rewrite (create_run uuid (leadPhone ld) (Some ld) w Hfresh).
  cbn [snd]. cbv zeta.
  set (c0 := {| id := uuid; phone := leadPhone ld; state := GREETING;
                status := PENDING; transcript := []; leadData := Some ld;
                summary := None; vapiCallId := None; errorMessage := None;
                startedAt := None; completedAt := None;
                createdAt := clock w (reads w);
                updatedAt := clock w (reads w) |}).
  set (w1 := {| calls := <[uuid := callToRow c0]> (calls w); clock := clock w;
                reads := S (reads w) |}).
  change (id c0) with uuid. rewrite exec_bind.
  assert (H0 : recordOf uuid w1 = Some (rowToCall uuid (callToRow c0))).
  { rewrite recordOf_lookup. subst w1. cbn [calls]. now rewrite lookup_insert_eq. }
  destruct (updateStatus_record uuid CALLING None w1 _ H0)
    as (u & Hu & _ & Hclk & Hst & _ & Htr & Hsum & Hvid & _ & _ & Herr & Hsa & Hco).
  cbv zeta in Hu, Hclk.
  destruct (updateStatus_record uuid FAILED
              (Some ("Failed to initiate call: " ++ error)) _ u Hu)
    as (c & Hc & _ & _ & Hst' & _ & Htr' & Hsum' & Hvid' & _ & _ & Herr' & Hsa'
        & Hco').
  cbv zeta in Hc. exists c. split; [exact Hc|].
  split; [exact Hst'|].
  destruct Hsa as [(Hx & _) | (_ & Hsa)]; [discriminate|].
  destruct Hco as [([Hx|Hx] & _) | (_ & Hstate & Hco)]; try discriminate.
  destruct Hsa' as [(Hx & _) | (_ & Hsa')]; [discriminate|].
  destruct Hco' as [(_ & _ & Hend & k & Hk) | (Hn & _)].
  - split; [exact Hend|]. split.
    + rewrite Herr'. reflexivity.
    + split; [now rewrite Hvid', Hvid|]. split; [now rewrite Htr', Htr|].
      split; [now rewrite Hsum', Hsum|]. split; [now rewrite Hsa', Hsa|].
      exists k. rewrite Hk, Hclk. reflexivity.
  - exfalso. apply Hn. split; [now right|]. now rewrite Hco.
Qed.

Lemma start_failure_recorded_witness :
  let ld := mkLeadData "Ada" "Byron" "+15551234567" "Travis" "TX" (Some 5) None in
  exists c,
    recordOf "c1" (exec (callRoutes.start "c1" ld
                           (inr "Vapi API error: timeout")) emptyWorld) = Some c
    /\ status c = FAILED
    /\ errorMessage c
       = Some "Failed to initiate call: Vapi API error: timeout".
Proof.
  intros ld.
  destruct (start_failure_recorded emptyWorld "c1" ld "Vapi API error: timeout")
    as (c & H1 & H2 & _ & H3 & _); [reflexivity|].
  exists c. split; [exact H1|]. split; [exact H2 | exact H3].
Defined.

(** X11.  [POST /calls/:id/end].  When the record carries a Vapi identifier and
    Vapi refuses to end the call, the route changes nothing.  Otherwise
    the record becomes [COMPLETED]; its completion time, when it has
    none, is set and its state becomes [END]; transcript, summary and
    error message are as before: the route writes no summary. *)
Theorem manual_end_recorded (w : World) (cid : string) (c : CallEntity)
    (ended : bool) :
  recordOf cid w = Some c ->
  (Js.truthy (vapiCallId c) = true /\ ended = false ->
   callRoutes.endCall cid ended w = (tt, w))
  /\ (Js.truthy (vapiCallId c) = false \/ ended = true ->
      exists c',
        recordOf cid (exec (callRoutes.endCall cid ended) w) = Some c'
        /\ status c' = COMPLETED
        /\ transcript c' = transcript c /\ summary c' = summary c
        /\ errorMessage c' = errorMessage c
        /\ startedAt c' = startedAt c
        /\ match completedAt c with
           | Some t => completedAt c' = Some t /\ state c' = state c
           | None => state c' = END
                     /\ exists k, completedAt c'
                                  = Js.numOrUndefined (Some (clock w k))
           end).
Proof.
  intros Hrec. pose proof Hrec as Hrow. rewrite recordOf_lookup in Hrow.
  destruct (calls w !! cid) as [row|] eqn:E; [|discriminate].
  injection Hrow as Hc.
  assert (Hget : callService.get cid w = (Some c, w))
    by (rewrite get_run, E; cbn; now rewrite Hc).
  split.
  - intros [Hv ->]. unfold callRoutes.endCall. unfold bind at 1.
    rewrite Hget, Hv. reflexivity.
  - intros Hcase. unfold callRoutes.endCall. rewrite exec_bind.
    rewrite Hget. cbn [fst]. change (exec (callService.get cid) w) with w.
    assert (Hb : Js.truthy (vapiCallId c) && negb ended = false).
    { destruct Hcase as [-> | ->]; [reflexivity | apply andb_false_r]. }
    rewrite Hb.
    destruct (updateStatus_record cid COMPLETED None w c Hrec)
      as (c' & Hc' & _ & _ & Hst & _ & Htr & Hsum & _ & _ & _ & Herr & Hsa & Hco).
    cbv zeta in Hc'. exists c'. split; [exact Hc'|]. split; [exact Hst|].
    split; [exact Htr|]. split; [exact Hsum|]. split; [exact Herr|].
    split.
    + destruct Hsa as [(Hx & _) | (_ & Hsa)]; [discriminate | exact Hsa].
    + destruct Hco as [(_ & Hnone & Hend & k & Hk) | (Hn & Hstate & Hco)].
      * rewrite Hnone. split; [exact Hend | eauto].
      * destruct (completedAt c) as [t|] eqn:Ec.
        -- split; [exact Hco | exact Hstate].
        -- exfalso. apply Hn. split; [now left | reflexivity].
Qed.

Lemma manual_end_recorded_witness :
  let w := sampleWorld [("c1", sampleRow IN_PROGRESS GREETING [] None
                                 1699999200000)] in
  callRoutes.endCall "c1" false w = (tt, w)
  /\ exists c', recordOf "c1" (exec (callRoutes.endCall "c1" true) w) = Some c'
                /\ status c' = COMPLETED /\ summary c' = None.
Proof.
  intros w. split.
  - apply (proj1 (manual_end_recorded w "c1" _ false eq_refl)).
    split; reflexivity.
  - destruct (proj2 (manual_end_recorded w "c1" _ true eq_refl))
      as (c' & H1 & H2 & _ & H3 & _); [now right|].
    exists c'. split; [exact H1|]. split; [exact H2 | exact H3].
Defined.

(** ** Summaries on request *)

Section ManualSummary.

Implicit Types (w : World) (cid : string) (row : CallRow) (c : CallEntity).

Lemma recordOf_id cid w c : recordOf cid w = Some c -> id c = cid.
Proof.
  rewrite recordOf_lookup. destruct (calls w !! cid); [|discriminate].
  now intros [= <-].
Qed.

(** The record after [addSummary]. *)
Lemma addSummary_record cid sm w c :
  recordOf cid w = Some c ->
  exists c',
    recordOf cid (exec (callService.addSummary cid sm) w) = Some c'
    /\ summary c' = Some sm
    /\ status c' = status c /\ state c' = state c
    /\ transcript c' = transcript c
    /\ errorMessage c' = errorMessage c
    /\ startedAt c' = startedAt c /\ completedAt c' = completedAt c.
Proof.
  rewrite recordOf_lookup. destruct (calls w !! cid) as [row|] eqn:Hrow;
    [|discriminate]. intros [= <-].
  destruct (addSummary_run cid sm w row Hrow) as (upd' & n' & Hrun).
  destruct (view_normal cid row) as (Hv & He & Hs & Hc). cbv zeta in Hv, He, Hs, Hc.
  eexists. unfold exec. rewrite Hrun. cbn [snd].
  rewrite recordOf_lookup. cbn [calls]. rewrite lookup_insert_eq.
  cbn [fmap option_fmap option_map]. split; [reflexivity|].
  unfold setUpdatedAt, setSummary. rewrite view_of_saved.
  cbn [status transcript summary errorMessage startedAt completedAt state].
  do 4 (split; [reflexivity|]).
  split; [now rewrite !He|]. split; [exact Hs | exact Hc].
Qed.

End ManualSummary.

(** X12.  [POST /calls/:id/generate-summary] on a record without transcript
    changes nothing.  On a record with a transcript it writes the summary
    of the call routes over the summary the record has, whether a webhook
    generated that one or not: the duration of the new summary is 0.
    Status, state, transcript and error message are left as they are. *)
Theorem manual_summary_replaces (w : World) (cid : string) (c : CallEntity) :
  recordOf cid w = Some c ->
  match transcript c with
  | [] => callRoutes.generateSummary cid w = (tt, w)
  | _ :: _ =>
      exists c',
        recordOf cid (exec (callRoutes.generateSummary cid) w) = Some c'
        /\ summary c' = Some (manualSummary c)
        /\ (duration <$> summary c') = Some 0%Q
        /\ status c' = status c /\ state c' = state c
        /\ transcript c' = transcript c
        /\ errorMessage c' = errorMessage c
  end.
Proof.
  intros Hrec. pose proof Hrec as Hrow. rewrite recordOf_lookup in Hrow.
  destruct (calls w !! cid) as [row|] eqn:E; [|discriminate].
  injection Hrow as Hc.
  assert (Hget : callService.get cid w = (Some c, w))
    by (rewrite get_run, E; cbn; now rewrite Hc).
  destruct (transcript c) as [|t T] eqn:Htr.
  - unfold callRoutes.generateSummary. unfold bind at 1.
    rewrite Hget, Htr. reflexivity.
  - unfold callRoutes.generateSummary. rewrite exec_bind.
    rewrite Hget. cbn [fst]. change (exec (callService.get cid) w) with w.
    rewrite Htr. cbn [length Nat.eqb]. rewrite <- Htr.
    destruct (addSummary_record cid (manualSummary c) w c Hrec)
      as (c' & Hc' & Hsum & Hst & Hstate & Htr' & Herr & _).
    exists c'. split; [exact Hc'|]. split; [exact Hsum|].
    split; [now rewrite Hsum|]. auto.
Qed.

Lemma manual_summary_replaces_witness :
  let w := sampleWorld [("c1", sampleRow COMPLETED END
                                 [entry "user" "maybe" (Some 1) None] None
                                 1699999200000)] in
  exists c',
    recordOf "c1" (exec (callRoutes.generateSummary "c1") w) = Some c'
    /\ (outcome <$> summary c') = Some "Lead interested - needs follow-up"
    /\ (duration <$> summary c') = Some 0%Q.
Proof.
  intros w.
  destruct (manual_summary_replaces w "c1" _ eq_refl)
    as (c' & H1 & H2 & H3 & _).
  exists c'. split; [exact H1|]. split; [now rewrite H2 | exact H3].
Defined.

(** X13.  [GET /calls/:id/summary] answers that the summary is not available
    for a record that has none, and still does so after the call was
    ended by [POST /calls/:id/end], which writes no summary; after the
    [ended] status update of the call it answers with a report, under the
    status that the end reason gives. *)
Theorem summary_route_after_end (w : World) (msg : VapiMessage) (v : string)
    (c : CallEntity) :
  call msg = Some v -> v <> EmptyString -> ev_status msg = Some "ended" ->
  callService.getByVapiCallId v w = (Some c, w) ->
  summary c = None ->
  (callRoutes.getSummary (id c) w).1
  = callRoutes.SummaryMissing "Call summary not available yet"
  /\ (forall ended,
        (callRoutes.getSummary (id c)
           (exec (callRoutes.endCall (id c) ended) w)).1
        = callRoutes.SummaryMissing "Call summary not available yet")
  /\ exists lead report,
       (callRoutes.getSummary (id c)
          (exec (vapiRoutes.handleStatusUpdate msg) w)).1
       = callRoutes.SummaryReport (id c) lead report
           (vapiRoutes.finalStatus (Js.orDefault (endedReason msg) "completed")).
Proof.
  intros Hv Hne Hs Hfound Hsum.
  pose proof (found_record v w c Hfound) as Hrec.
  assert (Hmissing : forall w' c',
            recordOf (id c) w' = Some c' -> summary c' = None ->
            (callRoutes.getSummary (id c) w').1
            = callRoutes.SummaryMissing "Call summary not available yet").
  { intros w' c' Hc' Hs'. unfold callRoutes.getSummary. rewrite value_bind.
    unfold recordOf in Hc'. rewrite Hc', Hs'. reflexivity. }
  split; [now apply (Hmissing w c)|]. split.
  - intros ended. unfold callRoutes.endCall. rewrite exec_bind.
    change (callService.get (id c) w).1 with (recordOf (id c) w).
    rewrite Hrec. change (exec (callService.get (id c)) w) with w.
    destruct (Js.truthy (vapiCallId c) && negb ended).
    + now apply (Hmissing w c).
    + destruct (updateStatus_record (id c) COMPLETED None w c Hrec)
        as (c' & Hc' & _ & _ & _ & _ & _ & Hsum' & _).
      cbv zeta in Hc'. apply (Hmissing _ c' Hc'). congruence.
  - destruct (ended_view msg v w c Hv Hne Hs Hfound)
      as (c' & upd1 & Hc' & Hst & _ & _ & _ & _ & _ & Hsum' & _).
    cbv zeta in Hst, Hsum'. eexists (leadData c'), _.
    unfold callRoutes.getSummary. rewrite value_bind.
    unfold recordOf in Hc'. rewrite Hc', Hsum'. cbn [ret fst].
    rewrite Hst. f_equal. apply (recordOf_id (id c) _ c' Hc').
Qed.

Lemma summary_route_after_end_witness :
  let w := sampleWorld [("c1", sampleRow IN_PROGRESS GREETING [] None
                                 1699999200000)] in
  let msg := statusUpdate "ended" (Some "customer-ended-call") None in
  (callRoutes.getSummary "c1" (exec (callRoutes.endCall "c1" true) w)).1
  = callRoutes.SummaryMissing "Call summary not available yet"
  /\ exists lead report,
       (callRoutes.getSummary "c1" (exec (vapiRoutes.handleStatusUpdate msg) w)).1
       = callRoutes.SummaryReport "c1" lead report COMPLETED.
Proof.
  intros w msg.
  destruct (summary_route_after_end w msg "v1"
              (rowToCall "c1" (sampleRow IN_PROGRESS GREETING [] None
                                 1699999200000)))
    as (_ & H2 & H3); try reflexivity; [discriminate|].
  split; [exact (H2 true) | exact H3].
Defined.

(** ** What a sweep returns *)

Section SweepCount.

Implicit Types (w : World) (cid : string) (row : CallRow) (c : CallEntity).

Lemma markStale_value (T : Z) w :
  (callService.markStaleCallsAsFailed T w).1
  = length (selectStale (clock w (reads w) - T * 1000) w).1.
Proof.
  unfold callService.markStaleCallsAsFailed.
  rewrite value_bind. change (newDate w).1 with (clock w (reads w)).
  rewrite value_bind. rewrite value_bind. cbn [ret fst].
  now rewrite length_fmap.
Qed.

End SweepCount.

(** X14.  The number that [markStaleCallsAsFailed] returns is the number of the
    records that were stale when the sweep began; when it is 0 the sweep
    has left the table as it was. *)
Theorem sweep_returns_stale_count (T : Z) (w : World) :
  let cutoffTime := clock w (reads w) - T * 1000 in
  let n := (callService.markStaleCallsAsFailed T w).1 in
  n = size (filter (fun kv => stale cutoffTime (rowToCall kv.1 kv.2)) (calls w))
  /\ (n = 0%nat <->
      forall cid c, recordOf cid w = Some c -> ~ stale cutoffTime c)
  /\ (n = 0%nat -> calls (exec (callService.markStaleCallsAsFailed T) w) = calls w).
Proof.
  intros cutoffTime n.
  assert (Hn : n = length (selectStale cutoffTime w).1)
    by apply markStale_value.
  assert (Hnil : n = 0%nat <-> (selectStale cutoffTime w).1 = [])
    by (rewrite Hn; apply length_zero_iff_nil).
  split; [|split].
  - rewrite Hn. rewrite map_filter_alt.
    rewrite map_size_list_to_map.
    + reflexivity.
    + eapply sublist_NoDup; [|apply fmap_sublist, sublist_filter].
      apply NoDup_fst_map_to_list.
  - rewrite Hnil. split.
    + intros Hl cid c Hc Hstale. rewrite recordOf_lookup in Hc.
      destruct (calls w !! cid) as [row|] eqn:Hrow; [|discriminate].
      injection Hc as <-.
      assert (Hin : (cid, row) ∈ (selectStale cutoffTime w).1)
        by (apply selectStale_spec; split; [exact Hrow | exact Hstale]).
      rewrite Hl in Hin. inversion Hin.
    + intros H. destruct (selectStale cutoffTime w).1 as [|[k row] l] eqn:E;
        [reflexivity|]. exfalso.
      assert (Hin : (k, row) ∈ (selectStale cutoffTime w).1) by (rewrite E; left).
      apply selectStale_spec in Hin as [Hrow Hstale].
      apply (H k (rowToCall k row)); [now rewrite recordOf_lookup, Hrow|].
      exact Hstale.
  - intros H0. apply Hnil in H0. apply map_eq. intros k.
    destruct (markStale_rows T w) as [_ Hrows]. specialize (Hrows k).
    cbv zeta in Hrows. fold cutoffTime in Hrows.
    destruct (calls w !! k) as [row|] eqn:Hrow; [|exact Hrows].
    case_bool_decide as Hstale; [|exact Hrows]. exfalso.
    assert (Hin : (k, row) ∈ (selectStale cutoffTime w).1)
      by (apply selectStale_spec; split; [exact Hrow | exact Hstale]).
    rewrite H0 in Hin. inversion Hin.
Qed.

(** ** The summary that a sweep writes *)

Section SweepSummary.

Local Open Scope list_scope.

Implicit Types (w : World) (cid : string) (row : CallRow) (c : CallEntity).

(** The basic summary of a record that is not [FAILED] does not speak of
    a failure. *)
Lemma basicSummary_of_live_record c :
  status c <> FAILED ->
  let sm := callService.generateBasicSummary c in
  outcome sm <> "Call failed or timed out"
  /\ nextAction sm <> Some "Retry call later"
  /\ "Call timed out or failed" ∉ keyPoints sm.
Proof.
  intros Hst sm. subst sm. unfold callService.generateBasicSummary.
  cbn [outcome nextAction keyPoints].
  rewrite !bool_decide_eq_false_2 by exact Hst.
  split; [|split].
  - repeat match goal with |- context [if ?b then _ else _] => destruct b end;
      discriminate.
  - repeat match goal with |- context [if ?b then _ else _] => destruct b end;
      discriminate.
  - rewrite app_nil_r. intros Hin. apply elem_of_app in Hin as [Hin | Hin].
    + destruct (leadData c) as [l|]; [|inversion Hin].
      apply list_elem_of_singleton in Hin.
      unfold callService.propertyPoint in Hin. discriminate Hin.
    + destruct (0 <? length (transcript c))%nat; [|inversion Hin].
      apply list_elem_of_singleton in Hin. discriminate Hin.
Qed.

End SweepSummary.

(** X15.  The summary that a sweep writes for a stale record does not tell that
    the call failed, though the sweep leaves the record [FAILED]: the
    summary is generated from the record as it was read when the sweep
    began, whose status was [CALLING] or [IN_PROGRESS], so that its
    outcome is not the one of a failed call, its next action is not to
    retry, and none of its key points is the one of a time-out. *)
Theorem sweep_summary_ignores_failure (T : Z) (w : World) (cid : string)
    (c : CallEntity) :
  recordOf cid w = Some c ->
  stale (clock w (reads w) - T * 1000) c ->
  transcript c <> [] -> summary c = None ->
  exists c' sm,
    recordOf cid (exec (callService.markStaleCallsAsFailed T) w) = Some c'
    /\ status c' = FAILED
    /\ summary c' = Some sm
    /\ outcome sm <> "Call failed or timed out"
    /\ nextAction sm <> Some "Retry call later"
    /\ "Call timed out or failed" ∉ keyPoints sm.
Proof.
  rewrite recordOf_lookup. destruct (calls w !! cid) as [row|] eqn:Hrow;
    [|discriminate]. intros [= <-] Hstale Htr Hsum.
  destruct (markStale_rows T w) as [_ Hrows]. specialize (Hrows cid).
  cbv zeta in Hrows. rewrite Hrow in Hrows.
  rewrite bool_decide_eq_true_2 in Hrows by exact Hstale.
  destruct Hrows as (row' & Hrow' & Hst & _ & _ & Hsm).
  cbn [transcript summary rowToCall] in Htr, Hsum.
  assert (Hcond : (0 <? length (row_transcript row))%nat
                  && negb (Js.isDefined (row_summary row)) = true).
  { rewrite Hsum. destruct (row_transcript row); [contradiction | reflexivity]. }
  rewrite Hcond in Hsm.
  exists (rowToCall cid row'), (callService.generateBasicSummary (rowToCall cid row)).
  rewrite recordOf_lookup, Hrow'. split; [reflexivity|].
  split; [exact Hst|]. split; [exact Hsm|].
  apply basicSummary_of_live_record. cbn [status rowToCall].
  destruct Hstale as [[H | H] _]; cbn [status rowToCall] in H; rewrite H;
    discriminate.
Qed.

Lemma sweep_summary_ignores_failure_witness :
  let w := sampleWorld [("c1", sampleRow IN_PROGRESS GREETING
                                 [entry "user" "hello" (Some 1) None] None
                                 1699999200000)] in
  exists c' sm,
    recordOf "c1" (exec (callService.markStaleCallsAsFailed 600) w) = Some c'
    /\ status c' = FAILED /\ summary c' = Some sm
    /\ outcome sm <> "Call failed or timed out".
Proof.
  intros w.
  destruct (sweep_summary_ignores_failure 600 w "c1" _ eq_refl)
    as (c' & sm & H1 & H2 & H3 & H4 & _).
  - split; [now right | reflexivity].
  - discriminate.
  - reflexivity.
  - exists c', sm. auto.
Defined.

(** ** The duration of a summary *)

Section Duration.

Local Open Scope list_scope.

Lemma mathMax_spec (l : list Q) (x : Q) :
  mathMax x l ∈ x :: l
  /\ (x <= mathMax x l)%Q
  /\ forall y, y ∈ l -> (y <= mathMax x l)%Q.
Proof.
  revert x. induction l as [|a l IH]; intros x; cbn [mathMax fold_left].
  - split; [now left|]. split; [apply Qle_refl|]. intros y Hy. inversion Hy.
  - destruct (Qle_bool x a) eqn:E.
    + apply Qle_bool_iff in E.
      destruct (IH a) as (Hin & Hle & Hall). fold (mathMax a l).
      split; [now right|]. split; [eapply Qle_trans; eassumption|].
      intros y Hy. apply elem_of_cons in Hy as [-> | Hy]; [exact Hle | auto].
    + assert (Hlt : (a <= x)%Q).
      { apply Qlt_le_weak, Qnot_le_lt. intros H.
        apply Qle_bool_iff in H. congruence. }
      destruct (IH x) as (Hin & Hle & Hall). fold (mathMax x l).
      split.
      * apply elem_of_cons in Hin as [Hin | Hin]; [rewrite Hin; left|].
        right. now right.
      * split; [exact Hle|].
        intros y Hy. apply elem_of_cons in Hy as [-> | Hy]; [|auto].
        eapply Qle_trans; eassumption.
Qed.

End Duration.

(** X16.  When the webhook carries messages, the duration of the summary is
    taken from them and not from the times of the record: it is the
    latest end, or failing that the latest time, of a message of the bot,
    in seconds, and 0 when no message is of the bot. *)
Theorem summary_duration_from_bot_messages (c : CallEntity) (a : Artifact)
    (msgs : list ArtifactMessage) :
  messages a = Some msgs ->
  let d := duration (vapiRoutes.generateCallSummary c (Some a)) in
  let ends := (fun m => (inject_Z (Js.numOr (m_endTime m)
                                     (Js.numOr (m_time m) 0)) / 1000)%Q)
              <$> filter (fun m => m_role m = "bot") msgs in
  match ends with
  | [] => d = 0%Q
  | _ :: _ => d ∈ ends /\ forall x, x ∈ ends -> (x <= d)%Q
  end.
Proof.
  intros Hmsgs d ends. subst d. unfold vapiRoutes.generateCallSummary.
  cbn [duration mbind option_bind]. rewrite Hmsgs. fold ends.
  destruct ends as [|x l]; [reflexivity|].
  destruct (mathMax_spec l x) as (Hin & Hle & Hall).
  split; [exact Hin|]. intros y Hy.
  apply elem_of_cons in Hy as [-> | Hy]; [exact Hle | auto].
Qed.

Lemma summary_duration_from_bot_messages_witness :
  let c := rowToCall "c1" (sampleRow COMPLETED END [] None 1699999200000) in
  let a := {| messages := Some [ {| m_role := "bot"; m_message := Some "Hi";
                                    m_content := None; m_time := Some 1000;
                                    m_endTime := Some 3000;
                                    m_secondsFromStart := None |};
                                 said "user" "hello" (Some 9000) None;
                                 said "bot" "bye" (Some 7000) None ];
              recordingUrl := None |} in
  let d := duration (vapiRoutes.generateCallSummary c (Some a)) in
  d ∈ [(3000 / 1000)%Q; (7000 / 1000)%Q]
  /\ forall x, x ∈ [(3000 / 1000)%Q; (7000 / 1000)%Q] -> (x <= d)%Q.
Proof.
  intros c a. exact (summary_duration_from_bot_messages c a _ eq_refl).
Defined.

(** ** The real-time mode of the transcript *)

Section RealTime.

Local Open Scope list_scope.

Implicit Types (m : ArtifactMessage) (T : list TranscriptMessage)
  (S : gset string).

(** The loop of the real-time mode appends entries of messages it was
    given; afterwards the identifier of every message is among those of
    the transcript, and no identifier occurs twice if none did. *)
Lemma pushNew_spec (msgs : list ArtifactMessage) S T :
  (forall x, x ∈ S <-> x ∈ vapiRoutes.existingId <$> T) ->
  exists new,
    vapiRoutes.pushNew S T msgs = T ++ new
    /\ (forall e, e ∈ new -> exists m, m ∈ msgs /\ e = vapiRoutes.entryOf m)
    /\ (forall m, m ∈ msgs ->
          vapiRoutes.messageId m ∈ vapiRoutes.existingId <$> (T ++ new))
    /\ (NoDup (vapiRoutes.existingId <$> T) ->
        NoDup (vapiRoutes.existingId <$> (T ++ new))).
Proof.
  revert S T. induction msgs as [|m rest IH]; intros S T HS.
  - exists []. cbn [vapiRoutes.pushNew]. rewrite app_nil_r.
    split; [reflexivity|]. split; [intros e He; inversion He|].
    split; [intros m Hm; inversion Hm | auto].
  - cbn [vapiRoutes.pushNew]. case_bool_decide as Hin.
    + destruct (IH S T HS) as (new & Hrun & Hfrom & Hids & Hnd).
      exists new. split; [exact Hrun|]. split.
      * intros e He. destruct (Hfrom e He) as (m' & Hm' & ->).
        exists m'. split; [now right | reflexivity].
      * split; [|exact Hnd].
        intros m' Hm'. apply elem_of_cons in Hm' as [-> | Hm']; [|now apply Hids].
        rewrite fmap_app, elem_of_app. left. now apply HS.
    + destruct (IH ({[vapiRoutes.messageId m]} ∪ S) (T ++ [vapiRoutes.entryOf m]))
        as (new & Hrun & Hfrom & Hids & Hnd).
      { intros x. rewrite elem_of_union, elem_of_singleton, fmap_app, elem_of_app.
        cbn [fmap list_fmap]. rewrite list_elem_of_singleton, existingId_entryOf.
        rewrite HS. tauto. }
      exists (vapiRoutes.entryOf m :: new).
      rewrite <- app_assoc in Hrun, Hids, Hnd. cbn [app] in Hrun, Hids, Hnd.
      split; [exact Hrun|]. split.
      * intros e He. apply elem_of_cons in He as [-> | He].
        -- exists m. split; [now left | reflexivity].
        -- destruct (Hfrom e He) as (m' & Hm' & ->).
           exists m'. split; [now right | reflexivity].
      * split.
        -- intros m' Hm'. apply elem_of_cons in Hm' as [-> | Hm'];
             [|now apply Hids].
           rewrite fmap_app, elem_of_app. right. cbn [fmap list_fmap].
           rewrite existingId_entryOf. now left.
        -- intros HT. apply Hnd. rewrite fmap_app. cbn [fmap list_fmap].
           rewrite existingId_entryOf. apply NoDup_app.
           split; [exact HT|]. split; [|apply NoDup_singleton].
           intros x Hx Hx'. apply list_elem_of_singleton in Hx'. subst x.
           apply Hin, HS, Hx.
Qed.

(** Messages whose identifiers have all been seen add nothing. *)
Lemma pushNew_seen (msgs : list ArtifactMessage) S T :
  (forall m, m ∈ msgs -> vapiRoutes.messageId m ∈ S) ->
  vapiRoutes.pushNew S T msgs = T.
Proof.
  induction msgs as [|m rest IH]; intros H; [reflexivity|].
  cbn [vapiRoutes.pushNew].
  rewrite bool_decide_eq_true_2 by (apply H; now left).
  apply IH. intros m' Hm'. apply H. now right.
Qed.

End RealTime.

(** X17.  Delivering the messages of a real-time update a second time changes
    nothing: the transcript that the real-time mode of
    [extractTranscriptFromMessages] makes of a record and a list of
    messages is left as it is by the same list of messages. *)
Theorem realtime_redelivery_adds_nothing (c : CallEntity)
    (msgs : list ArtifactMessage) :
  vapiRoutes.extractTranscriptFromMessages
    (vapiRoutes.extractTranscriptFromMessages c msgs false) msgs false
  = vapiRoutes.extractTranscriptFromMessages c msgs false.
Proof.
  unfold vapiRoutes.extractTranscriptFromMessages.
  cbn [transcript setTranscript].
  destruct (pushNew_spec (vapiRoutes.validMessages msgs)
              (list_to_set (vapiRoutes.existingId <$> transcript c))
              (transcript c))
    as (new & Hrun & _ & Hids & _).
  { intros x. apply elem_of_list_to_set. }
  rewrite Hrun. rewrite pushNew_seen.
  - rewrite sort_idempotent. reflexivity.
  - intros m Hm. apply elem_of_list_to_set.
    rewrite (sort_perm vapiRoutes.byTime (transcript c ++ new)%list).
    now apply Hids.
Qed.

(** X18.  The real-time mode keeps the entries that are there, adds entries of
    valid messages of the update only, and never lets two entries share an
    identifier when no two did: the transcript it leaves is sorted by time
    and is a rearrangement of the old entries and the new ones. *)
Theorem realtime_merge_deduplicates (c : CallEntity)
    (msgs : list ArtifactMessage) :
  let T' := transcript (vapiRoutes.extractTranscriptFromMessages c msgs false) in
  StronglySorted inTimeOrder T'
  /\ (exists new,
        T' ≡ₚ (transcript c ++ new)%list
        /\ forall e, e ∈ new ->
             exists m, m ∈ vapiRoutes.validMessages msgs
                       /\ e = vapiRoutes.entryOf m)
  /\ (NoDup (vapiRoutes.existingId <$> transcript c) ->
      NoDup (vapiRoutes.existingId <$> T')).
Proof.
  intros T'. subst T'. unfold vapiRoutes.extractTranscriptFromMessages.
  cbn [transcript setTranscript].
  destruct (pushNew_spec (vapiRoutes.validMessages msgs)
              (list_to_set (vapiRoutes.existingId <$> transcript c))
              (transcript c))
    as (new & Hrun & Hfrom & _ & Hnd).
  { intros x. apply elem_of_list_to_set. }
  rewrite Hrun. split; [apply sort_sorted|]. split.
  - exists new. split; [apply sort_perm | exact Hfrom].
  - intros H. rewrite (sort_perm vapiRoutes.byTime (transcript c ++ new)%list).
    now apply Hnd.
Qed.

(** ** The verification hook *)

Section Hook.

Variable hmac : string -> string -> Completion string.

(** The verifier accepts the expected digest and nothing else. *)
Lemma verifyVapiSignature_accepts (payload : string) (signature : option string)
    (secret : string) :
  (exists b, verifyVapiSignature hmac payload signature secret = Return b)
  /\ (verifyVapiSignature hmac payload signature secret = Return true
      <-> exists s, signature = Some s /\ s <> EmptyString
                    /\ hmac secret payload = Return s).
Proof.
  unfold verifyVapiSignature, timingSafeEqual.
  destruct signature as [s|]; cbn [Js.truthy negb].
  2: { split; [eauto|]. split; [discriminate | intros (s & [=] & _)]. }
  change (default EmptyString (Some s)) with s.
  destruct (String.eqb_spec s EmptyString) as [->|Hne]; cbn [negb].
  { split; [eauto|]. split; [discriminate | intros (s & [= <-] & H & _); congruence]. }
  destruct (hmac secret payload) as [expected|err] eqn:Eh; cbn [andThen tryCatch].
  - destruct (Nat.eqb_spec (String.length s) (String.length expected)) as [El|Nl];
      cbn [negb tryCatch].
    + split; [eauto|]. split.
      * intros [= E]. apply String.eqb_eq in E. subst. eauto.
      * intros (s' & [= <-] & _ & [= <-]). now rewrite String.eqb_refl.
    + split; [eauto|]. split; [discriminate|].
      intros (s' & [= <-] & _ & [= <-]). congruence.
  - split; [eauto|]. split; [discriminate | intros (s' & _ & _ & [=])].
Qed.

End Hook.

(** X19.  The verification hook never raises, and it lets a request through in
    two cases only: when no secret is configured, whatever the request
    is, and when the raw body is there and not empty and the signature
    header is the HMAC digest of the body under the secret.  Otherwise it
    answers 500 when the raw body is missing and 401 when it is there. *)
Theorem hook_lets_through (hmac : string -> string -> Completion string)
    (rawBody signature secret : option string) :
  (exists r, webhookVerificationHook hmac rawBody signature secret = Return r)
  /\ (webhookVerificationHook hmac rawBody signature secret = Return None
      <-> Js.truthy secret = false
          \/ exists body key s,
               rawBody = Some body /\ body <> EmptyString
               /\ secret = Some key /\ signature = Some s /\ s <> EmptyString
               /\ hmac key body = Return s)
  /\ (forall reply,
        webhookVerificationHook hmac rawBody signature secret
        = Return (Some reply) ->
        hookStatus reply = (if Js.truthy rawBody then 401 else 500)).
Proof.
  unfold webhookVerificationHook.
  destruct (Js.truthy secret) eqn:Hsec; cbn [negb].
  2: { split; [eauto|]. split; [|discriminate].
       split; [now left | reflexivity]. }
  destruct secret as [key|]; [|discriminate].
  change (default EmptyString (Some key)) with key.
  destruct rawBody as [body|]; cbn [Js.truthy negb];
    [change (default EmptyString (Some body)) with body|].
  2: { split; [eauto|]. split; [|now intros reply [= <-]].
       split; [discriminate|].
       intros [[=] | (b & k & s & [=] & _)]. }
  destruct (String.eqb_spec body EmptyString) as [->|Hbody]; cbn [negb].
  { split; [eauto|]. split; [|now intros reply [= <-]].
    split; [discriminate|].
    intros [[=] | (b & k & s & [= <-] & H & _)]. congruence. }
  destruct (verifyVapiSignature_accepts hmac body signature key) as [[b Hb] Hiff].
  rewrite Hb. cbn [andThen]. destruct b; cbn [negb].
  - split; [eauto|]. split; [|discriminate].
    split; [|reflexivity]. intros _. right.
    destruct (proj1 Hiff Hb) as (s & Hs & Hne & Hh).
    exists body, key, s. auto 10.
  - split; [eauto|]. split; [|now intros reply [= <-]].
    split; [discriminate|].
    intros [[=] | (b & k & s & [= <-] & _ & [= <-] & Hs & Hne & Hh)].
    assert (Ht : verifyVapiSignature hmac body signature key = Return true)
      by (apply Hiff; eauto).
    congruence.
Qed.

(** ** The configuration *)

Section Config.

Lemma unset_false (env : gmap string string) (key : string) :
  config.unset env key = false
  <-> exists value, env !! key = Some value /\ Js.trim value <> EmptyString.
Proof.
  unfold config.unset. destruct (env !! key) as [value|]; cbn [Js.truthy default].
  - rewrite orb_false_iff, negb_false_iff, negb_true_iff. split.
    + intros [_ H]. apply String.eqb_neq in H. eauto.
    + intros (x & [= <-] & H). split; [|now apply String.eqb_neq].
      apply String.eqb_neq. intros ->. now apply H.
  - cbn [negb orb]. split; [discriminate | intros (x & [=] & _)].
Qed.

End Config.

(** X20.  [validateEnv] returns exactly when each of the three required
    variables is set to a value that is not blank, and it raises
    otherwise; when it returns, the API key is there and the constructor
    of [VapiService] does not raise.  The webhook secret is not among the
    variables it checks: without the secret [validateEnv] does what it
    does with it, and the verification hook, given the secret of the
    configuration, lets every request through. *)
Theorem validateEnv_guarantees (env : gmap string string) :
  (config.validateEnv env = Return tt
   <-> forall key, key ∈ config.required ->
         exists value, env !! key = Some value /\ Js.trim value <> EmptyString)
  /\ (config.validateEnv env = Return tt ->
      VapiService_constructor env = Return tt)
  /\ config.validateEnv (delete "VAPI_WEBHOOK_SECRET" env)
     = config.validateEnv env
  /\ (forall hmac rawBody signature,
        webhookVerificationHook hmac rawBody signature
          (Some (config.webhookSecret (delete "VAPI_WEBHOOK_SECRET" env)))
        = Return None).
Proof.
  assert (Hiff : config.validateEnv env = Return tt
                 <-> forall key, key ∈ config.required ->
                       config.unset env key = false).
  { unfold config.validateEnv.
    destruct (List.filter (config.unset env) config.required) as [|k l] eqn:E.
    - cbn [length Nat.ltb Nat.leb]. split; [|reflexivity]. intros _ key Hkey.
      destruct (config.unset env key) eqn:Hu; [|reflexivity]. exfalso.
      assert (Hin : In key (List.filter (config.unset env) config.required)).
      { apply filter_In. split; [|exact Hu]. now apply list_elem_of_In. }
      rewrite E in Hin. destruct Hin.
    - cbn [length Nat.ltb Nat.leb]. split; [discriminate|]. intros H. exfalso.
      assert (Hin : In k (List.filter (config.unset env) config.required))
        by (rewrite E; now left).
      apply filter_In in Hin as [Hk Hu]. apply list_elem_of_In in Hk.
      rewrite (H k Hk) in Hu. discriminate. }
  split; [|split; [|split]].
  - rewrite Hiff. split; intros H key Hkey; apply unset_false, H, Hkey.
  - intros H. unfold VapiService_constructor, config.apiKey.
    destruct (proj1 (unset_false env "VAPI_API_KEY")) as (value & Hv & Hne).
    { apply Hiff; [exact H|]. unfold config.required. now left. }
    rewrite Hv. cbn [Js.truthy].
    destruct (String.eqb_spec value EmptyString) as [->|_]; [|reflexivity].
    exfalso. apply Hne. reflexivity.
  - unfold config.validateEnv.
    assert (E : List.filter (config.unset (delete "VAPI_WEBHOOK_SECRET" env))
                  config.required
                = List.filter (config.unset env) config.required).
    { apply filter_ext_in. intros key Hkey. unfold config.unset.
      rewrite lookup_delete_ne; [reflexivity|].
      intros <-. cbn in Hkey. intuition discriminate. }
    now rewrite E.
  - intros hmac rawBody signature. unfold config.webhookSecret.
    now rewrite lookup_delete_eq.
Qed.

(** ** The transcript migration *)

Section Migration.

Implicit Types (table acc : gmap string (option Json)) (column : option Json).

(** The loop of the migration over the rows [l] read from the table. *)
Lemma migrate_loop (l : list (string * option Json)) acc (n : nat) :
  NoDup l.*1 ->
  let r := fold_left
             (fun (st : gmap string (option Json) * nat) row =>
                match dbService.convertTranscript row.2 with
                | Some newTranscript =>
                    (<[row.1 := Some newTranscript]> st.1, S st.2)
                | None => st
                end) l (acc, n) in
  (forall k column, (k, column) ∈ l -> acc !! k = Some column ->
     r.1 !! k = Some (migratedColumn column))
  /\ (forall k, k ∉ l.*1 -> r.1 !! k = acc !! k)
  /\ r.2 = (n + length (filter (fun row => is_Some (dbService.convertTranscript row.2)) l))%nat.
Proof.
  revert acc n. induction l as [|[k0 c0] l IH]; intros acc n Hnd r.
  - subst r. cbn. split; [intros k column Hin; inversion Hin|].
    split; [reflexivity | lia].
  - cbn [fmap list_fmap] in Hnd. apply NoDup_cons in Hnd as [Hk0 Hnd].
    subst r. cbn [fold_left fst snd].
    destruct (dbService.convertTranscript c0) as [t|] eqn:E.
    + destruct (IH (<[k0 := Some t]> acc) (S n) Hnd) as (Hin & Hout & Hcount).
      cbv zeta in Hin, Hout, Hcount. split; [|split].
      * intros k column Hk Hacc. apply elem_of_cons in Hk as [[= -> ->] | Hk].
        -- rewrite Hout by exact Hk0. rewrite lookup_insert_eq.
           unfold migratedColumn. now rewrite E.
        -- apply Hin; [exact Hk|]. rewrite lookup_insert_ne; [exact Hacc|].
           intros <-. apply Hk0. apply list_elem_of_fmap. now exists (k0, column).
      * intros k Hk. cbn [fmap list_fmap] in Hk.
        apply not_elem_of_cons in Hk as [Hne Hk].
        rewrite Hout by exact Hk. now rewrite lookup_insert_ne.
      * rewrite Hcount. rewrite filter_cons. cbn [snd].
        rewrite decide_True by (rewrite E; eauto). cbn [length]. lia.
    + destruct (IH acc n Hnd) as (Hin & Hout & Hcount).
      cbv zeta in Hin, Hout, Hcount. split; [|split].
      * intros k column Hk Hacc. apply elem_of_cons in Hk as [[= -> ->] | Hk].
        -- rewrite Hout by exact Hk0. rewrite Hacc.
           unfold migratedColumn. now rewrite E.
        -- now apply Hin.
      * intros k Hk. cbn [fmap list_fmap] in Hk.
        apply not_elem_of_cons in Hk as [Hne Hk]. now apply Hout.
      * rewrite Hcount. rewrite filter_cons. cbn [snd].
        rewrite decide_False; [reflexivity|]. rewrite E. intros [? [=]].
Qed.

(** The table after the migration, row by row, and the count. *)
Lemma migrateTranscripts_rows table :
  (dbService.migrateTranscripts table).1 = migratedColumn <$> table
  /\ (dbService.migrateTranscripts table).2
     = length (filter (fun row => is_Some (dbService.convertTranscript row.2))
                 (map_to_list table)).
Proof.
  unfold dbService.migrateTranscripts.
  destruct (migrate_loop (map_to_list table) table 0 (NoDup_fst_map_to_list table))
    as (Hin & Hout & Hcount).
  cbv zeta in Hin, Hout, Hcount. split; [|exact Hcount].
  apply map_eq. intros k. rewrite lookup_fmap.
  destruct (table !! k) as [column|] eqn:Hk.
  - cbn. apply Hin; [now apply elem_of_map_to_list | exact Hk].
  - cbn. rewrite Hout; [exact Hk|]. intros Hin'.
    apply list_elem_of_fmap in Hin' as [[k' c'] [-> Hin']].
    apply elem_of_map_to_list in Hin'. cbn [fst] in Hk. congruence.
Qed.

(** A converted column is not converted again. *)
Lemma convert_migrated column :
  dbService.convertTranscript (migratedColumn column) = None.
Proof.
  unfold migratedColumn.
  destruct (dbService.convertTranscript column) as [t|] eqn:E; [|exact E].
  unfold dbService.convertTranscript in E.
  destruct column as [[| | | |[|firstItem rest]|]|]; try discriminate.
  destruct (dbService.isString firstItem); [|discriminate].
  injection E as <-. reflexivity.
Qed.

End Migration.

(** X21.  Running the transcript migration again converts nothing: on the table
    that the migration leaves, the migration counts no row and leaves the
    table as it is. *)
Theorem migration_idempotent (table : gmap string (option Json)) :
  dbService.migrateTranscripts (dbService.migrateTranscripts table).1
  = ((dbService.migrateTranscripts table).1, 0%nat).
Proof.
  destruct (migrateTranscripts_rows table) as [Htable _].
  destruct (migrateTranscripts_rows (dbService.migrateTranscripts table).1)
    as [Htable' Hcount'].
  rewrite (surjective_pairing (dbService.migrateTranscripts _)).
  f_equal.
  - rewrite Htable', Htable. rewrite <- map_fmap_compose.
    apply map_fmap_ext. intros k column _. cbn.
    unfold migratedColumn at 1. now rewrite convert_migrated.
  - rewrite Hcount', Htable.
    apply length_zero_iff_nil.
    destruct (filter _ (map_to_list (migratedColumn <$> table)))
      as [|[k column] l] eqn:E; [reflexivity|]. exfalso.
    assert (Hin : (k, column) ∈ filter
                    (fun row : string * option Json =>
                       is_Some (dbService.convertTranscript row.2))
                    (map_to_list (migratedColumn <$> table)))
      by (rewrite E; left).
    apply list_elem_of_filter in Hin as [[t Ht] Hin]. cbn [snd] in Ht.
    apply elem_of_map_to_list in Hin. rewrite lookup_fmap in Hin.
    destruct (table !! k) as [column0|]; [|discriminate].
    injection Hin as <-. rewrite convert_migrated in Ht. discriminate.
Qed.

(** X22.  The transcript migration turns the column of a row that holds the old
    format, a list of texts that is not empty, into the list of the
    entries of the role [user] with these texts as messages, in the same
    order; it leaves every column alone that is not a list, is an empty
    list or begins with something else than a text, the columns in the
    new format among them; and it counts the rows it has converted. *)
Theorem migration_converts_old_format (table : gmap string (option Json)) :
  let migrated := dbService.migrateTranscripts table in
  (forall k texts,
     table !! k = Some (Some (JArray (JString <$> texts))) -> texts <> [] ->
     migrated.1 !! k
     = Some (Some (JArray ((fun text =>
                              JObject [("role", JString "user");
                                       ("message", JString text)]) <$> texts))))
  /\ (forall k column,
        table !! k = Some column ->
        dbService.convertTranscript column = None ->
        migrated.1 !! k = Some column)
  /\ (forall k, table !! k = None -> migrated.1 !! k = None)
  /\ migrated.2
     = size (filter (fun row => is_Some (dbService.convertTranscript row.2))
               table).
Proof.
  intros migrated. subst migrated.
  destruct (migrateTranscripts_rows table) as [Htable Hcount].
  rewrite Htable, Hcount. split; [|split; [|split]].
  - intros k texts Hk Hne. rewrite lookup_fmap, Hk. cbn. f_equal.
    destruct texts as [|text texts]; [contradiction|].
    unfold migratedColumn. cbn [fmap list_fmap dbService.convertTranscript
                                dbService.isString].
    do 2 f_equal. unfold dbService.userEntry. f_equal.
    rewrite <- list_fmap_compose. reflexivity.
  - intros k column Hk Hc. rewrite lookup_fmap, Hk. cbn.
    unfold migratedColumn. now rewrite Hc.
  - intros k Hk. now rewrite lookup_fmap, Hk.
  - rewrite map_filter_alt. rewrite map_size_list_to_map; [reflexivity|].
    eapply sublist_NoDup; [|apply fmap_sublist, sublist_filter].
    apply NoDup_fst_map_to_list.
Qed.

Lemma migration_converts_old_format_witness :
  let table : gmap string (option Json) :=
    {[ "c1" := Some (JArray [JString "hello"; JString "yes"]) ]} in
  (dbService.migrateTranscripts table).1 !! "c1"
  = Some (Some (JArray [JObject [("role", JString "user");
                                 ("message", JString "hello")];
                        JObject [("role", JString "user");
                                 ("message", JString "yes")]])).
Proof.
  intros table.
  apply (proj1 (migration_converts_old_format table) "c1" ["hello"; "yes"]);
    [reflexivity | discriminate].
Defined.

(** ** Properties of the rows that every action keeps *)

Section Invariant.

(** A property [I] of the keys and their rows, the property [J] of the
    entities that may be written, and the property [G] of the summaries
    that may be written. *)
Variable I : string -> option CallRow -> Prop.
Variable J : CallEntity -> Prop.
Variable G : CallSummary -> Prop.

Hypothesis view : forall k row, I k (Some row) -> J (rowToCall k row).
Hypothesis store :
  forall c row0, I (id c) (Some row0) -> J c -> I (id c) (Some (callToRow c)).
Hypothesis fresh :
  forall uuid ph ld now,
    I uuid None ->
    let c := {| id := uuid; phone := ph; state := GREETING; status := PENDING;
                transcript := []; leadData := ld; summary := None;
                vapiCallId := None; errorMessage := None; startedAt := None;
                completedAt := None; createdAt := now; updatedAt := now |} in
    J c /\ I uuid (Some (callToRow c))
    /\ forall v, J (setVapiCallId (Some v) c).
Hypothesis keep_status : forall c s, J c -> J (setStatus s c).
Hypothesis keep_updated : forall c t, J c -> J (setUpdatedAt t c).
Hypothesis keep_started :
  forall c t, J c -> startedAt c = None -> J (setStartedAt (Some t) c).
Hypothesis keep_completed :
  forall c t, J c -> completedAt c = None ->
    J (setState END (setCompletedAt (Some t) c)).
Hypothesis keep_error :
  forall c e, J c -> Js.truthy e = true -> J (setErrorMessage e c).
Hypothesis keep_summary :
  forall c sm, J c -> G sm -> J (setSummary (Some sm) c).
Hypothesis keep_final :
  forall c msgs, J c ->
    J (vapiRoutes.extractTranscriptFromMessages (setTranscript [] c) msgs true).
Hypothesis keep_fallback :
  forall c msgs, J c -> transcript c = [] ->
    J (vapiRoutes.extractTranscriptFromMessages c msgs true).
Hypothesis generated :
  forall c artifact, J c -> G (vapiRoutes.generateCallSummary c artifact).
Hypothesis generated_basic :
  forall c, J c -> G (callService.generateBasicSummary c).
Hypothesis generated_manual : forall c, J c -> G (manualSummary c).

Implicit Types (w : World) (cid : string) (row : CallRow) (c : CallEntity).

(** Reads a goal about the world after a computation as a triple. *)
Ltac as_triple :=
  match goal with
  | |- forall w, everywhere ?P w -> everywhere ?P (?m w).2 =>
      change (hoare (everywhere P) m (fun _ => everywhere P))
  end.

Lemma everywhere_reads w n :
  everywhere I w ->
  everywhere I {| calls := calls w; clock := clock w; reads := n |}.
Proof. intros H k. exact (H k). Qed.

Lemma inv_newDate : hoare (everywhere I) newDate (fun _ => everywhere I).
Proof. intros w H. apply (everywhere_reads w), H. Qed.

Lemma inv_get cid :
  hoare (everywhere I) (callService.get cid)
    (fun r w => everywhere I w /\ forall c, r = Some c -> J c).
Proof.
  intros w H. rewrite get_run. cbn [fst snd]. split; [exact H|].
  intros c Hc. specialize (H cid).
  destruct (calls w !! cid) as [row|]; [|discriminate].
  injection Hc as <-. now apply view.
Qed.

Lemma inv_getByVapiCallId v :
  hoare (everywhere I) (callService.getByVapiCallId v)
    (fun r w => everywhere I w /\ forall c, r = Some c -> J c).
Proof.
  intros w H. split; [exact H|]. intros c Hc.
  destruct (callService.getByVapiCallId v w) as [r w'] eqn:E. cbn [fst] in Hc.
  subst r.
  destruct (getByVapiCallId_found _ _ _ _ E) as (_ & row & Hrow & -> & _).
  apply view. specialize (H (id c)). now rewrite Hrow in H.
Qed.

Lemma inv_save c :
  J c -> hoare (everywhere I) (callService.save c) (fun _ => everywhere I).
Proof.
  intros Hc w H. unfold callService.save, updateRow, newDate, bind, ret.
  cbn [fst snd calls clock reads]. change (id (setUpdatedAt _ c)) with (id c).
  destruct (calls w !! id c) as [row0|] eqn:Hrow.
  - intros k. cbn [calls]. destruct (decide (k = id c)) as [->|Hk].
    + rewrite lookup_insert_eq.
      apply (store (setUpdatedAt (clock w (reads w)) c) row0).
      * specialize (H (id c)). now rewrite Hrow in H.
      * now apply keep_updated.
    + rewrite lookup_insert_ne by congruence. apply H.
  - apply (everywhere_reads w), H.
Qed.

Lemma inv_updateStatus cid s e :
  hoare (everywhere I) (callService.updateStatus cid s e)
    (fun _ => everywhere I).
Proof.
  unfold callService.updateStatus. eapply hoare_bind; [apply inv_get|].
  intros [c|] w [H Hc]; [|exact H]. specialize (Hc c eq_refl). revert w H.
  as_triple.
  eapply hoare_bind; [apply inv_newDate|]. intros now. cbv beta.
  eapply (hoare_bind (everywhere I) (fun call w => everywhere I w /\ J call)).
  { destruct (_ && _) eqn:E.
    - eapply hoare_bind; [apply inv_newDate|]. intros t w H. split; [exact H|].
      apply andb_true_iff in E as [_ E]. apply not_defined_true in E.
      apply keep_started; [|exact E]. now apply keep_updated, keep_status.
    - intros w H. split; [exact H|]. now apply keep_updated, keep_status. }
  intros call1 w1 [H1 Hcall1]. revert w1 H1.
  as_triple.
  eapply (hoare_bind (everywhere I) (fun call w => everywhere I w /\ J call)).
  { destruct (_ && _) eqn:E.
    - eapply hoare_bind; [apply inv_newDate|]. intros t w H. split; [exact H|].
      apply andb_true_iff in E as [_ E]. apply not_defined_true in E.
      now apply keep_completed.
    - intros w H. split; [exact H | exact Hcall1]. }
  intros call2 w2 [H2 Hcall2]. revert w2 H2.
  as_triple.
  apply hoare_seq; [|intros _; apply hoare_ret].
  apply inv_save. destruct (_ && _) eqn:E; [|exact Hcall2].
  apply andb_true_iff in E as [_ E]. now apply keep_error.
Qed.

Lemma inv_addSummary cid sm :
  G sm ->
  hoare (everywhere I) (callService.addSummary cid sm)
    (fun _ => everywhere I).
Proof.
  intros Hsm. unfold callService.addSummary.
  eapply hoare_bind; [apply inv_get|].
  intros [c|] w [H Hc]; [|exact H]. specialize (Hc c eq_refl). revert w H.
  as_triple.
  eapply hoare_bind; [apply inv_newDate|]. intros now. cbv beta.
  apply hoare_seq; [|intros _; apply hoare_ret].
  apply inv_save. now apply keep_updated, keep_summary.
Qed.

Lemma inv_summarize cid artifact :
  hoare (everywhere I) (vapiRoutes.summarize cid artifact)
    (fun _ => everywhere I).
Proof.
  unfold vapiRoutes.summarize. eapply hoare_bind; [apply inv_get|].
  intros [u|] w [H Hu]; [|exact H].
  apply inv_addSummary; [|exact H]. now apply generated, Hu.
Qed.

Lemma inv_create uuid ph ld :
  hoare (everywhere I) (callService.create uuid ph ld)
    (fun r w => everywhere I w
                /\ forall c, r = Some c ->
                     J c /\ forall v, J (setVapiCallId (Some v) c)).
Proof.
  intros w H. unfold callService.create, insertRow, newDate, bind, ret.
  cbn [fst snd calls clock reads].
  destruct (calls w !! uuid) eqn:Hrow; cbn [fst snd].
  - split; [apply (everywhere_reads w), H | discriminate].
  - destruct (fresh uuid ph ld (clock w (reads w))) as (HJ & HI & HV).
    { specialize (H uuid). now rewrite Hrow in H. }
    split.
    + intros k. cbn [calls]. destruct (decide (k = uuid)) as [->|Hk].
      * rewrite lookup_insert_eq. exact HI.
      * rewrite lookup_insert_ne by congruence. apply H.
    + intros c [= <-]. split; [exact HJ | exact HV].
Qed.

Lemma inv_handleStatusUpdate msg :
  hoare (everywhere I) (vapiRoutes.handleStatusUpdate msg)
    (fun _ => everywhere I).
Proof.
  unfold vapiRoutes.handleStatusUpdate.
  destruct (negb _ || negb _); [apply hoare_ret|].
  eapply hoare_bind; [apply inv_getByVapiCallId|].
  intros [call|] w [H Hcall]; [|exact H].
  specialize (Hcall call eq_refl). revert w H.
  as_triple.
  repeat match goal with
  | |- hoare _ (if ?b then _ else _) _ => destruct b
  end; try apply inv_updateStatus; try apply hoare_ret.
  - apply hoare_seq.
    + destruct (artifact msg ≫= messages) as [msgs|]; [|apply hoare_ret].
      apply hoare_seq; [|intros _; apply hoare_ret].
      apply inv_save. now apply keep_final.
    + intros _. apply hoare_seq; [apply inv_updateStatus|].
      intros _. apply inv_summarize.
  - apply hoare_seq; [apply inv_updateStatus | intros _; apply inv_summarize].
Qed.

Lemma inv_handleEndOfCallReport msg :
  hoare (everywhere I) (vapiRoutes.handleEndOfCallReport msg)
    (fun _ => everywhere I).
Proof.
  unfold vapiRoutes.handleEndOfCallReport.
  destruct (negb _); [apply hoare_ret|].
  eapply hoare_bind; [apply inv_getByVapiCallId|].
  intros [call|] w [H Hcall]; [|exact H].
  specialize (Hcall call eq_refl). revert w H.
  as_triple.
  apply hoare_seq.
  - destruct (artifact msg ≫= messages) as [msgs|]; [|apply hoare_ret].
    destruct (length (transcript call) =? 0)%nat eqn:E; [|apply hoare_ret].
    apply inv_save. apply keep_fallback; [exact Hcall|].
    apply Nat.eqb_eq in E. now destruct (transcript call).
  - intros call'. apply hoare_when, inv_summarize.
Qed.

Lemma inv_webhook msg :
  hoare (everywhere I) (vapiRoutes.webhook msg) (fun _ => everywhere I).
Proof.
  unfold vapiRoutes.webhook.
  destruct (String.eqb _ _); [apply inv_handleStatusUpdate|].
  destruct (String.eqb _ _); [apply inv_handleEndOfCallReport|].
  apply hoare_ret.
Qed.

Lemma inv_start uuid leadData placed :
  hoare (everywhere I) (callRoutes.start uuid leadData placed)
    (fun _ => everywhere I).
Proof.
  unfold callRoutes.start. eapply hoare_bind; [apply inv_create|].
  intros [call|] w [H Hcall]; [|exact H].
  destruct (Hcall call eq_refl) as [HJ Hv]. revert w H.
  as_triple.
  apply hoare_seq; [apply inv_updateStatus|]. intros _.
  destruct placed as [vapiId|errorMessage]; [|apply inv_updateStatus].
  apply hoare_seq; [|intros _; apply hoare_ret].
  apply inv_save. apply Hv.
Qed.

Lemma inv_endCall cid ended :
  hoare (everywhere I) (callRoutes.endCall cid ended) (fun _ => everywhere I).
Proof.
  unfold callRoutes.endCall. eapply hoare_bind; [apply inv_get|].
  intros [call|] w [H _]; [|exact H]. revert w H.
  as_triple.
  destruct (_ && _); [apply hoare_ret | apply inv_updateStatus].
Qed.

Lemma inv_generateSummary cid :
  hoare (everywhere I) (callRoutes.generateSummary cid) (fun _ => everywhere I).
Proof.
  unfold callRoutes.generateSummary. eapply hoare_bind; [apply inv_get|].
  intros [call|] w [H Hcall]; [|exact H]. specialize (Hcall call eq_refl).
  revert w H.
  as_triple.
  destruct (length (transcript call) =? 0)%nat; [apply hoare_ret|].
  apply (inv_addSummary cid (manualSummary call)). now apply generated_manual.
Qed.

Lemma hoare_forEach_in {A} (P : World -> Prop) (l : list A)
    (body : A -> M unit) :
  (forall x, x ∈ l -> hoare P (body x) (fun _ => P)) ->
  hoare P (forEach l body) (fun _ => P).
Proof.
  induction l as [|x l IH]; intros H; [apply hoare_ret|].
  cbn [forEach]. apply hoare_seq; [apply H; now left|].
  intros _. apply IH. intros y Hy. apply H. now right.
Qed.

Lemma inv_markStaleCallsAsFailed (T : Z) :
  hoare (everywhere I) (callService.markStaleCallsAsFailed T)
    (fun _ => everywhere I).
Proof.
  unfold callService.markStaleCallsAsFailed.
  apply hoare_seq; [apply inv_newDate|]. intros now.
  eapply (hoare_bind (everywhere I)
            (fun staleRows w =>
               everywhere I w
               /\ forall kv, kv ∈ staleRows -> J (rowToCall kv.1 kv.2))).
  { intros w H. split; [exact H|]. intros [k row] Hkv.
    apply selectStale_spec in Hkv as [Hrow _]. cbn [fst snd].
    apply view. specialize (H k). now rewrite Hrow in H. }
  intros staleRows w [H Hstale]. revert w H.
  as_triple.
  apply hoare_seq; [|intros _; apply hoare_ret].
  apply hoare_forEach_in. intros call Hcall.
  apply list_elem_of_fmap in Hcall as [kv [-> Hkv]].
  apply hoare_seq; [apply inv_updateStatus|]. intros _.
  apply hoare_when, inv_addSummary, generated_basic, Hstale, Hkv.
Qed.

Lemma inv_perform (a : Action) :
  hoare (everywhere I) (perform a) (fun _ => everywhere I).
Proof.
  destruct a; cbn [perform].
  - apply inv_start.
  - apply inv_endCall.
  - apply inv_generateSummary.
  - apply inv_webhook.
  - apply hoare_seq; [apply inv_markStaleCallsAsFailed|].
    intros _. apply hoare_ret.
Qed.

Lemma inv_run (actions : list Action) w :
  everywhere I w -> everywhere I (run actions w).
Proof.
  revert w. induction actions as [|a l IH]; intros w H; [exact H|].
  cbn [run fold_left]. apply IH. exact (inv_perform a w H).
Qed.

End Invariant.

(** ** What is never undone *)

Section Persistence.

Implicit Types (w : World) (cid : string) (row : CallRow) (c : CallEntity).

Variable c0 : CallEntity.





End Persistence.



(** ** States and appointments *)

Section Tidy.

Implicit Types (w : World) (cid : string) (row : CallRow) (c : CallEntity).

Lemma tidy_run (actions : list Action) w :
  everywhere (fun k o => forall row, o = Some row -> tidy (rowToCall k row)) w ->
  everywhere (fun k o => forall row, o = Some row -> tidy (rowToCall k row))
    (run actions w).
Proof.
  apply (inv_run _ tidy (fun sm => appointmentScheduled sm = Some false)).
  - intros k row H. now apply H.
  - intros c row0 _ Hc row [= <-]. exact Hc.
  - intros uuid ph ld now _ c. split; [|split].
    + split; [now left | discriminate].
    + intros row [= <-]. split; [now left | discriminate].
    + intros v. split; [now left | discriminate].
  - intros c s H. exact H.
  - intros c t H. exact H.
  - intros c t H _. exact H.
  - intros c t [_ H] _. split; [now right | exact H].
  - intros c e H _. exact H.
  - intros c sm [H _] Hsm. split; [exact H|]. now intros sm' [= <-].
  - intros c msgs H. exact H.
  - intros c msgs H _. exact H.
  - intros c artifact [[H|H] _]; unfold vapiRoutes.generateCallSummary;
      cbn [appointmentScheduled]; rewrite H; reflexivity.
  - reflexivity.
  - intros c [[H|H] _]; unfold manualSummary; cbn [appointmentScheduled];
      rewrite H; reflexivity.
Qed.

End Tidy.

(** X24.  The states [QUALIFICATION] and [CLOSING] are never stored and no
    summary ever reports an appointment: in every state the system
    reaches, the conversation state of a record is [GREETING] or [END],
    and the summary of a record, if it has one, has
    [appointmentScheduled] false. *)
Theorem no_appointment_ever (clk : nat -> Z) (w : World) (cid : string)
    (c : CallEntity) :
  reachable clk w ->
  recordOf cid w = Some c ->
  (state c = GREETING \/ state c = END)
  /\ forall sm, summary c = Some sm -> appointmentScheduled sm = Some false.
Proof.
  intros Hreach Hc.
  assert (H : everywhere (fun k o => forall row, o = Some row ->
                            tidy (rowToCall k row)) w).
  { clear Hc. induction Hreach as [|w a _ IH].
    - intros k row Hk. cbn [calls] in Hk. rewrite lookup_empty in Hk.
      discriminate.
    - exact (tidy_run [a] w IH). }
  rewrite recordOf_lookup in Hc.
  destruct (calls w !! cid) as [row|] eqn:Hrow; [|discriminate].
  injection Hc as <-. exact (H cid row Hrow).
Qed.

Lemma no_appointment_ever_witness :
  let w := run [StartCall "c1" (mkLeadData "Ada" "Byron" "+15551234567"
                                  "Travis" "TX" (Some 5) None) (inl "v1");
                Webhook (statusUpdate "in-progress" None None);
                Webhook (statusUpdate "ended" (Some "customer-ended-call")
                           (Some [said "user" "yes, make an offer" (Some 1) None]))]
               emptyWorld in
  exists c sm,
    recordOf "c1" w = Some c /\ summary c = Some sm
    /\ outcome sm = "Appointment scheduled"
    /\ appointmentScheduled sm = Some false.
Proof.
  intros w.
  destruct (recordOf "c1" w) as [c|] eqn:Hc; [|vm_compute in Hc; discriminate].
  destruct (summary c) as [sm|] eqn:Hsm.
  2: { vm_compute in Hc. injection Hc as <-. discriminate Hsm. }
  exists c, sm. split; [reflexivity|]. split; [exact Hsm|]. split.
  - vm_compute in Hc. injection Hc as <-. injection Hsm as <-. reflexivity.
  - apply (proj2 (no_appointment_ever (clock emptyWorld) w "c1" c
                    (reachable_run _ _ _ (reachable_init _)) Hc)).
    exact Hsm.
Defined.

(** ** The transcripts that are stored *)

Section Transcripts.

Local Open Scope list_scope.

Implicit Types (w : World) (cid : string) (row : CallRow) (c : CallEntity).

Lemma entryOf_wellFormed (msgs : list ArtifactMessage) :
  Forall wellFormed (vapiRoutes.entryOf <$> vapiRoutes.validMessages msgs).
Proof.
  apply Forall_fmap, Forall_forall. intros m Hm.
  unfold vapiRoutes.validMessages in Hm.
  apply list_elem_of_filter in Hm as [Hlen Hm].
  apply list_elem_of_filter in Hm as [Hrole _].
  unfold compose, wellFormed, vapiRoutes.entryOf. cbn [role message].
  split; [exact Hrole|]. split.
  - intros E. rewrite E in Hlen. cbn in Hlen. lia.
  - unfold vapiRoutes.messageText. apply trim_idempotent.
Qed.

Lemma final_wellFormed c (msgs : list ArtifactMessage) :
  Forall wellFormed (transcript c) ->
  let T := transcript (vapiRoutes.extractTranscriptFromMessages c msgs true) in
  Forall wellFormed T /\ StronglySorted inTimeOrder T.
Proof.
  intros H T. subst T. unfold vapiRoutes.extractTranscriptFromMessages.
  cbn [transcript setTranscript]. split; [|apply sort_sorted].
  rewrite (sort_perm vapiRoutes.byTime
             (transcript c ++ (vapiRoutes.entryOf <$> vapiRoutes.validMessages msgs))).
  apply Forall_app. split; [exact H | apply entryOf_wellFormed].
Qed.

Lemma transcripts_run (actions : list Action) w :
  everywhere (fun k o => forall row, o = Some row ->
                Forall wellFormed (row_transcript row)
                /\ StronglySorted inTimeOrder (row_transcript row)) w ->
  everywhere (fun k o => forall row, o = Some row ->
                Forall wellFormed (row_transcript row)
                /\ StronglySorted inTimeOrder (row_transcript row))
    (run actions w).
Proof.
  apply (inv_run _ (fun c => Forall wellFormed (transcript c)
                             /\ StronglySorted inTimeOrder (transcript c))
           (fun _ => True)).
  - intros k row H. now apply H.
  - intros c row0 _ Hc row [= <-]. exact Hc.
  - intros uuid ph ld now _ c. split; [|split].
    + split; constructor.
    + intros row [= <-]. split; constructor.
    + intros v. split; constructor.
  - intros c s H. exact H.
  - intros c t H. exact H.
  - intros c t H _. exact H.
  - intros c t H _. exact H.
  - intros c e H _. exact H.
  - intros c sm H _. exact H.
  - intros c msgs _. apply (final_wellFormed (setTranscript [] c)). constructor.
  - intros c msgs [H _] _. now apply final_wellFormed.
  - auto.
  - auto.
  - auto.
Qed.

End Transcripts.

(** X25.  Every transcript that is stored is clean: in every state the system
    reaches, the entries of the transcript of a record have the role
    [user] or [bot] and a message that is not empty and has no white space
    around, and they are in the order of their times. *)
Theorem stored_transcripts_clean (clk : nat -> Z) (w : World) (cid : string)
    (c : CallEntity) :
  reachable clk w ->
  recordOf cid w = Some c ->
  Forall wellFormed (transcript c)
  /\ StronglySorted inTimeOrder (transcript c).
Proof.
  intros Hreach Hc.
  assert (H : everywhere (fun k o => forall row, o = Some row ->
                            Forall wellFormed (row_transcript row)
                            /\ StronglySorted inTimeOrder (row_transcript row)) w).
  { clear Hc. induction Hreach as [|w a _ IH].
    - intros k row Hk. cbn [calls] in Hk. rewrite lookup_empty in Hk.
      discriminate.
    - exact (transcripts_run [a] w IH). }
  rewrite recordOf_lookup in Hc.
  destruct (calls w !! cid) as [row|] eqn:Hrow; [|discriminate].
  injection Hc as <-. exact (H cid row Hrow).
Qed.

Lemma stored_transcripts_clean_witness :
  let w := run [StartCall "c1" (mkLeadData "Ada" "Byron" "+15551234567"
                                  "Travis" "TX" (Some 5) None) (inl "v1");
                Webhook (statusUpdate "ended" (Some "customer-ended-call")
                           (Some [said "bot" "Hi Ada " (Some 2) None;
                                  said "system" "prompt" (Some 0) None;
                                  said "user" "   " (Some 3) None;
                                  said "user" " who is this" (Some 1) None]))]
               emptyWorld in
  exists c,
    recordOf "c1" w = Some c
    /\ transcript c = [entry "user" "who is this" (Some 1) None;
                       entry "bot" "Hi Ada" (Some 2) None]
    /\ Forall wellFormed (transcript c).
Proof.
  intros w.
  destruct (recordOf "c1" w) as [c|] eqn:Hc; [|vm_compute in Hc; discriminate].
  exists c. split; [reflexivity|]. split.
  - vm_compute in Hc. injection Hc as <-. reflexivity.
  - apply (stored_transcripts_clean (clock emptyWorld) w "c1" c
             (reachable_run _ _ _ (reachable_init _)) Hc).
Defined.

(** ** Webhooks of other calls *)

Section UnknownCalls.

Implicit Types (w : World) (cid : string) (row : CallRow) (c : CallEntity).


End UnknownCalls.



(** ** Status updates of a call in progress *)

Section ProgressSignals.

Implicit Types (w : World) (cid : string) (row : CallRow) (c : CallEntity).

(** A [queued], [ringing] or [in-progress] update runs [updateStatus] on
    the record found. *)
Lemma progress_signal_run msg v s w c :
  call msg = Some v -> v <> EmptyString -> ev_status msg = Some s ->
  s = "queued" \/ s = "ringing" \/ s = "in-progress" ->
  callService.getByVapiCallId v w = (Some c, w) ->
  exec (vapiRoutes.handleStatusUpdate msg) w
  = exec (callService.updateStatus (id c)
            (if String.eqb s "in-progress" then IN_PROGRESS else CALLING)
            None) w.
Proof.
  intros Hv Hne Hs Hcase Hfound.
  unfold vapiRoutes.handleStatusUpdate.
  rewrite Hv, Hs, (truthy_nonempty v Hne).
  assert (Ht : Js.truthy (Some s) = true)
    by (destruct Hcase as [->|[->| ->]]; reflexivity).
  rewrite Ht. cbn [negb orb].
  change (default EmptyString (Some v)) with v.
  change (default EmptyString (Some s)) with s.
  rewrite exec_bind. rewrite Hfound. cbn [fst].
  change (exec (callService.getByVapiCallId v) w) with w.
  destruct Hcase as [->|[->| ->]]; reflexivity.
Qed.

End ProgressSignals.

(** X27.  A [queued] or [ringing] status update leaves the record
    [CALLING] and an [in-progress] update leaves it [IN_PROGRESS]; the
    first [in-progress] update of a record sets its time of start, which
    no later update changes.  None of them writes a summary or an error
    message, and transcript, state and time of completion are as
    before. *)
Theorem progress_signal_recorded (w : World) (msg : VapiMessage) (v s : string)
    (c : CallEntity) :
  call msg = Some v -> v <> EmptyString -> ev_status msg = Some s ->
  s = "queued" \/ s = "ringing" \/ s = "in-progress" ->
  callService.getByVapiCallId v w = (Some c, w) ->
  exists c',
    recordOf (id c) (exec (vapiRoutes.handleStatusUpdate msg) w) = Some c'
    /\ status c' = (if String.eqb s "in-progress" then IN_PROGRESS else CALLING)
    /\ match startedAt c with
       | Some t => startedAt c' = Some t
       | None =>
           if String.eqb s "in-progress"
           then exists k, startedAt c' = Js.numOrUndefined (Some (clock w k))
           else startedAt c' = None
       end
    /\ summary c' = summary c /\ errorMessage c' = errorMessage c
    /\ transcript c' = transcript c
    /\ state c' = state c /\ completedAt c' = completedAt c.
Proof.
  intros Hv Hne Hs Hcase Hfound.
  rewrite (progress_signal_run msg v s w c Hv Hne Hs Hcase Hfound).
  pose proof (found_record v w c Hfound) as Hrec.
  destruct (updateStatus_record (id c)
              (if String.eqb s "in-progress" then IN_PROGRESS else CALLING)
              None w c Hrec)
    as (c' & Hc' & _ & _ & Hst & _ & Htr & Hsum & _ & _ & _ & Herr & Hsa & Hco).
  cbv zeta in Hc'. exists c'. split; [exact Hc'|]. split; [exact Hst|].
  assert (Hnf : (if String.eqb s "in-progress" then IN_PROGRESS else CALLING)
                <> FAILED) by (destruct (String.eqb s "in-progress"); discriminate).
  assert (Hnc : (if String.eqb s "in-progress" then IN_PROGRESS else CALLING)
                <> COMPLETED)
    by (destruct (String.eqb s "in-progress"); discriminate).
  split.
  - destruct Hsa as [(Hs' & Hnone & k & Hk) | (Hn & Hsa)].
    + rewrite Hnone. destruct (String.eqb s "in-progress"); [eauto | discriminate].
    + destruct (startedAt c) as [t|] eqn:E; [exact Hsa|].
      destruct (String.eqb s "in-progress"); [|exact Hsa].
      exfalso. apply Hn. now split.
  - split; [exact Hsum|]. split.
    + rewrite Herr. rewrite bool_decide_eq_false_2 by exact Hnf. reflexivity.
    + split; [exact Htr|].
      destruct Hco as [([Hx | Hx] & _) | (_ & Hstate & Hco)];
        [now destruct Hnc | now destruct Hnf | now split].
Qed.

Lemma progress_signal_recorded_witness :
  let w := sampleWorld [("c1", sampleRow CALLING GREETING [] None
                                 1699999200000)] in
  exists c',
    recordOf "c1" (exec (vapiRoutes.handleStatusUpdate
                           (statusUpdate "in-progress" None None)) w) = Some c'
    /\ status c' = IN_PROGRESS /\ startedAt c' = Some 1699999100000
    /\ summary c' = None.
Proof.
  intros w.
  destruct (progress_signal_recorded w (statusUpdate "in-progress" None None)
              "v1" "in-progress"
              (rowToCall "c1" (sampleRow CALLING GREETING [] None 1699999200000)))
    as (c' & H1 & H2 & H3 & H4 & _); try reflexivity; [discriminate | auto |].
  exists c'. split; [exact H1|]. split; [exact H2|]. split; [exact H3 | exact H4].
Defined.
